(** * TheanoUtil: tensor-shape helpers of RETURNN, embedded and verified

    The module [TheanoUtil.py] composes primitives of the Theano tensor
    engine (reshape, concatenate, tile, dimshuffle, repeat, slicing,
    reductions).  An array is embedded as the engine stores a C-contiguous
    buffer: a shape and the row-major list of its elements.  Python
    exceptions and failed assertions are values of an error type, threaded
    through a small error monad.

    Part 1 embeds the engine primitives (module [T], named after the
    source's [import theano.tensor as T]) from their documented behaviour;
    part 2 embeds the functions of [TheanoUtil.py] line by line; part 3
    holds the specification-side definitions the theorems compare the code
    with; part 4 the lemmas and theorems.

    Integers are unbounded except where the source casts to int32
    ([T.cast(..., "int32")]), which wraps around.  Array elements are
    taken from any type with a zero; where the source computes with them
    (mean, max, min, comparisons, the identity matrix) they are rationals. *)

From Stdlib Require Import String.
From Stdlib Require Import List ZArith QArith Lia Bool Arith.
Import ListNotations.

Local Open Scope nat_scope.

(* ------------------------------------------------------------------ *)
(** * Part 0: errors and the error monad *)

Inductive error : Type :=
| AssertionError (msg : string)
| IndexError
| ValueError
| ZeroDivisionError.

Inductive result (A : Type) : Type :=
| Ok (a : A)
| Err (e : error).

Arguments Ok {A} a.
Arguments Err {A} e.

Definition bind {A B : Type} (r : result A) (k : A -> result B) : result B :=
  match r with
  | Ok a => k a
  | Err e => Err e
  end.

Notation "x <- e ;; k" := (bind e (fun x => k))
  (at level 61, e at next level, right associativity).

(** Python's [assert c, msg]. *)
Definition assert (c : bool) (msg : string) : result unit :=
  if c then Ok tt else Err (AssertionError msg).

(* ------------------------------------------------------------------ *)
(** * Part 1: arrays *)

(** Element types have a zero ([T.zeros], [T.cast(0, dtype)]). *)
Class Dtype (A : Type) := { zero : A }.

#[export] Instance Z_dtype : Dtype Z := {| zero := 0%Z |}.
#[export] Instance Q_dtype : Dtype Q := {| zero := 0%Q |}.
#[export] Instance bool_dtype : Dtype bool := {| zero := false |}.

Record ndarray (A : Type) : Type :=
  mk_ndarray { shape : list nat; data : list A }.

Arguments mk_ndarray {A} shape data.
Arguments shape {A} n.
Arguments data {A} n.

(** Number of elements of a shape. *)
Definition size (shp : list nat) : nat := fold_right Nat.mul 1 shp.

Definition ndim {A : Type} (t : ndarray A) : nat := length (shape t).

(** The buffer holds exactly the elements the shape announces. *)
Definition wf {A : Type} (t : ndarray A) : Prop :=
  length (data t) = size (shape t).

(** Length of dimension [k] (0 when there is none). *)
Definition dim {A : Type} (t : ndarray A) (k : nat) : nat := nth k (shape t) 0.

(** Row-major offset of a multi-index, and its inverse. *)
Fixpoint ravel (shp idx : list nat) : nat :=
  match shp, idx with
  | _ :: shp', i :: idx' => i * size shp' + ravel shp' idx'
  | _, _ => 0
  end.

Fixpoint unravel (shp : list nat) (f : nat) : list nat :=
  match shp with
  | [] => []
  | _ :: shp' => f / size shp' :: unravel shp' (f mod size shp')
  end.

(** Element at a multi-index. *)
Definition get {A : Type} `{Dtype A} (t : ndarray A) (idx : list nat) : A :=
  nth (ravel (shape t) idx) (data t) zero.

(** [cnt] consecutive runs of [sz] elements. *)
Fixpoint chunks {A : Type} (cnt sz : nat) (l : list A) : list (list A) :=
  match cnt with
  | 0 => []
  | S c => firstn sz l :: chunks c sz (skipn sz l)
  end.

(** Around axis [k] a buffer is [outer] blocks of [dim k] rows of [inner]
    elements. *)
Definition outer (k : nat) (shp : list nat) : nat := size (firstn k shp).
Definition inner (k : nat) (shp : list nat) : nat := size (skipn (S k) shp).

Definition set_at (k v : nat) (shp : list nat) : list nat :=
  firstn k shp ++ v :: skipn (S k) shp.

Definition remove_at (k : nat) (shp : list nat) : list nat :=
  firstn k shp ++ skipn (S k) shp.

(** Row [j] (along the axis) of one outer block. *)
Definition row {A : Type} (i j : nat) (blk : list A) : list A :=
  firstn i (skipn (j * i) blk).

(** Gather along axis [k]: the result's rows along the axis are the rows
    [idxs] of the argument, in that order. *)
Definition take_axis {A : Type} (k : nat) (idxs : list nat) (t : ndarray A)
  : ndarray A :=
  let n := dim t k in
  let i := inner k (shape t) in
  {| shape := set_at k (length idxs) (shape t);
     data := flat_map (fun blk => flat_map (fun j => row i j blk) idxs)
               (chunks (outer k (shape t)) (n * i) (data t)) |}.

(** ** Python slices *)

Record slice : Type :=
  Slice { start : option Z; stop : option Z; step : option Z }.

(** [slice(None)] *)
Definition slice_all : slice := Slice None None None.

(** Python's [slice.indices(length)] followed by [range(start, stop, step)]:
    the positions a slice selects in a sequence of the given length. *)
Definition slice_indices (s : slice) (n : nat) : result (list nat) :=
  let len := Z.of_nat n in
  let stp := match step s with None => 1%Z | Some x => x end in
  if (stp =? 0)%Z then Err ValueError else
  let lower := if (stp <? 0)%Z then (-1)%Z else 0%Z in
  let upper := if (stp <? 0)%Z then (len - 1)%Z else len in
  let clip (x : Z) :=
    if (x <? 0)%Z then Z.max (x + len) lower else Z.min x upper in
  let sta := match start s with
             | None => if (stp <? 0)%Z then upper else lower
             | Some x => clip x
             end in
  let sto := match stop s with
             | None => if (stp <? 0)%Z then lower else upper
             | Some x => clip x
             end in
  let count :=
    if (stp <? 0)%Z
    then (if (sto <? sta)%Z then (sta - sto - stp - 1) / (- stp) else 0)%Z
    else (if (sta <? sto)%Z then (sto - sta + stp - 1) / stp else 0)%Z in
  Ok (map (fun k => Z.to_nat (sta + Z.of_nat k * stp)) (seq 0 (Z.to_nat count))).

(** Slicing one dimension [k] with [s], all others kept. *)
Definition slice_dim {A : Type} (k : nat) (s : slice) (x : ndarray A)
  : result (ndarray A) :=
  idxs <- slice_indices s (dim x k) ;; Ok (take_axis k idxs x).

(** Integer division of the engine and of Python 2 on ints: floor. *)
Definition int_div (a b : Z) : result Z :=
  if (b =? 0)%Z then Err ZeroDivisionError else Ok (a / b)%Z.

(** Python's [int(x)] on a number: truncation toward zero. *)
Definition int (x : Q) : Z := Z.quot (Qnum x) (Zpos (Qden x)).

(** [x == int(x)] *)
Definition is_int (x : Q) : bool := Qeq_bool x (inject_Z (int x)).

Definition Qltb (x y : Q) : bool := (Qnum x * QDen y <? Qnum y * QDen x)%Z.

(** [val.shape[i]]; an absent dimension is an [IndexError]. *)
Definition shape_at {A : Type} (t : ndarray A) (i : nat) : result Z :=
  match nth_error (shape t) i with
  | Some n => Ok (Z.of_nat n)
  | None => Err IndexError
  end.

(** [val.shape[i]] for [i] drawn from [range(val.ndim)]. *)
Definition shp {A : Type} (t : ndarray A) (i : nat) : Z := Z.of_nat (dim t i).

(** A requested shape: no negative length. *)
Definition dims (l : list Z) : result (list nat) :=
  if forallb (fun z => (0 <=? z)%Z) l then Ok (map Z.to_nat l)
  else Err ValueError.

Fixpoint index_of (j : nat) (l : list nat) : nat :=
  match l with
  | [] => 0
  | x :: l' => if x =? j then 0 else S (index_of j l')
  end.

(** Source multi-index of the element a transposed array shows at [idx']:
    axis [j] of the source is read at the position [j] has in [perm]. *)
Definition unpermute (perm idx' : list nat) : list nat :=
  map (fun j => nth (index_of j perm) idx' 0) (seq 0 (length perm)).

Definition zip_with {A B C : Type} (f : A -> B -> C) (l : list A) (l' : list B)
  : list C :=
  map (fun p => f (fst p) (snd p)) (combine l l').

Definition list_eqb (l l' : list nat) : bool :=
  (length l =? length l') && forallb (fun p => fst p =? snd p) (combine l l').

Definition Qsum (l : list Q) : Q := fold_right Qplus 0%Q l.

Definition Qmax (x y : Q) : Q := if Qltb x y then y else x.
Definition Qmin (x y : Q) : Q := if Qltb y x then y else x.

Definition Qmaximum (l : list Q) : Q :=
  match l with [] => 0%Q | x :: l' => fold_left Qmax l' x end.
Definition Qminimum (l : list Q) : Q :=
  match l with [] => 0%Q | x :: l' => fold_left Qmin l' x end.
(** Position of the first greatest element. *)
Fixpoint Qargmax_from (best : Q) (besti i : nat) (l : list Q) : nat :=
  match l with
  | [] => besti
  | x :: l' =>
      if Qltb best x then Qargmax_from x i (S i) l'
      else Qargmax_from best besti (S i) l'
  end.

Definition Qargmax (l : list Q) : Z :=
  match l with
  | [] => 0%Z
  | x :: l' => Z.of_nat (Qargmax_from x 0 1 l')
  end.

Definition Qmean (l : list Q) : Q := (Qsum l / inject_Z (Z.of_nat (length l)))%Q.

(** ** The engine's primitives *)

Module T.

Section Generic.
Context {A : Type} `{Dtype A}.

(** [T.zeros(shape)] *)
Definition zeros (shape : list Z) : result (ndarray A) :=
  s <- dims shape ;;
  Ok {| shape := s; data := repeat zero (size s) |}.

(** [T.reshape(x, newshape)]: same buffer, new shape of the same size.
    One negative entry stands for the length that makes the sizes agree
    (the other entries must divide the size of the buffer); two or more
    negative entries are refused. *)
Definition reshape (x : ndarray A) (newshape : list Z) : result (ndarray A) :=
  match filter (fun z => (z <? 0)%Z) newshape with
  | [] =>
      let s := map Z.to_nat newshape in
      if size s =? size (shape x) then Ok {| shape := s; data := data x |}
      else Err ValueError
  | [_] =>
      let known :=
        size (map Z.to_nat (filter (fun z => (0 <=? z)%Z) newshape)) in
      if (known =? 0) || negb (size (shape x) mod known =? 0) then Err ValueError
      else Ok {| shape := map (fun z => if (z <? 0)%Z then size (shape x) / known
                                        else Z.to_nat z) newshape;
                 data := data x |}
  | _ => Err ValueError
  end.

(** [T.flatten(x)] *)
Definition flatten (x : ndarray A) : ndarray A :=
  {| shape := [size (shape x)]; data := data x |}.

(** Joining two arrays along [axis]: all other dimensions must agree. *)
Definition join (axis : nat) (a b : ndarray A) : result (ndarray A) :=
  if (axis <? ndim a) && (ndim a =? ndim b)
     && list_eqb (remove_at axis (shape a)) (remove_at axis (shape b))
  then
    let o := outer axis (shape a) in
    let i := inner axis (shape a) in
    Ok {| shape := set_at axis (dim a axis + dim b axis) (shape a);
          data := concat (zip_with (@app A)
                            (chunks o (dim a axis * i) (data a))
                            (chunks o (dim b axis * i) (data b))) |}
  else Err ValueError.

(** [T.concatenate(tensors, axis)] *)
Definition concatenate (tensors : list (ndarray A)) (axis : nat)
  : result (ndarray A) :=
  match tensors with
  | [] => Err ValueError
  | t :: rest =>
      fold_left (fun acc b => a <- acc ;; join axis a b) rest (Ok t)
  end.

(** [T.tile(x, reps)], one repetition count per dimension. *)
Definition tile (x : ndarray A) (reps : list Z) : result (ndarray A) :=
  r <- dims reps ;;
  if length r =? ndim x then
    let s' := zip_with Nat.mul (shape x) r in
    Ok {| shape := s';
          data := map (fun f =>
                         nth (ravel (shape x)
                                (zip_with Nat.modulo (unravel s' f) (shape x)))
                           (data x) zero)
                    (seq 0 (size s')) |}
  else Err ValueError.

(** [x.dimshuffle(perm)] for a permutation of the axes: dimension [k] of
    the result is dimension [perm[k]] of [x]. *)
Definition dimshuffle (x : ndarray A) (perm : list nat) : result (ndarray A) :=
  if (length perm =? ndim x)
     && forallb (fun j => existsb (Nat.eqb j) perm) (seq 0 (ndim x))
  then
    let s' := map (dim x) perm in
    Ok {| shape := s';
          data := map (fun f =>
                         nth (ravel (shape x) (unpermute perm (unravel s' f)))
                           (data x) zero)
                    (seq 0 (size s')) |}
  else Err ValueError.

(** [T.repeat(x, repeats, axis)] with a scalar count. *)
Definition repeat (x : ndarray A) (repeats : Z) (axis : nat)
  : result (ndarray A) :=
  if (repeats <? 0)%Z then Err ValueError
  else if negb (axis <? ndim x) then Err ValueError
  else Ok (take_axis axis
             (flat_map (fun j => List.repeat j (Z.to_nat repeats))
                (seq 0 (dim x axis))) x).

(** Basic indexing [x[s0, s1, ...]] with a tuple of slices, slice [j]
    applying to dimension [j]; dimensions beyond the tuple are kept. *)
Fixpoint getitem_from (k : nat) (ss : list slice) (x : ndarray A)
  : result (ndarray A) :=
  match ss with
  | [] => Ok x
  | s :: ss' =>
      idxs <- slice_indices s (dim x k) ;;
      getitem_from (S k) ss' (take_axis k idxs x)
  end.

Definition getitem (x : ndarray A) (ss : list slice) : result (ndarray A) :=
  if length ss <=? ndim x then getitem_from 0 ss x else Err IndexError.

(** Integer-array indexing [x[idx]] on the leading dimension; a negative
    index counts from the end. *)
Definition getitem_int (x : ndarray A) (idx : ndarray Z)
  : result (ndarray A) :=
  match shape x with
  | [] => Err IndexError
  | n :: rest =>
      let len := Z.of_nat n in
      if forallb (fun v => (- len <=? v)%Z && (v <? len)%Z) (data idx) then
        Ok {| shape := shape idx ++ rest;
              data := flat_map
                        (fun v =>
                           let j := if (v <? 0)%Z then (v + len)%Z else v in
                           row (size rest) (Z.to_nat j) (data x))
                        (data idx) |}
      else Err IndexError
  end.
End Generic.

(** [T.cast(x, 'int32')] on an integer: two's-complement wrap-around. *)
Definition cast_int32 (z : Z) : Z := ((z + 2 ^ 31) mod 2 ^ 32 - 2 ^ 31)%Z.

Definition cast_int32_array (x : ndarray Z) : ndarray Z :=
  {| shape := shape x; data := map cast_int32 (data x) |}.

(** [T.maximum] on integer scalars. *)
Definition maximum (a b : Z) : Z := Z.max a b.

(** [T.minimum] on integer scalars. *)
Definition minimum (a b : Z) : Z := Z.min a b.

(** [T.eye(n)] *)
Definition eye (n : Z) : result (ndarray Q) :=
  s <- dims [n] ;;
  let k := Z.to_nat n in
  Ok {| shape := [k; k];
        data := flat_map (fun i => map (fun j => if i =? j then 1%Q else 0%Q)
                                     (seq 0 k))
                  (seq 0 k) |}.

(** Reduction along [axis]; an empty reduction has no value. *)
Definition reduce (f : list Q -> Q) (x : ndarray Q) (axis : nat)
  : result (ndarray Q) :=
  if negb (axis <? ndim x) then Err ValueError
  else if dim x axis =? 0 then Err ValueError
  else
    let n := dim x axis in
    let i := inner axis (shape x) in
    Ok {| shape := remove_at axis (shape x);
          data := flat_map
                    (fun blk =>
                       map (fun c => f (map (fun r => nth c r 0%Q)
                                          (chunks n i blk)))
                         (seq 0 i))
                    (chunks (outer axis (shape x)) (n * i) (data x)) |}.

Definition mean := reduce Qmean.
Definition max := reduce Qmaximum.
Definition min := reduce Qminimum.

(** Element-wise comparison with a scalar, disjunction and selection. *)
Definition lt (x : ndarray Q) (c : Q) : ndarray bool :=
  {| shape := shape x; data := map (fun v => Qltb v c) (data x) |}.
Definition gt (x : ndarray Q) (c : Q) : ndarray bool :=
  {| shape := shape x; data := map (fun v => Qltb c v) (data x) |}.
Definition or_ (a b : ndarray bool) : ndarray bool :=
  {| shape := shape a; data := zip_with orb (data a) (data b) |}.
Definition switch (c : ndarray bool) (a : Q) (b : ndarray Q) : ndarray Q :=
  {| shape := shape b;
     data := zip_with (fun (ci : bool) bi => if ci then a else bi)
               (data c) (data b) |}.

End T.

(* ------------------------------------------------------------------ *)
(** * Part 2: the functions of TheanoUtil.py *)

Section TheanoUtil.
Context {A : Type} `{Dtype A}.

(** [time_batch_make_flat(val)]: flatten the first two dimensions and
    leave the others as they are. *)
Definition time_batch_make_flat (val : ndarray A) : result (ndarray A) :=
  _ <- assert (1 <? ndim val) "" ;;
  let s0 := (shp val 0 * shp val 1)%Z in
  let newshape := [s0] ++ map (fun i => shp val i) (seq 2 (ndim val - 2)) in
  T.reshape val newshape.

(** [windowed_batch(source, window)] *)
Definition windowed_batch (source : ndarray A) (window : Z)
  : result (ndarray A) :=
  _ <- assert (ndim source =? 3) "" ;;
  let n_time := shp source 0 in
  let n_batch := shp source 1 in
  let n_dim := shp source 2 in
  let w_right := (window / 2)%Z in
  let w_left := (window - w_right - 1)%Z in
  pad_left <- T.zeros [w_left; n_batch; n_dim] ;;
  pad_right <- T.zeros [w_right; n_batch; n_dim] ;;
  padded <- T.concatenate [pad_left; source; pad_right] 0 ;;
  tiled <- T.tile padded [1; 1; window]%Z ;;
  tiled_reshape <-
    T.reshape tiled [n_time + window - 1; n_batch; window; n_dim]%Z ;;
  tiled_dimshuffle <- T.dimshuffle tiled_reshape [2; 0; 1; 3] ;;
  let tiled_flat := T.flatten tiled_dimshuffle in
  let rem := (n_batch * n_dim * window)%Z in
  z <- T.zeros [rem] ;;
  tiled_flat_pad_right <- T.concatenate [tiled_flat; z] 0 ;;
  tiled_reshape_shift <-
    T.reshape tiled_flat_pad_right
      [window; n_time + window; n_batch; n_dim]%Z ;;
  final_dimshuffle <- T.dimshuffle tiled_reshape_shift [1; 2; 0; 3] ;;
  final_sub <- T.getitem final_dimshuffle [Slice None (Some n_time) None] ;;
  T.reshape final_sub [n_time; n_batch; window * n_dim]%Z.

(** [slice_for_axis(axis, s)]: [(slice(None),) * (axis - 1) + (s,)].
    A tuple repeated a negative number of times is empty. *)
Definition slice_for_axis (axis : nat) (s : slice) : list slice :=
  List.repeat slice_all (Z.to_nat (Z.of_nat axis - 1)) ++ [s].

(** [pad(source, axis, target_axis_len, pad_value=None)] *)
Definition pad (source : ndarray A) (axis : nat) (target_axis_len : Z)
  (pad_value : option (ndarray A)) : result (ndarray A) :=
  pad_value <-
    match pad_value with
    | Some p => Ok p
    | None =>
        T.zeros (map (fun i => if negb (i =? axis) then shp source i else 1%Z)
                   (seq 0 (ndim source)))
    end ;;
  len <- shape_at source axis ;;
  let num_missing := (T.cast_int32 target_axis_len - len)%Z in
  let num_missing := T.maximum num_missing 1 in
  padding <- T.repeat pad_value num_missing axis ;;
  target <- T.concatenate [source; padding] axis ;;
  T.getitem target
    (slice_for_axis axis (Slice (Some 0%Z) (Some target_axis_len) None)).

(** [upsample(source, axis, factor, method, target_axis_len=None)] *)
Definition upsample (source : ndarray A) (axis : nat) (factor : Q)
  (method : string) (target_axis_len : option Z) : result (ndarray A) :=
  if String.eqb method "nearest-neighbor" then
    _ <- assert (is_int factor)
           "factor is expected to be an int. not implemented otherwise yet." ;;
    let factor := int factor in
    target <- T.repeat source factor axis ;;
    match target_axis_len with
    | Some target_axis_len =>
        last <- T.getitem source
                  (slice_for_axis axis (Slice (Some (-1)%Z) None None)) ;;
        pad target axis target_axis_len (Some last)
    | None => Ok target
    end
  else Err (AssertionError "unknown upsample method").

(** [chunked_time_reverse(source, chunk_size)] *)
Definition chunked_time_reverse (source : ndarray A) (chunk_size : Z)
  : result (ndarray A) :=
  let chunk_size := T.cast_int32 chunk_size in
  n_time <- shape_at source 0 ;;
  num_chunks <- int_div (n_time + chunk_size - 1) chunk_size ;;
  let needed_time := (num_chunks * chunk_size)%Z in
  let remaining_dims :=
    map (fun i => shp source (i + 1)) (seq 0 (ndim source - 1)) in
  padded_source <- pad source 0 needed_time None ;;
  reshaped <-
    T.reshape padded_source ([num_chunks; chunk_size] ++ remaining_dims) ;;
  reshaped_rev <-
    T.getitem reshaped [slice_all; Slice None None (Some (-1)%Z)] ;;
  rev_correct_ndim <-
    T.reshape reshaped_rev ([needed_time] ++ remaining_dims) ;;
  T.getitem rev_correct_ndim [Slice None (Some n_time) None].
End TheanoUtil.

(** [class_idx_seq_to_1_of_k(seq, num_classes)] *)
Definition class_idx_seq_to_1_of_k (seq : ndarray Z) (num_classes : Z)
  : result (ndarray Q) :=
  let shape := map (fun i => shp seq i) (List.seq 0 (ndim seq)) ++ [num_classes] in
  eye <- T.eye num_classes ;;
  m <- T.getitem_int eye (T.cast_int32_array seq) ;;
  T.reshape m shape.

(** [tiled_eye(n1, n2)] *)
Definition tiled_eye (n1 n2 : Z) : result (ndarray Q) :=
  q1 <- int_div (n1 - 1) n2 ;;
  let r1 := T.maximum (q1 + 1) 1 in
  q2 <- int_div (n2 - 1) n1 ;;
  let r2 := T.maximum (q2 + 1) 1 in
  small_eye <- T.eye (T.minimum n1 n2) ;;
  tiled_big <- T.tile small_eye [r1; r2] ;;
  let tiled_part :=
    T.getitem tiled_big [Slice None (Some n1) None; Slice None (Some n2) None] in
  tiled_part.

(** [downsample(source, axis, factor, method)] *)
Definition downsample (source : ndarray Q) (axis : nat) (factor : Q)
  (method : string) : result (ndarray Q) :=
  _ <- assert (is_int factor) "factor is expected to be an int" ;;
  let factor := int factor in
  len <- shape_at source axis ;;
  q <- int_div len factor ;;
  source <- T.getitem source
              (slice_for_axis axis (Slice (Some 0%Z) (Some (q * factor)%Z) None)) ;;
  let added_dim_shape := map (fun i => shp source i) (seq 0 (ndim source)) in
  len <- shape_at source axis ;;
  q <- int_div len factor ;;
  let added_dim_shape :=
    firstn axis added_dim_shape ++ [q; factor] ++ skipn (axis + 1) added_dim_shape in
  source <- T.reshape source added_dim_shape ;;
  if String.eqb method "average" then T.mean source (axis + 1)
  else if String.eqb method "max" then T.max source (axis + 1)
  else if String.eqb method "min" then T.min source (axis + 1)
  else Err (AssertionError "unknown downsample method").

(** [GradDiscardOutOfBound]: a [ViewOp] with two bounds. *)
Record GradDiscardOutOfBound : Type :=
  mk_GradDiscardOutOfBound { lower_bound : Q; upper_bound : Q }.

(** [GradDiscardOutOfBound.__init__] *)
Definition GradDiscardOutOfBound_init (lower upper : Q)
  : result GradDiscardOutOfBound :=
  let self := mk_GradDiscardOutOfBound lower upper in
  _ <- assert (Qle_bool (self.(lower_bound)) (self.(upper_bound))) "" ;;
  Ok self.

(** The forward pass inherited from [ViewOp]: the output is the input. *)
Definition ViewOp_perform (x : ndarray Q) : ndarray Q := x.

Definition GradDiscardOutOfBound_perform (self : GradDiscardOutOfBound)
  (x : ndarray Q) : ndarray Q := ViewOp_perform x.

(** [GradDiscardOutOfBound.grad] *)
Definition GradDiscardOutOfBound_grad (self : GradDiscardOutOfBound)
  (args g_outs : list (ndarray Q)) : list (ndarray Q) :=
  map (fun g_out =>
         T.switch (T.or_ (T.lt g_out self.(lower_bound))
                     (T.gt g_out self.(upper_bound)))
           zero g_out)
    g_outs.

(** [grad_discard_out_of_bound(x, lower_bound, upper_bound)] *)
Definition grad_discard_out_of_bound (x : ndarray Q) (lower upper : Q)
  : result (ndarray Q) :=
  op <- GradDiscardOutOfBound_init lower upper ;;
  Ok (GradDiscardOutOfBound_perform op x).

(** A node of the computation graph, as far as the rewrite below looks at
    it: its operator, when that is a [GradDiscardOutOfBound], and its
    inputs. *)
Record apply_node : Type :=
  mk_apply_node { node_op : option GradDiscardOutOfBound;
                  node_inputs : list (ndarray Q) }.

(** [_local_grad_discard(node)]: the canonicalisation that replaces the
    outputs of the operator by its inputs ([None]: no replacement). *)
Definition _local_grad_discard (node : apply_node) : option (list (ndarray Q)) :=
  match node_op node with
  | Some _ => Some (node_inputs node)
  | None => None
  end.

(* ------------------------------------------------------------------ *)
(** * Part 3: specification-side definitions *)

Section Specification.
Context {A : Type} `{Dtype A}.

(** The time steps of an array whose leading axis is time: one flat row
    per time step. *)
Definition time_rows (t : ndarray A) : list (list A) :=
  chunks (dim t 0) (inner 0 (shape t)) (data t).

(** Windowed batch, in the words of the specification: the dim-vector of
    a (time, batch, dim) array at time [s] and batch entry [b], a zero
    vector when [s] is outside [0, time). *)
Definition frame (source : ndarray A) (s : Z) (b : nat) : list A :=
  if ((0 <=? s)%Z && (s <? Z.of_nat (dim source 0))%Z)%bool
  then row (dim source 2) (Z.to_nat s * dim source 1 + b) (data source)
  else List.repeat zero (dim source 2).

(** The window of time step [t]: the frames [t - w_left .. t + w_right]. *)
Definition window_at (source : ndarray A) (window : Z) (t b : nat) : list A :=
  let w_right := (window / 2)%Z in
  let w_left := (window - w_right - 1)%Z in
  flat_map (fun w => frame source (Z.of_nat t - w_left + Z.of_nat w) b)
    (seq 0 (Z.to_nat window)).

(** Chunked time reversal, in the words of the specification: pad the
    time steps with zero rows up to the next multiple of the chunk size,
    reverse every chunk, cut back to the original number of time steps. *)
Definition next_multiple (n c : nat) : nat := (n + c - 1) / c * c.

Definition chunked_reverse_rows (c : nat) (zero_row : list A)
  (rows : list (list A)) : list (list A) :=
  let n := length rows in
  let padded := rows ++ List.repeat zero_row (next_multiple n c - n) in
  firstn n (concat (map (@rev (list A)) (chunks (next_multiple n c / c) c padded))).
End Specification.

(** The three functions that slice through [slice_for_axis], with the
    slicing step taken as a parameter: [slicer s x] is what the function
    does where the source writes [x[slice_for_axis(axis, s)]]. *)
Section SlicedBy.
Context {A : Type} `{Dtype A}.
Variable slicer : slice -> ndarray A -> result (ndarray A).

Definition pad_sliced_by (source : ndarray A) (axis : nat) (target_axis_len : Z)
  (pad_value : option (ndarray A)) : result (ndarray A) :=
  pad_value <-
    match pad_value with
    | Some p => Ok p
    | None =>
        T.zeros (map (fun i => if negb (i =? axis) then shp source i else 1%Z)
                   (seq 0 (ndim source)))
    end ;;
  len <- shape_at source axis ;;
  let num_missing := (T.cast_int32 target_axis_len - len)%Z in
  let num_missing := T.maximum num_missing 1 in
  padding <- T.repeat pad_value num_missing axis ;;
  target <- T.concatenate [source; padding] axis ;;
  slicer (Slice (Some 0%Z) (Some target_axis_len) None) target.

Definition upsample_sliced_by (source : ndarray A) (axis : nat) (factor : Q)
  (method : string) (target_axis_len : option Z) : result (ndarray A) :=
  if String.eqb method "nearest-neighbor" then
    _ <- assert (is_int factor)
           "factor is expected to be an int. not implemented otherwise yet." ;;
    let factor := int factor in
    target <- T.repeat source factor axis ;;
    match target_axis_len with
    | Some target_axis_len =>
        last <- slicer (Slice (Some (-1)%Z) None None) source ;;
        pad_sliced_by target axis target_axis_len (Some last)
    | None => Ok target
    end
  else Err (AssertionError "unknown upsample method").
End SlicedBy.

Definition downsample_sliced_by
  (slicer : slice -> ndarray Q -> result (ndarray Q))
  (source : ndarray Q) (axis : nat) (factor : Q) (method : string)
  : result (ndarray Q) :=
  _ <- assert (is_int factor) "factor is expected to be an int" ;;
  let factor := int factor in
  len <- shape_at source axis ;;
  q <- int_div len factor ;;
  source <- slicer (Slice (Some 0%Z) (Some (q * factor)%Z) None) source ;;
  let added_dim_shape := map (fun i => shp source i) (seq 0 (ndim source)) in
  len <- shape_at source axis ;;
  q <- int_div len factor ;;
  let added_dim_shape :=
    firstn axis added_dim_shape ++ [q; factor] ++ skipn (axis + 1) added_dim_shape in
  source <- T.reshape source added_dim_shape ;;
  if String.eqb method "average" then T.mean source (axis + 1)
  else if String.eqb method "max" then T.max source (axis + 1)
  else if String.eqb method "min" then T.min source (axis + 1)
  else Err (AssertionError "unknown downsample method").

(** The reduction each downsampling method applies to a group. *)
Definition method_reduction (method : string) : option (list Q -> Q) :=
  if String.eqb method "average" then Some Qmean
  else if String.eqb method "max" then Some Qmaximum
  else if String.eqb method "min" then Some Qminimum
  else None.

(** Row [j] along the leading axis of an array, as a flat list. *)
Definition leading_row {A : Type} (x : ndarray A) (j : nat) : list A :=
  row (inner 0 (shape x)) j (data x).

(** Two arrays of rationals that agree up to equality of fractions. *)
Definition array_Qeq (a b : ndarray Q) : Prop :=
  shape a = shape b /\ Forall2 Qeq (data a) (data b).

(** The vector along the last axis at flat position [p] of the leading
    dimensions. *)
Definition trailing_vector {A : Type} (m : ndarray A) (p : nat) : list A :=
  row (last (shape m) 0) p (data m).

(** Row [i] of the identity matrix of size [k]. *)
Definition one_hot_row (k i : nat) : list Q :=
  map (fun j => if i =? j then 1%Q else 0%Q) (seq 0 k).

(** The row an index selects after the cast to int32 and Python's
    treatment of negative indices. *)
Definition selected_row (num_classes v : Z) : Z :=
  let c := T.cast_int32 v in
  if (c <? 0)%Z then (c + num_classes)%Z else c.

(* ------------------------------------------------------------------ *)
(** * Part 4: lemmas *)

(** ** Arithmetic of blocks *)

Lemma block_index_lt (p n r m : nat) : p < n -> r < m -> p * m + r < n * m.
Proof. intros Hp Hr. nia. Qed.

Lemma div_block (p r m : nat) : r < m -> (p * m + r) / m = p.
Proof.
  intros Hr. rewrite Nat.add_comm, Nat.div_add by lia.
  rewrite Nat.div_small by assumption. reflexivity.
Qed.

Lemma mod_block (p r m : nat) : r < m -> (p * m + r) mod m = r.
Proof.
  intros Hr. rewrite Nat.add_comm, Nat.Div0.mod_add.
  apply Nat.mod_small; assumption.
Qed.

(** ** Lists *)

Lemma nth_map_seq {B : Type} (f : nat -> B) (n i : nat) (d : B) :
  i < n -> nth i (map f (seq 0 n)) d = f i.
Proof.
  intros Hi. rewrite (nth_indep _ d (f 0)) by (rewrite length_map, length_seq; lia).
  rewrite (map_nth f (seq 0 n) 0 i), seq_nth by assumption. reflexivity.
Qed.

Lemma map_nth_seq {B : Type} (l : list B) (d : B) :
  map (fun j => nth j l d) (seq 0 (length l)) = l.
Proof.
  apply (nth_ext _ _ d d).
  - rewrite length_map, length_seq. reflexivity.
  - intros n Hn. rewrite length_map, length_seq in Hn.
    rewrite (nth_map_seq (fun j => nth j l d)) by assumption. reflexivity.
Qed.

Lemma length_zip_with {B C D : Type} (f : B -> C -> D) l l' :
  length (zip_with f l l') = Nat.min (length l) (length l').
Proof. unfold zip_with. rewrite length_map, length_combine. reflexivity. Qed.

Lemma length_chunks {B : Type} (cnt sz : nat) (l : list B) :
  length (chunks cnt sz l) = cnt.
Proof. revert l. induction cnt; intros l; simpl; [|rewrite IHcnt]; reflexivity. Qed.

Lemma concat_chunks {B : Type} (cnt sz : nat) (l : list B) :
  concat (chunks cnt sz l) = firstn (cnt * sz) l.
Proof.
  revert l. induction cnt as [|c IH]; intros l; simpl.
  - reflexivity.
  - rewrite IH. rewrite <- (firstn_skipn sz l) at 3.
    rewrite firstn_app, firstn_firstn.
    destruct (Nat.le_gt_cases sz (length l)) as [Hl | Hl].
    + rewrite length_firstn.
      replace (Nat.min sz (length l)) with sz by lia.
      replace (Nat.min (sz + c * sz) sz) with sz by lia.
      replace (sz + c * sz - sz) with (c * sz) by lia. reflexivity.
    + rewrite (skipn_all2 l) by lia. rewrite !firstn_nil, !app_nil_r.
      rewrite !firstn_all2 by (try rewrite length_firstn; lia). reflexivity.
Qed.

Lemma concat_chunks_all {B : Type} (cnt sz : nat) (l : list B) :
  length l = cnt * sz -> concat (chunks cnt sz l) = l.
Proof. intros Hl. rewrite concat_chunks. apply firstn_all2. lia. Qed.

Lemma nth_chunks {B : Type} (cnt sz j : nat) (l : list B) :
  j < cnt -> nth j (chunks cnt sz l) [] = row sz j l.
Proof.
  unfold row. revert j l. induction cnt as [|c IH]; intros j l Hj; [lia|].
  destruct j as [|j]; simpl.
  - reflexivity.
  - rewrite IH by lia. rewrite skipn_skipn.
    replace (j * sz + sz) with (sz + j * sz) by lia. reflexivity.
Qed.

Lemma chunks_as_rows {B : Type} (cnt sz : nat) (l : list B) :
  chunks cnt sz l = map (fun j => row sz j l) (seq 0 cnt).
Proof.
  apply (nth_ext _ _ [] []).
  - rewrite length_chunks, length_map, length_seq. reflexivity.
  - intros j Hj. rewrite length_chunks in Hj.
    rewrite nth_chunks, nth_map_seq by assumption. reflexivity.
Qed.

Lemma length_row {B : Type} (sz j : nat) (l : list B) :
  (j + 1) * sz <= length l -> length (row sz j l) = sz.
Proof.
  intros Hl. unfold row. rewrite length_firstn, length_skipn. lia.
Qed.

Lemma chunks_length_each {B : Type} (cnt sz : nat) (l : list B) :
  cnt * sz <= length l -> Forall (fun c => length c = sz) (chunks cnt sz l).
Proof.
  intros Hl. rewrite chunks_as_rows. apply Forall_forall. intros c Hc.
  apply in_map_iff in Hc. destruct Hc as [j [<- Hj]]. apply in_seq in Hj.
  apply length_row. nia.
Qed.

Lemma nth_row {B : Type} (sz j c : nat) (l : list B) (d : B) :
  c < sz -> nth c (row sz j l) d = nth (j * sz + c) l d.
Proof.
  intros Hc. unfold row. rewrite nth_firstn.
  destruct (c <? sz) eqn:E; [|apply Nat.ltb_ge in E; lia].
  apply nth_skipn.
Qed.

(** ** Shapes *)

Lemma size_app (s s' : list nat) : size (s ++ s') = size s * size s'.
Proof. induction s as [|x s IH]; simpl; [lia|]. rewrite IH. lia. Qed.

Lemma size_cons (x : nat) (s : list nat) : size (x :: s) = x * size s.
Proof. reflexivity. Qed.

Lemma size_split (k : nat) (s : list nat) :
  k < length s -> size s = outer k s * (nth k s 0 * inner k s).
Proof.
  unfold outer, inner. revert k. induction s as [|x s IH]; intros k Hk; simpl in Hk; [lia|].
  destruct k as [|k].
  - simpl. lia.
  - rewrite firstn_cons, skipn_cons, !size_cons. change (nth (S k) (x :: s) 0) with (nth k s 0).
    rewrite (IH k) at 1 by lia. ring.
Qed.

Lemma size_set_at (k v : nat) (s : list nat) :
  size (set_at k v s) = outer k s * (v * inner k s).
Proof. unfold set_at, outer, inner. rewrite size_app. simpl. reflexivity. Qed.

Lemma size_remove_at (k : nat) (s : list nat) :
  size (remove_at k s) = outer k s * inner k s.
Proof. unfold remove_at, outer, inner. apply size_app. Qed.

Lemma set_at_same (k : nat) (s : list nat) :
  k < length s -> set_at k (nth k s 0) s = s.
Proof.
  unfold set_at. revert k. induction s as [|x s IH]; intros k Hk; simpl in Hk; [lia|].
  destruct k as [|k]; simpl; [reflexivity|].
  f_equal. apply IH. lia.
Qed.

Lemma nth_set_at (k v : nat) (s : list nat) :
  k < length s -> nth k (set_at k v s) 0 = v.
Proof.
  intros Hk. unfold set_at. rewrite app_nth2; rewrite length_firstn, Nat.min_l by lia; [|lia].
  rewrite Nat.sub_diag. reflexivity.
Qed.

Lemma nth_set_at_other (k j v : nat) (s : list nat) :
  k < length s -> j <> k -> nth j (set_at k v s) 0 = nth j s 0.
Proof.
  intros Hk Hjk. unfold set_at. revert k j Hk Hjk.
  induction s as [|x s IH]; intros k j Hk Hjk; simpl in Hk; [lia|].
  destruct k as [|k]; destruct j as [|j]; simpl; try reflexivity; try lia.
  apply IH; lia.
Qed.

Lemma length_set_at (k v : nat) (s : list nat) :
  k < length s -> length (set_at k v s) = length s.
Proof.
  intros Hk. unfold set_at. rewrite length_app. cbn [length].
  rewrite length_firstn, length_skipn. lia.
Qed.

Lemma ravel_lt (shp idx : list nat) :
  Forall2 lt idx shp -> ravel shp idx < size shp.
Proof.
  intros HF. induction HF as [|i n idx shp Hi HF IH]; simpl; [lia|].
  fold (size shp). nia.
Qed.

Lemma unravel_ravel (shp idx : list nat) :
  Forall2 lt idx shp -> unravel shp (ravel shp idx) = idx.
Proof.
  intros HF. induction HF as [|i n idx shp Hi HF IH]; simpl; [reflexivity|].
  fold (size shp). pose proof (ravel_lt _ _ HF) as Hr.
  rewrite div_block, mod_block by assumption. rewrite IH. reflexivity.
Qed.

Lemma unravel_lt (shp : list nat) (f : nat) :
  f < size shp -> Forall2 lt (unravel shp f) shp.
Proof.
  revert f. induction shp as [|n shp IH]; intros f Hf; simpl; constructor.
  - rewrite size_cons in Hf.
    assert (size shp <> 0) by (intros E; rewrite E in Hf; lia).
    apply Nat.Div0.div_lt_upper_bound. lia.
  - apply IH. rewrite size_cons in Hf.
    assert (size shp <> 0) by (intros E; rewrite E in Hf; lia).
    apply Nat.mod_upper_bound. assumption.
Qed.

Lemma ravel_unravel (shp : list nat) (f : nat) :
  f < size shp -> ravel shp (unravel shp f) = f.
Proof.
  revert f. induction shp as [|n shp IH]; intros f Hf; simpl.
  - simpl in Hf. lia.
  - fold (size shp). rewrite size_cons in Hf.
    assert (size shp <> 0) by (intros E; rewrite E in Hf; lia).
    rewrite IH by (apply Nat.mod_upper_bound; assumption).
    rewrite (Nat.div_mod_eq f (size shp)) at 3. lia.
Qed.

(** ** Results *)

Lemma list_eqb_refl (l : list nat) : list_eqb l l = true.
Proof.
  unfold list_eqb. rewrite Nat.eqb_refl. simpl.
  induction l as [|x l IH]; simpl; [reflexivity|].
  rewrite Nat.eqb_refl. exact IH.
Qed.

Lemma dims_nonneg (l : list Z) :
  Forall (fun z => (0 <= z)%Z) l -> dims l = Ok (map Z.to_nat l).
Proof.
  intros HF. unfold dims.
  replace (forallb (fun z => (0 <=? z)%Z) l) with true; [reflexivity|].
  symmetry. apply forallb_forall. intros z Hz.
  rewrite Forall_forall in HF. apply Z.leb_le. apply HF. assumption.
Qed.

Lemma dims_of_nat (l : list nat) : dims (map Z.of_nat l) = Ok l.
Proof.
  rewrite dims_nonneg.
  - rewrite map_map. f_equal. rewrite <- (map_id l) at 2.
    apply map_ext. intros n. apply Nat2Z.id.
  - apply Forall_forall. intros z Hz. apply in_map_iff in Hz.
    destruct Hz as [n [<- _]]. lia.
Qed.

(** ** Slices *)

Lemma map_to_nat_seq (c : nat) :
  map (fun k => Z.to_nat (0 + Z.of_nat k * 1)) (seq 0 c) = seq 0 c.
Proof.
  rewrite <- (map_id (seq 0 c)) at 2. apply map_ext. intros k. lia.
Qed.

Lemma slice_indices_all (n : nat) : slice_indices slice_all n = Ok (seq 0 n).
Proof.
  unfold slice_indices, slice_all. cbn [step start stop].
  change (1 =? 0)%Z with false. change (1 <? 0)%Z with false.
  cbv iota. destruct (0 <? Z.of_nat n)%Z eqn:E.
  - rewrite Z.add_simpl_r, Z.sub_0_r, Z.div_1_r, Nat2Z.id.
    rewrite map_to_nat_seq. reflexivity.
  - apply Z.ltb_ge in E. assert (n = 0) by lia. subst n. reflexivity.
Qed.

Lemma slice_indices_upto (st : option Z) (k : Z) (n : nat) :
  st = None \/ st = Some 0%Z -> (0 <= k)%Z ->
  slice_indices (Slice st (Some k) None) n = Ok (seq 0 (Nat.min (Z.to_nat k) n)).
Proof.
  intros Hst Hk. unfold slice_indices. cbn [step start stop].
  change (1 =? 0)%Z with false. change (1 <? 0)%Z with false. cbv iota.
  assert (Hsta : match st with
                 | Some x => if (x <? 0)%Z then Z.max (x + Z.of_nat n) 0
                             else Z.min x (Z.of_nat n)
                 | None => 0%Z
                 end = 0%Z).
  { destruct Hst as [-> | ->]; [reflexivity|]. simpl. lia. }
  rewrite Hsta.
  destruct (k <? 0)%Z eqn:Ek; [apply Z.ltb_lt in Ek; lia|].
  destruct (0 <? Z.min k (Z.of_nat n))%Z eqn:E.
  - rewrite Z.add_simpl_r, Z.sub_0_r, Z.div_1_r.
    replace (Z.to_nat (Z.min k (Z.of_nat n))) with (Nat.min (Z.to_nat k) n) by lia.
    rewrite map_to_nat_seq. reflexivity.
  - apply Z.ltb_ge in E.
    replace (Nat.min (Z.to_nat k) n) with 0 by lia. reflexivity.
Qed.

Lemma slice_indices_reversed (n : nat) :
  slice_indices (Slice None None (Some (-1)%Z)) n = Ok (rev (seq 0 n)).
Proof.
  unfold slice_indices. cbn [step start stop].
  change (-1 =? 0)%Z with false. change (-1 <? 0)%Z with true. cbv iota.
  f_equal.
  assert (Hc : Z.to_nat (if (-1 <? Z.of_nat n - 1)%Z
                         then (Z.of_nat n - 1 - -1 - -1 - 1) / - -1 else 0)%Z = n).
  { destruct (-1 <? Z.of_nat n - 1)%Z eqn:E.
    - simpl Z.opp. rewrite Z.div_1_r. lia.
    - apply Z.ltb_ge in E. lia. }
  rewrite Hc.
  apply (nth_ext _ _ 0 0).
  - rewrite length_map, length_rev. reflexivity.
  - intros i Hi. rewrite length_map, length_seq in Hi.
    rewrite nth_map_seq by assumption.
    rewrite rev_nth by (rewrite length_seq; assumption).
    rewrite length_seq, seq_nth by lia. lia.
Qed.

Lemma slice_indices_last (n : nat) :
  0 < n -> slice_indices (Slice (Some (-1)%Z) None None) n = Ok [n - 1].
Proof.
  intros Hn. unfold slice_indices. cbn [step start stop].
  change (1 =? 0)%Z with false. change (1 <? 0)%Z with false.
  change (-1 <? 0)%Z with true. cbv iota. f_equal.
  replace (Z.max (-1 + Z.of_nat n) 0) with (Z.of_nat n - 1)%Z by lia.
  destruct (Z.of_nat n - 1 <? Z.of_nat n)%Z eqn:E; [|apply Z.ltb_ge in E; lia].
  replace ((Z.of_nat n - (Z.of_nat n - 1) + 1 - 1) / 1)%Z with 1%Z
    by (rewrite Z.div_1_r; lia).
  simpl. f_equal. lia.
Qed.

(** ** Gathering along an axis *)

Lemma flat_map_rows_seq {A : Type} (sz m : nat) (l : list A) :
  flat_map (fun j => row sz j l) (seq 0 m) = firstn (m * sz) l.
Proof.
  rewrite flat_map_concat_map, <- chunks_as_rows. apply concat_chunks.
Qed.

Lemma flat_map_rows_rev {A : Type} (sz m : nat) (l : list A) :
  flat_map (fun j => row sz j l) (rev (seq 0 m)) = concat (rev (chunks m sz l)).
Proof.
  rewrite flat_map_concat_map, map_rev, <- chunks_as_rows. reflexivity.
Qed.

Lemma take_axis0 {A : Type} (t : ndarray A) (n : nat) (rest idxs : list nat) :
  shape t = n :: rest -> wf t ->
  take_axis 0 idxs t =
  {| shape := length idxs :: rest;
     data := flat_map (fun j => row (size rest) j (data t)) idxs |}.
Proof.
  intros Hs Hwf. unfold take_axis, dim, wf in *. rewrite Hs in *.
  unfold set_at, outer, inner. cbn [firstn skipn size fold_right nth app chunks].
  rewrite size_cons in Hwf. fold (size rest).
  rewrite firstn_all2 by lia. cbn [flat_map]. rewrite app_nil_r. reflexivity.
Qed.

Lemma take_axis_wf {A : Type} (k : nat) (idxs : list nat) (t : ndarray A) :
  k < ndim t -> wf t -> Forall (fun j => j < dim t k) idxs ->
  wf (take_axis k idxs t).
Proof.
  unfold wf, ndim. intros Hk Hwf Hidx. unfold take_axis. cbn [shape data].
  rewrite size_set_at. rewrite (size_split k) in Hwf by assumption.
  fold (dim t k) in Hwf.
  assert (Hch : Forall (fun c => length c = dim t k * inner k (shape t))
                  (chunks (outer k (shape t)) (dim t k * inner k (shape t)) (data t))).
  { apply chunks_length_each. lia. }
  pose proof (length_chunks (outer k (shape t)) (dim t k * inner k (shape t)) (data t)) as Hlen.
  revert Hch Hlen. generalize (chunks (outer k (shape t)) (dim t k * inner k (shape t)) (data t)).
  generalize (outer k (shape t)) as o. intros o l. revert o.
  induction l as [|blk l IH]; intros o Hch Hlen; simpl in Hlen; subst o; [reflexivity|].
  cbn [flat_map]. rewrite length_app. inversion Hch as [|? ? Hb Hch']; subst.
  rewrite (IH (length l)) by auto.
  assert (Hrow : length (flat_map (fun j => row (inner k (shape t)) j blk) idxs)
                 = length idxs * inner k (shape t)).
  { clear IH Hch Hch'. induction Hidx as [|j idxs Hj Hidx IH]; [reflexivity|].
    cbn [flat_map length]. rewrite length_app, IH, length_row; [lia|].
    rewrite Hb. nia. }
  rewrite Hrow. lia.
Qed.

Lemma take_axis_id {A : Type} (k : nat) (t : ndarray A) :
  k < ndim t -> wf t -> take_axis k (seq 0 (dim t k)) t = t.
Proof.
  unfold wf, ndim. intros Hk Hwf. unfold take_axis. destruct t as [s d]. cbn [shape data] in *.
  rewrite length_seq. unfold dim at 1. cbn [shape]. rewrite set_at_same by assumption.
  f_equal. rewrite (size_split k) in Hwf by assumption.
  unfold dim. cbn [shape].
  rewrite <- (concat_chunks_all (outer k s) (nth k s 0 * inner k s) d) at 2 by assumption.
  rewrite flat_map_concat_map. f_equal.
  rewrite <- (map_id (chunks _ _ d)) at 2. apply map_ext_in.
  intros blk Hblk. rewrite flat_map_rows_seq.
  pose proof (chunks_length_each (outer k s) (nth k s 0 * inner k s) d) as HF.
  rewrite Forall_forall in HF. apply firstn_all2. rewrite HF; [lia | lia | assumption].
Qed.

(** ** The engine's primitives on well-formed arrays *)

Section Primitives.
Context {A : Type} `{Dtype A}.

Lemma zeros_ok (s : list nat) :
  T.zeros (map Z.of_nat s) = Ok {| shape := s; data := repeat zero (size s) |}.
Proof. unfold T.zeros. rewrite dims_of_nat. reflexivity. Qed.

Lemma filter_negative_of_nat (s : list nat) :
  filter (fun z => (z <? 0)%Z) (map Z.of_nat s) = [].
Proof.
  induction s as [|n l IH]; [reflexivity|]. cbn [map filter].
  destruct (Z.of_nat n <? 0)%Z eqn:E; [apply Z.ltb_lt in E; lia|]. apply IH.
Qed.

Lemma reshape_ok (x : ndarray A) (s : list nat) :
  size s = size (shape x) ->
  T.reshape x (map Z.of_nat s) = Ok {| shape := s; data := data x |}.
Proof.
  intros Hs. unfold T.reshape.
  rewrite filter_negative_of_nat. cbv zeta. rewrite map_map.
  rewrite (map_ext (fun n => Z.to_nat (Z.of_nat n)) (fun n => n)) by apply Nat2Z.id.
  rewrite map_id, Hs, Nat.eqb_refl. reflexivity.
Qed.

Lemma join0_ok (a b : ndarray A) (na nb : nat) (rest : list nat) :
  shape a = na :: rest -> shape b = nb :: rest -> wf a -> wf b ->
  T.join 0 a b = Ok {| shape := (na + nb) :: rest; data := data a ++ data b |}.
Proof.
  unfold wf. intros Ha Hb Hwa Hwb. unfold T.join, ndim, dim.
  rewrite Ha, Hb in *. rewrite size_cons in Hwa, Hwb.
  unfold remove_at, set_at, outer, inner.
  cbn [firstn skipn app length nth size fold_right chunks].
  fold (size rest). rewrite Nat.eqb_refl, list_eqb_refl. cbn [Nat.ltb Nat.leb andb].
  rewrite !firstn_all2 by lia.
  unfold zip_with. cbn [combine map concat fst snd]. rewrite app_nil_r.
  reflexivity.
Qed.

(** Reading a tiled array: every index is taken modulo the source's
    dimension. *)
Lemma tile_ok (x : ndarray A) (r : list nat) :
  length r = ndim x ->
  exists y, T.tile x (map Z.of_nat r) = Ok y /\
    shape y = zip_with Nat.mul (shape x) r /\ wf y /\
    forall idx, Forall2 lt idx (shape y) ->
      get y idx = get x (zip_with Nat.modulo idx (shape x)).
Proof.
  intros Hr. unfold T.tile. rewrite dims_of_nat. cbn [bind].
  rewrite Hr, Nat.eqb_refl. eexists. split; [reflexivity|]. cbn [shape].
  split; [reflexivity|]. split.
  - unfold wf. cbn [shape data]. rewrite length_map, length_seq. reflexivity.
  - intros idx Hidx. unfold get at 1. cbn [shape data].
    rewrite nth_map_seq by (apply ravel_lt; assumption).
    rewrite unravel_ravel by assumption. reflexivity.
Qed.

(** Reading a transposed array. *)
Lemma dimshuffle_ok (x : ndarray A) (perm : list nat) :
  (length perm =? ndim x)
  && forallb (fun j => existsb (Nat.eqb j) perm) (seq 0 (ndim x)) = true ->
  exists y, T.dimshuffle x perm = Ok y /\
    shape y = map (dim x) perm /\ wf y /\
    forall idx, Forall2 lt idx (shape y) ->
      get y idx = get x (unpermute perm idx).
Proof.
  intros Hp. unfold T.dimshuffle. rewrite Hp. eexists. split; [reflexivity|].
  cbn [shape]. split; [reflexivity|]. split.
  - unfold wf. cbn [shape data]. rewrite length_map, length_seq. reflexivity.
  - intros idx Hidx. unfold get at 1. cbn [shape data].
    rewrite nth_map_seq by (apply ravel_lt; assumption).
    rewrite unravel_ravel by assumption. reflexivity.
Qed.

(** Leading full slices leave a well-formed array as it is. *)
Lemma getitem_from_all (m k : nat) (ss : list slice) (x : ndarray A) :
  k + m <= ndim x -> wf x ->
  T.getitem_from k (repeat slice_all m ++ ss) x = T.getitem_from (k + m) ss x.
Proof.
  revert k. induction m as [|m IH]; intros k Hk Hwf.
  - rewrite Nat.add_0_r. reflexivity.
  - cbn [repeat app T.getitem_from]. rewrite slice_indices_all. cbn [bind].
    rewrite take_axis_id by (assumption || lia).
    rewrite IH by (assumption || lia). f_equal. lia.
Qed.

(** A tuple of [m] full slices followed by [s] slices dimension [m]. *)
Lemma getitem_axis (m : nat) (s : slice) (x : ndarray A) :
  m < ndim x -> wf x ->
  T.getitem x (repeat slice_all m ++ [s]) =
  idxs <- slice_indices s (dim x m) ;; Ok (take_axis m idxs x).
Proof.
  intros Hm Hwf. unfold T.getitem.
  rewrite length_app, repeat_length. cbn [length].
  destruct (m + 1 <=? ndim x) eqn:E; [|apply Nat.leb_gt in E; lia].
  rewrite getitem_from_all by (assumption || lia). reflexivity.
Qed.

Lemma getitem_upto (x : ndarray A) (n : nat) (rest : list nat) (st : option Z) (k : Z) :
  shape x = n :: rest -> wf x -> st = None \/ st = Some 0%Z -> (0 <= k)%Z ->
  T.getitem x [Slice st (Some k) None] =
  Ok {| shape := Nat.min (Z.to_nat k) n :: rest;
        data := firstn (Nat.min (Z.to_nat k) n * size rest) (data x) |}.
Proof.
  intros Hs Hwf Hst Hk.
  change [Slice st (Some k) None] with (repeat slice_all 0 ++ [Slice st (Some k) None]).
  rewrite getitem_axis by (unfold ndim; rewrite ?Hs; simpl; (assumption || lia)).
  unfold dim. rewrite Hs. cbn [nth]. rewrite slice_indices_upto by assumption.
  cbn [bind]. rewrite (take_axis0 x n rest) by assumption.
  rewrite length_seq, flat_map_rows_seq. reflexivity.
Qed.
End Primitives.

(** ** Windowed batch *)

Section Windowed.
Context {A : Type} `{Dtype A}.
Variables (source : ndarray A) (n_time n_batch n_dim : nat) (window : Z).
Hypothesis Hshape : shape source = [n_time; n_batch; n_dim].
Hypothesis Hwf : wf source.
Hypothesis Hwindow : (0 < window)%Z.

Let W := Z.to_nat window.
Let w_right := Z.to_nat (window / 2).
Let w_left := Z.to_nat (window - window / 2 - 1).

Lemma window_split : w_left + w_right + 1 = W.
Proof.
  unfold w_left, w_right, W.
  pose proof (Z.div_pos window 2 ltac:(lia) ltac:(lia)).
  assert (window / 2 < window)%Z by (apply Z.div_lt; lia). lia.
Qed.

Lemma windowed_batch_get :
  exists out, windowed_batch source window = Ok out /\
    shape out = [n_time; n_batch; W * n_dim] /\ wf out /\
    forall t b w d, t < n_time -> b < n_batch -> w < W -> d < n_dim ->
      get out [t; b; w * n_dim + d] =
      if (w_left <=? t + w) && (t + w <? w_left + n_time)
      then get source [t + w - w_left; b; d] else zero.
Proof.
  pose proof window_split as Hsplit.
  assert (Hwr : (window / 2)%Z = Z.of_nat w_right).
  { unfold w_right. pose proof (Z.div_pos window 2 ltac:(lia) ltac:(lia)). lia. }
  assert (Hwl : (window - window / 2 - 1)%Z = Z.of_nat w_left).
  { unfold w_left. assert (window / 2 < window)%Z by (apply Z.div_lt; lia). lia. }
  assert (HW : window = Z.of_nat W) by (unfold W; lia).
  unfold windowed_batch, ndim, shp, dim. rewrite Hshape.
  cbn [length Nat.eqb assert bind nth].
  rewrite Hwl, Hwr, HW.
  replace (Z.of_nat n_time + Z.of_nat W - 1)%Z with (Z.of_nat (n_time + W - 1)) by lia.
  replace (Z.of_nat n_batch * Z.of_nat n_dim * Z.of_nat W)%Z
    with (Z.of_nat (n_batch * n_dim * W)) by lia.
  replace (Z.of_nat n_time + Z.of_nat W)%Z with (Z.of_nat (n_time + W)) by lia.
  replace (Z.of_nat W * Z.of_nat n_dim)%Z with (Z.of_nat (W * n_dim)) by lia.
  clearbody W w_right w_left. clear Hwl Hwr HW.
  set (N := n_time + W - 1).
  assert (HN : w_left + n_time + w_right = N) by (unfold N; lia).
  assert (HN1 : n_time + W = N + 1) by (unfold N; lia).
  (* the two zero blocks and the padded sequence *)
  pose proof (zeros_ok [w_left; n_batch; n_dim]) as E; cbn [map] in E;
    rewrite E; clear E; cbn [bind].
  pose proof (zeros_ok [w_right; n_batch; n_dim]) as E; cbn [map] in E;
    rewrite E; clear E; cbn [bind].
  cbn [T.concatenate fold_left bind].
  rewrite (join0_ok _ source w_left n_time [n_batch; n_dim])
    by (try assumption; try reflexivity; unfold wf; cbn [data shape]; apply repeat_length).
  cbn [bind].
  rewrite (join0_ok _ _ (w_left + n_time) w_right [n_batch; n_dim]);
    [ | reflexivity | reflexivity | | unfold wf; cbn [data shape]; apply repeat_length ].
  2:{ unfold wf in *. cbn [data shape]. rewrite length_app, repeat_length, Hwf, Hshape.
      rewrite !size_cons. ring. }
  cbn [bind data]. rewrite HN.
  set (zl := repeat zero (size [w_left; n_batch; n_dim])).
  set (zr := repeat zero (size [w_right; n_batch; n_dim])).
  set (padded := {| shape := [N; n_batch; n_dim]; data := (zl ++ data source) ++ zr |}).
  (* tiling along the last axis *)
  destruct (tile_ok padded [1; 1; W] eq_refl) as (tiled & Et & Hts & Htwf & Htget).
  cbn [map] in Et. change (Z.of_nat 1) with 1%Z in Et. rewrite Et. clear Et. cbn [bind].
  unfold zip_with in Hts. cbn [shape padded combine map fst snd] in Hts.
  rewrite !Nat.mul_1_r in Hts.
  pose proof (reshape_ok tiled [N; n_batch; W; n_dim]) as E; cbn [map] in E.
  rewrite E by (rewrite Hts, !size_cons; ring). clear E. cbn [bind].
  set (tiled_reshape := {| shape := [N; n_batch; W; n_dim]; data := data tiled |}).
  destruct (dimshuffle_ok tiled_reshape [2; 0; 1; 3] eq_refl)
    as (tds & Ed & Hds & Hdwf & Hdget).
  rewrite Ed. clear Ed. cbn [bind]. cbn in Hds.
  pose proof (zeros_ok [n_batch * n_dim * W]) as E; cbn [map] in E;
    rewrite E; clear E; cbn [bind].
  cbn [T.concatenate fold_left bind].
  rewrite (join0_ok (T.flatten tds) _ (size (shape tds)) (n_batch * n_dim * W) []);
    [ | reflexivity | reflexivity | | unfold wf; cbn [data shape]; apply repeat_length ].
  2:{ unfold wf in *. cbn [T.flatten shape data size fold_right]. lia. }
  cbn [bind T.flatten data].
  set (zp := repeat zero (size [n_batch * n_dim * W])).
  pose proof (reshape_ok {| shape := [size (shape tds) + n_batch * n_dim * W];
                            data := data tds ++ zp |} [W; n_time + W; n_batch; n_dim]) as E.
  cbn [map] in E. rewrite E by (cbn [shape]; rewrite Hds, HN1, !size_cons; cbn [size fold_right]; ring).
  clear E. cbn [bind data].
  set (shift := {| shape := [W; n_time + W; n_batch; n_dim]; data := data tds ++ zp |}).
  destruct (dimshuffle_ok shift [1; 2; 0; 3] eq_refl)
    as (fd & Ef & Hfs & Hfwf & Hfget).
  rewrite Ef. clear Ef. cbn [bind]. cbn in Hfs.
  rewrite (getitem_upto fd (n_time + W) [n_batch; W; n_dim] None (Z.of_nat n_time))
    by (try assumption; try lia; left; reflexivity).
  cbn [bind]. rewrite Nat2Z.id. replace (Nat.min n_time (n_time + W)) with n_time by lia.
  pose proof (reshape_ok {| shape := [n_time; n_batch; W; n_dim];
                            data := firstn (n_time * size [n_batch; W; n_dim]) (data fd) |}
                [n_time; n_batch; W * n_dim]) as E.
  cbn [map] in E. rewrite E by (cbn [shape]; rewrite !size_cons; cbn [size fold_right]; ring).
  clear E. cbn [data].
  eexists. split; [reflexivity|]. cbn [shape]. split; [reflexivity|]. split.
  { unfold wf in *. cbn [shape data]. rewrite length_firstn, Hfwf, Hfs, !size_cons.
    cbn [size fold_right]. nia. }
  intros t b w d Ht Hb Hw Hd.
  assert (Hwd : w * n_dim + d < W * n_dim) by nia.
  assert (Htw : t + w < N) by (unfold N; lia).
  (* the crop and the last reshape *)
  unfold get at 1. cbn [shape data].
  replace (ravel [n_time; n_batch; W * n_dim] [t; b; w * n_dim + d])
    with (ravel [n_time; n_batch; W; n_dim] [t; b; w; d])
    by (cbn [ravel size fold_right]; ring).
  rewrite nth_firstn.
  assert (Hlt : ravel [n_time; n_batch; W; n_dim] [t; b; w; d]
                < n_time * size [n_batch; W; n_dim]).
  { apply (ravel_lt [n_time; n_batch; W; n_dim]). repeat constructor; assumption. }
  apply Nat.ltb_lt in Hlt. rewrite Hlt. clear Hlt.
  change (ravel [n_time; n_batch; W; n_dim] [t; b; w; d])
    with (ravel [n_time + W; n_batch; W; n_dim] [t; b; w; d]).
  rewrite <- Hfs. change (nth (ravel (shape fd) [t; b; w; d]) (data fd) zero)
    with (get fd [t; b; w; d]).
  (* the second transposition *)
  rewrite Hfget by (rewrite Hfs; repeat constructor; lia).
  change (unpermute [1; 2; 0; 3] [t; b; w; d]) with [w; t; b; d].
  (* the shift by one time frame per replica *)
  unfold get at 1. cbn [shape data shift].
  replace (ravel [W; n_time + W; n_batch; n_dim] [w; t; b; d])
    with (ravel (shape tds) [w; t + w; b; d])
    by (rewrite Hds, HN1; cbn [ravel size fold_right]; ring).
  rewrite app_nth1
    by (rewrite Hdwf; apply ravel_lt; rewrite Hds; repeat constructor; lia).
  change (nth (ravel (shape tds) [w; t + w; b; d]) (data tds) zero)
    with (get tds [w; t + w; b; d]).
  (* the first transposition and the replication *)
  rewrite Hdget by (rewrite Hds; repeat constructor; lia).
  change (unpermute [2; 0; 1; 3] [w; t + w; b; d]) with [t + w; b; w; d].
  unfold get at 1. cbn [shape data tiled_reshape].
  replace (ravel [N; n_batch; W; n_dim] [t + w; b; w; d])
    with (ravel (shape tiled) [t + w; b; w * n_dim + d])
    by (rewrite Hts; cbn [ravel size fold_right]; ring).
  change (nth (ravel (shape tiled) [t + w; b; w * n_dim + d]) (data tiled) zero)
    with (get tiled [t + w; b; w * n_dim + d]).
  rewrite Htget by (rewrite Hts; repeat constructor; lia).
  unfold zip_with. cbn [shape padded combine map fst snd].
  rewrite (Nat.mod_small (t + w)), (Nat.mod_small b), mod_block by assumption.
  (* the zero padding on both sides *)
  unfold get, padded. cbn [shape data]. rewrite Hshape.
  assert (Hbd : b * n_dim + d < n_batch * n_dim) by nia.
  replace (ravel [N; n_batch; n_dim] [t + w; b; d])
    with ((t + w) * (n_batch * n_dim) + (b * n_dim + d))
    by (cbn [ravel size fold_right]; ring).
  assert (Hzl : length zl = w_left * (n_batch * n_dim)).
  { unfold zl. rewrite repeat_length, !size_cons. cbn [size fold_right]. ring. }
  assert (Hsrc : length (data source) = n_time * (n_batch * n_dim)).
  { rewrite Hwf, Hshape, !size_cons. cbn [size fold_right]. ring. }
  destruct (w_left <=? t + w) eqn:E1; cbn [andb].
  - apply Nat.leb_le in E1. destruct (t + w <? w_left + n_time) eqn:E2.
    + apply Nat.ltb_lt in E2.
      rewrite app_nth1 by (rewrite length_app, Hzl, Hsrc; nia).
      rewrite app_nth2 by (rewrite Hzl; nia).
      f_equal. rewrite Hzl. cbn [ravel size fold_right]. nia.
    + apply Nat.ltb_ge in E2.
      rewrite app_nth2 by (rewrite length_app, Hzl, Hsrc; nia).
      unfold zr. apply nth_repeat.
  - apply Nat.leb_gt in E1.
    rewrite app_nth1 by (rewrite length_app, Hzl; nia).
    rewrite app_nth1 by (rewrite Hzl; nia).
    unfold zl. apply nth_repeat.
Qed.
End Windowed.

(** Boolean comparisons in hypotheses, as propositions. *)
Ltac reflect_cmp :=
  repeat match goal with
    | E : (_ <=? _) = true |- _ => apply Nat.leb_le in E
    | E : (_ <=? _) = false |- _ => apply Nat.leb_gt in E
    | E : (_ <? _) = true |- _ => apply Nat.ltb_lt in E
    | E : (_ <? _) = false |- _ => apply Nat.ltb_ge in E
    | E : (_ =? _) = true |- _ => apply Nat.eqb_eq in E
    | E : (_ =? _) = false |- _ => apply Nat.eqb_neq in E
    | E : (_ <=? _)%Z = true |- _ => apply Z.leb_le in E
    | E : (_ <=? _)%Z = false |- _ => apply Z.leb_gt in E
    | E : (_ <? _)%Z = true |- _ => apply Z.ltb_lt in E
    | E : (_ <? _)%Z = false |- _ => apply Z.ltb_ge in E
    | E : (_ =? _)%Z = true |- _ => apply Z.eqb_eq in E
    | E : (_ =? _)%Z = false |- _ => apply Z.eqb_neq in E
    | E : (_ && _) = true |- _ => apply andb_prop in E; destruct E
    end.

Lemma length_flat_map_uniform {B : Type} (f : nat -> list B) (n sz : nat) :
  (forall j, j < n -> length (f j) = sz) ->
  length (flat_map f (seq 0 n)) = n * sz.
Proof.
  induction n as [|n IH]; intros Hf; [reflexivity|].
  rewrite seq_S, flat_map_app, length_app, IH by (intros; apply Hf; lia).
  cbn [flat_map]. rewrite app_nil_r, Hf by lia. cbn [Nat.add]. lia.
Qed.

Lemma nth_flat_map_uniform {B : Type} (f : nat -> list B) (n sz w d : nat) (x : B) :
  (forall j, j < n -> length (f j) = sz) -> w < n -> d < sz ->
  nth (w * sz + d) (flat_map f (seq 0 n)) x = nth d (f w) x.
Proof.
  induction n as [|n IH]; intros Hf Hw Hd; [lia|].
  rewrite seq_S, flat_map_app. cbn [Nat.add flat_map]. rewrite app_nil_r.
  assert (Hlen : length (flat_map f (seq 0 n)) = n * sz)
    by (apply length_flat_map_uniform; intros; apply Hf; lia).
  destruct (Nat.eq_dec w n) as [-> | Hne].
  - rewrite app_nth2 by (rewrite Hlen; lia). rewrite Hlen. f_equal. lia.
  - rewrite app_nth1 by (rewrite Hlen; nia). apply IH; (assumption || lia || (intros; apply Hf; lia)).
Qed.

Section WindowedRows.
Context {A : Type} `{Dtype A}.
Variables (source : ndarray A) (n_time n_batch n_dim : nat) (window : Z).
Hypothesis Hshape : shape source = [n_time; n_batch; n_dim].
Hypothesis Hwf : wf source.
Hypothesis Hwindow : (0 < window)%Z.

Lemma length_frame (s : Z) (b : nat) :
  b < n_batch -> length (frame source s b) = n_dim.
Proof.
  intros Hb. unfold frame, dim. rewrite Hshape. cbn [nth].
  destruct ((0 <=? s)%Z && (s <? Z.of_nat n_time)%Z) eqn:E.
  - apply andb_prop in E. destruct E as [E1 E2].
    apply Z.leb_le in E1. apply Z.ltb_lt in E2.
    apply length_row. rewrite Hwf, Hshape, !size_cons. cbn [size fold_right].
    assert (Hk : Z.to_nat s < n_time) by lia.
    assert (Hkb : Z.to_nat s * n_batch + b + 1 <= n_time * n_batch) by nia.
    rewrite Nat.mul_1_r, Nat.mul_assoc. apply Nat.mul_le_mono_r. exact Hkb.
  - apply repeat_length.
Qed.

Lemma nth_frame (s : Z) (b d : nat) :
  b < n_batch -> d < n_dim ->
  nth d (frame source s b) zero =
  if ((0 <=? s)%Z && (s <? Z.of_nat n_time)%Z)
  then get source [Z.to_nat s; b; d] else zero.
Proof.
  intros Hb Hd. unfold frame, dim. rewrite Hshape. cbn [nth].
  destruct ((0 <=? s)%Z && (s <? Z.of_nat n_time)%Z) eqn:E.
  - rewrite nth_row by assumption. unfold get. rewrite Hshape.
    f_equal. cbn [ravel size fold_right]. ring.
  - apply nth_repeat.
Qed.

Lemma windowed_batch_rows :
  exists out, windowed_batch source window = Ok out /\
    shape out = [n_time; n_batch; Z.to_nat window * n_dim] /\ wf out /\
    forall t b, t < n_time -> b < n_batch ->
      row (Z.to_nat window * n_dim) (t * n_batch + b) (data out) =
      window_at source window t b.
Proof.
  destruct (windowed_batch_get source n_time n_batch n_dim window Hshape Hwf Hwindow)
    as (out & E & Hs & Hwfo & Hget).
  exists out. split; [exact E|]. split; [exact Hs|]. split; [exact Hwfo|].
  intros t b Ht Hb.
  set (W := Z.to_nat window) in *.
  assert (Hlw : length (window_at source window t b) = W * n_dim).
  { unfold window_at. apply length_flat_map_uniform. intros; apply length_frame; assumption. }
  assert (Hlr : length (row (W * n_dim) (t * n_batch + b) (data out)) = W * n_dim).
  { apply length_row. rewrite Hwfo, Hs, !size_cons. cbn [size fold_right].
    assert (Htb : t * n_batch + b + 1 <= n_time * n_batch) by nia.
    replace (n_time * (n_batch * (W * n_dim * 1)))
      with (n_time * n_batch * (W * n_dim)) by ring.
    apply Nat.mul_le_mono_r. exact Htb. }
  apply (nth_ext _ _ zero zero); [congruence|].
  intros c Hc. rewrite Hlr in Hc.
  assert (Hd0 : n_dim <> 0) by (intros E0; rewrite E0 in Hc; lia).
  rewrite nth_row by assumption.
  pose proof (Nat.div_mod_eq c n_dim) as Hdm.
  pose proof (Nat.mod_upper_bound c n_dim Hd0) as Hm.
  assert (Hq : c / n_dim < W) by (apply Nat.Div0.div_lt_upper_bound; lia).
  set (w := c / n_dim) in *. set (d := c mod n_dim) in *.
  replace c with (w * n_dim + d) by lia.
  unfold window_at.
  rewrite (nth_flat_map_uniform _ W n_dim w d)
    by (assumption || (intros; apply length_frame; assumption)).
  rewrite nth_frame by assumption.
  replace ((t * n_batch + b) * (W * n_dim) + (w * n_dim + d))
    with (ravel (shape out) [t; b; w * n_dim + d])
    by (rewrite Hs; cbn [ravel size fold_right]; ring).
  change (nth (ravel (shape out) [t; b; w * n_dim + d]) (data out) zero)
    with (get out [t; b; w * n_dim + d]).
  rewrite Hget by assumption.
  pose proof (Z.div_pos window 2 ltac:(lia) ltac:(lia)).
  assert (window / 2 < window)%Z by (apply Z.div_lt; lia).
  destruct (Z.to_nat (window - window / 2 - 1) <=? t + w) eqn:E1;
    destruct (t + w <? Z.to_nat (window - window / 2 - 1) + n_time) eqn:E2;
    destruct (0 <=? Z.of_nat t - (window - window / 2 - 1) + Z.of_nat w)%Z eqn:E3;
    destruct (Z.of_nat t - (window - window / 2 - 1) + Z.of_nat w <? Z.of_nat n_time)%Z eqn:E4;
    cbn [andb]; try reflexivity; reflect_cmp; try lia.
  do 2 f_equal. lia.
Qed.
End WindowedRows.

(** C1. Windowed batch: on a (time, batch, dim) array and a positive window
    W the result has shape (time, batch, W*dim), and its vector at time
    step t and batch entry b is the concatenation of the input's
    dim-vectors at time steps t - w_left .. t + w_right (w_right = W / 2,
    w_left = W - w_right - 1), zero vectors standing for time steps
    outside [0, time).  On [1,2,3,4] with W = 3, the window of t = 0 is
    [0,1,2] and that of t = 3 is [3,4,0]. *)
Theorem windowed_batch_correct {A : Type} `{Dtype A}
  (source : ndarray A) (n_time n_batch n_dim : nat) (window : Z) :
  shape source = [n_time; n_batch; n_dim] -> wf source -> (0 < window)%Z ->
  (exists out, windowed_batch source window = Ok out /\
     shape out = [n_time; n_batch; Z.to_nat window * n_dim] /\ wf out /\
     forall t b, t < n_time -> b < n_batch ->
       row (Z.to_nat window * n_dim) (t * n_batch + b) (data out) =
       window_at source window t b) /\
  (exists out,
     windowed_batch {| shape := [4; 1; 1]; data := [1; 2; 3; 4]%Z |} 3 = Ok out /\
     shape out = [4; 1; 3] /\
     row 3 0 (data out) = [0; 1; 2]%Z /\ row 3 3 (data out) = [3; 4; 0]%Z).
Proof.
  intros Hs Hwf Hw. split.
  - apply windowed_batch_rows; assumption.
  - eexists. split; [vm_compute; reflexivity|]. repeat split.
Qed.

Lemma windowed_batch_correct_witness :
  exists out,
    windowed_batch {| shape := [3; 2; 2];
                      data := [1; 2; 3; 4; 5; 6; 7; 8; 9; 10; 11; 12]%Z |} 4 = Ok out /\
    shape out = [3; 2; 8] /\
    row 8 (0 * 2 + 1) (data out) = [0; 0; 3; 4; 7; 8; 11; 12]%Z.
Proof.
  destruct (windowed_batch_correct
              {| shape := [3; 2; 2];
                 data := [1; 2; 3; 4; 5; 6; 7; 8; 9; 10; 11; 12]%Z |} 3 2 2 4
              eq_refl eq_refl eq_refl) as [(out & E & Hs & _ & Hrow) _].
  exists out. split; [exact E|]. split; [exact Hs|].
  change (row 8 (0 * 2 + 1) (data out)) with (row (Z.to_nat 4 * 2) (0 * 2 + 1) (data out)).
  rewrite (Hrow 0 1) by lia. reflexivity.
Defined.

(** ** Padding along the leading axis *)

Lemma cast_int32_id (z : Z) :
  (- 2 ^ 31 <= z < 2 ^ 31)%Z -> T.cast_int32 z = z.
Proof. intros Hz. unfold T.cast_int32. rewrite Z.mod_small; lia. Qed.

Lemma concat_repeat_zero {A : Type} (x : A) (k sz : nat) :
  concat (repeat (repeat x sz) k) = repeat x (k * sz).
Proof.
  induction k as [|k IH]; [reflexivity|].
  cbn [repeat concat Nat.mul]. rewrite IH, repeat_app. reflexivity.
Qed.

Lemma length_concat_repeat {A : Type} (l : list A) (k : nat) :
  length (concat (repeat l k)) = k * length l.
Proof.
  induction k as [|k IH]; [reflexivity|].
  cbn [repeat concat Nat.mul]. rewrite length_app, IH. reflexivity.
Qed.

Lemma shape_tail_of_nat {A : Type} (x : ndarray A) (n : nat) (rest : list nat) :
  shape x = n :: rest ->
  map (fun i => shp x (i + 1)) (seq 0 (ndim x - 1)) = map Z.of_nat rest.
Proof.
  intros Hs. unfold shp, dim, ndim. rewrite Hs. cbn [length].
  replace (S (length rest) - 1) with (length rest) by lia.
  transitivity (map Z.of_nat (map (fun j => nth j rest 0) (seq 0 (length rest)))).
  - rewrite map_map. apply map_ext. intros i. rewrite Nat.add_1_r. reflexivity.
  - rewrite map_nth_seq. reflexivity.
Qed.

Section PadLeading.
Context {A : Type} `{Dtype A}.
Variables (source : ndarray A) (n : nat) (rest : list nat).
Hypothesis Hshape : shape source = n :: rest.
Hypothesis Hwf : wf source.

Lemma pad_value_default :
  T.zeros (map (fun i => if negb (i =? 0) then shp source i else 1%Z)
             (seq 0 (ndim source)))
  = Ok {| shape := 1 :: rest; data := repeat zero (size rest) |}.
Proof.
  assert (E : map (fun i => if negb (i =? 0) then shp source i else 1%Z)
                (seq 0 (ndim source)) = map Z.of_nat (1 :: rest)).
  { unfold ndim. rewrite Hshape. cbn [length seq map Nat.eqb negb]. f_equal.
    rewrite <- seq_shift, map_map.
    rewrite <- (shape_tail_of_nat source n rest Hshape).
    unfold ndim. rewrite Hshape. cbn [length].
    replace (S (length rest) - 1) with (length rest) by lia.
    apply map_ext. intros i. rewrite Nat.add_1_r. reflexivity. }
  rewrite E, zeros_ok. rewrite size_cons, Nat.mul_1_l. reflexivity.
Qed.

(** With a one-row padding value: the source cut to the target length,
    followed by as many copies of the padding row as are missing. *)
Lemma pad_leading_value (pad_value : ndarray A) (target_axis_len : Z) :
  shape pad_value = 1 :: rest -> wf pad_value ->
  (0 <= target_axis_len < 2 ^ 31)%Z ->
  pad source 0 target_axis_len (Some pad_value) =
  Ok {| shape := Z.to_nat target_axis_len :: rest;
        data := firstn (Z.to_nat target_axis_len * size rest) (data source)
                ++ concat (repeat (data pad_value) (Z.to_nat target_axis_len - n)) |}.
Proof.
  intros Hps Hpwf Ht. unfold pad. cbn [bind].
  unfold shape_at. rewrite Hshape. cbn [nth_error bind].
  rewrite cast_int32_id by lia. unfold T.maximum.
  set (m := Z.max (target_axis_len - Z.of_nat n) 1).
  unfold T.repeat. destruct (m <? 0)%Z eqn:Em; [apply Z.ltb_lt in Em; lia|].
  unfold ndim, dim. rewrite Hps. cbn [length Nat.ltb Nat.leb negb nth seq flat_map].
  rewrite app_nil_r. rewrite (take_axis0 pad_value 1 rest) by assumption.
  rewrite repeat_length. cbn [bind T.concatenate fold_left].
  assert (Hpd : length (data pad_value) = size rest).
  { unfold wf in Hpwf. rewrite Hpwf, Hps, size_cons. lia. }
  assert (Hrow : flat_map (fun j => row (size rest) j (data pad_value)) (repeat 0 (Z.to_nat m))
                 = concat (repeat (data pad_value) (Z.to_nat m))).
  { rewrite flat_map_concat_map, map_repeat. unfold row. cbn [Nat.mul skipn].
    rewrite firstn_all2 by lia. reflexivity. }
  rewrite Hrow.
  rewrite (join0_ok source _ n (Z.to_nat m) rest);
    [ | assumption | reflexivity | assumption | ].
  2:{ unfold wf. cbn [shape data]. rewrite length_concat_repeat, size_cons, Hpd. reflexivity. }
  cbn [bind]. change (slice_for_axis 0 ?s) with [s].
  rewrite (getitem_upto _ (n + Z.to_nat m) rest (Some 0%Z) target_axis_len);
    [ | reflexivity | | right; reflexivity | lia ].
  2:{ unfold wf in *. cbn [shape data].
      rewrite length_app, length_concat_repeat, Hwf, Hshape, !size_cons, Hpd. ring. }
  cbn [data].
  replace (Nat.min (Z.to_nat target_axis_len) (n + Z.to_nat m))
    with (Z.to_nat target_axis_len) by lia.
  f_equal. f_equal.
  assert (Hd : length (data source) = n * size rest).
  { unfold wf in Hwf. rewrite Hwf, Hshape, size_cons. reflexivity. }
  rewrite firstn_app, Hd. f_equal.
  destruct (Z_le_gt_dec target_axis_len (Z.of_nat n)) as [Hle | Hgt].
  - replace (Z.to_nat target_axis_len - n) with 0 by lia.
    replace (Z.to_nat target_axis_len * size rest - n * size rest) with 0 by nia.
    reflexivity.
  - replace (Z.to_nat m) with (Z.to_nat target_axis_len - n) by lia.
    apply firstn_all2. rewrite length_concat_repeat, Hpd. nia.
Qed.

(** With the default padding value: zeros. *)
Lemma pad_leading_zeros (target_axis_len : Z) :
  (0 <= target_axis_len < 2 ^ 31)%Z ->
  pad source 0 target_axis_len None =
  Ok {| shape := Z.to_nat target_axis_len :: rest;
        data := firstn (Z.to_nat target_axis_len * size rest) (data source)
                ++ repeat zero ((Z.to_nat target_axis_len - n) * size rest) |}.
Proof.
  intros Ht.
  assert (E : pad source 0 target_axis_len None =
              pad source 0 target_axis_len
                (Some {| shape := 1 :: rest; data := repeat zero (size rest) |})).
  { unfold pad. rewrite pad_value_default. reflexivity. }
  rewrite E, pad_leading_value;
    [ | reflexivity | unfold wf; cbn [shape data]; rewrite repeat_length, size_cons; lia | assumption ].
  cbn [data]. rewrite concat_repeat_zero. reflexivity.
Qed.
End PadLeading.

(** ** Chunks of chunks *)

Lemma chunks_add {B : Type} (a b sz : nat) (l : list B) :
  chunks (a + b) sz l = chunks a sz l ++ chunks b sz (skipn (a * sz) l).
Proof.
  revert l. induction a as [|a IH]; intros l; [reflexivity|].
  cbn [Nat.add chunks app Nat.mul]. rewrite IH, skipn_skipn.
  replace (a * sz + sz) with (sz + a * sz) by lia. reflexivity.
Qed.

Lemma chunks_firstn {B : Type} (cnt sz m : nat) (l : list B) :
  cnt * sz <= m -> chunks cnt sz (firstn m l) = chunks cnt sz l.
Proof.
  revert m l. induction cnt as [|c IH]; intros m l Hm; [reflexivity|].
  cbn [chunks]. cbn [Nat.mul] in Hm. rewrite firstn_firstn, Nat.min_l by lia.
  rewrite skipn_firstn_comm, IH by lia. reflexivity.
Qed.

Lemma chunks_concat {B : Type} (sz : nat) (L : list (list B)) :
  Forall (fun c => length c = sz) L -> chunks (length L) sz (concat L) = L.
Proof.
  induction 1 as [|x L Hx HL IH]; [reflexivity|].
  cbn [length chunks concat].
  rewrite firstn_app, Hx, Nat.sub_diag, firstn_O, app_nil_r.
  rewrite firstn_all2 by lia.
  rewrite skipn_app, Hx, Nat.sub_diag, skipn_O.
  rewrite skipn_all2 by lia. cbn [app]. rewrite IH. reflexivity.
Qed.

Lemma chunks_prefix {B : Type} (n m sz : nat) (l : list B) :
  n <= m -> chunks n sz l = firstn n (chunks m sz l).
Proof.
  intros Hnm. replace m with (n + (m - n)) by lia.
  rewrite chunks_add, firstn_app, length_chunks, Nat.sub_diag, firstn_O, app_nil_r.
  rewrite firstn_all2 by (rewrite length_chunks; lia). reflexivity.
Qed.

Lemma chunks_repeat {B : Type} (x : B) (k sz : nat) :
  chunks k sz (repeat x (k * sz)) = repeat (repeat x sz) k.
Proof.
  induction k as [|k IH]; [reflexivity|].
  cbn [chunks repeat Nat.mul]. rewrite repeat_app.
  rewrite firstn_app, repeat_length, Nat.sub_diag, firstn_O, app_nil_r.
  rewrite firstn_all2 by (rewrite repeat_length; lia).
  rewrite skipn_app, repeat_length, Nat.sub_diag, skipn_O.
  rewrite skipn_all2 by (rewrite repeat_length; lia). cbn [app].
  rewrite IH. reflexivity.
Qed.

Lemma chunks_padded {B : Type} (x : B) (n k sz : nat) (l : list B) :
  length l = n * sz ->
  chunks (n + k) sz (l ++ repeat x (k * sz)) = chunks n sz l ++ repeat (repeat x sz) k.
Proof.
  intros Hl. rewrite chunks_add. f_equal.
  - rewrite <- (chunks_firstn n sz (n * sz)) by lia.
    rewrite firstn_app, Hl, Nat.sub_diag, firstn_O, app_nil_r.
    rewrite firstn_all2 by lia. reflexivity.
  - rewrite skipn_app, Hl, Nat.sub_diag, skipn_O.
    rewrite skipn_all2 by lia. cbn [app]. apply chunks_repeat.
Qed.

Lemma chunks_nested {B : Type} (nc c sz : nat) (l : list B) :
  chunks nc c (chunks (nc * c) sz l) = map (chunks c sz) (chunks nc (c * sz) l).
Proof.
  revert l. induction nc as [|nc IH]; intros l; [reflexivity|].
  cbn [Nat.mul chunks map]. rewrite chunks_add.
  rewrite firstn_app, length_chunks, Nat.sub_diag, firstn_O, app_nil_r.
  rewrite firstn_all2 by (rewrite length_chunks; lia).
  rewrite skipn_app, length_chunks, Nat.sub_diag, skipn_O.
  rewrite skipn_all2 by (rewrite length_chunks; lia). cbn [app].
  rewrite IH, chunks_firstn by lia. reflexivity.
Qed.

Lemma concat_concat_map {B C : Type} (g : C -> list (list B)) (l : list C) :
  concat (map (fun x => concat (g x)) l) = concat (concat (map g l)).
Proof.
  induction l as [|x l IH]; [reflexivity|].
  cbn [map concat]. rewrite concat_app, IH. reflexivity.
Qed.

Lemma Forall_chunks {B : Type} (Q : B -> Prop) (cnt sz : nat) (l : list B) :
  Forall Q l -> Forall (Forall Q) (chunks cnt sz l).
Proof.
  intros HQ. rewrite chunks_as_rows. apply Forall_forall. intros ch Hch.
  apply in_map_iff in Hch. destruct Hch as [j [<- _]].
  rewrite Forall_forall in *. intros x Hx. apply HQ. unfold row in Hx.
  apply (In_nth _ _ x) in Hx. destruct Hx as [i [Hi <-]].
  rewrite nth_firstn. rewrite length_firstn in Hi.
  destruct (i <? sz) eqn:E; [|apply Nat.ltb_ge in E; lia].
  rewrite nth_skipn. apply nth_In. rewrite length_skipn in Hi. lia.
Qed.

Lemma length_concat_uniform {B : Type} (sz : nat) (L : list (list B)) :
  Forall (fun c => length c = sz) L -> length (concat L) = length L * sz.
Proof.
  induction 1 as [|x L Hx HL IH]; [reflexivity|].
  cbn [concat length Nat.mul]. rewrite length_app, Hx, IH. reflexivity.
Qed.

(** ** Chunked time reversal *)

Lemma next_multiple_ge (n c : nat) : 0 < c -> n <= next_multiple n c.
Proof.
  intros Hc. unfold next_multiple.
  pose proof (Nat.div_mod_eq (n + c - 1) c) as E.
  pose proof (Nat.mod_upper_bound (n + c - 1) c ltac:(lia)). nia.
Qed.

Lemma next_multiple_div (n c : nat) : 0 < c -> next_multiple n c / c = (n + c - 1) / c.
Proof. intros Hc. unfold next_multiple. apply Nat.div_mul. lia. Qed.

Section ChunkedReverse.
Context {A : Type} `{Dtype A}.
Variables (source : ndarray A) (n : nat) (rest : list nat) (chunk_size : Z).
Hypothesis Hshape : shape source = n :: rest.
Hypothesis Hwf : wf source.
Hypothesis Hchunk : (0 < chunk_size < 2 ^ 31)%Z.
Hypothesis Hneeded : (Z.of_nat (next_multiple n (Z.to_nat chunk_size)) < 2 ^ 31)%Z.

Lemma chunked_time_reverse_rows :
  exists out, chunked_time_reverse source chunk_size = Ok out /\
    shape out = shape source /\ wf out /\
    time_rows out =
    chunked_reverse_rows (Z.to_nat chunk_size) (repeat zero (size rest))
      (time_rows source).
Proof.
  set (c := Z.to_nat chunk_size) in *.
  set (nc := (n + c - 1) / c).
  assert (Hc : 0 < c) by (unfold c; lia).
  assert (Hnm : next_multiple n c = nc * c) by reflexivity.
  pose proof (next_multiple_ge n c Hc) as Hge.
  assert (Hd : length (data source) = n * size rest).
  { unfold wf in Hwf. rewrite Hwf, Hshape, size_cons. reflexivity. }
  unfold chunked_time_reverse. rewrite cast_int32_id by lia.
  unfold shape_at. rewrite Hshape. cbn [nth_error bind].
  unfold int_div. destruct (chunk_size =? 0)%Z eqn:E0; [apply Z.eqb_eq in E0; lia|].
  cbn [bind].
  assert (Hnc : ((Z.of_nat n + chunk_size - 1) / chunk_size)%Z = Z.of_nat nc).
  { unfold nc. rewrite Nat2Z.inj_div. f_equal; unfold c; lia. }
  rewrite Hnc.
  replace (Z.of_nat nc * chunk_size)%Z with (Z.of_nat (nc * c)) by (unfold c; lia).
  rewrite (shape_tail_of_nat source n rest Hshape).
  rewrite (pad_leading_zeros source n rest Hshape Hwf) by lia.
  cbn [bind]. rewrite Nat2Z.id.
  rewrite (firstn_all2 (n := nc * c * size rest)) by (rewrite Hd; nia).
  replace chunk_size with (Z.of_nat c) by (unfold c; lia).
  change ([Z.of_nat nc; Z.of_nat c] ++ map Z.of_nat rest)
    with (map Z.of_nat (nc :: c :: rest)).
  rewrite reshape_ok by (cbn [shape]; rewrite !size_cons; ring).
  cbn [bind data].
  set (P := data source ++ repeat zero ((nc * c - n) * size rest)).
  assert (HP : length P = nc * (c * size rest)).
  { unfold P. rewrite length_app, repeat_length, Hd. nia. }
  change [slice_all; Slice None None (Some (-1)%Z)]
    with (repeat slice_all 1 ++ [Slice None None (Some (-1)%Z)]).
  rewrite getitem_axis;
    [ | unfold ndim; cbn [shape length]; lia
      | unfold wf; cbn [shape data]; rewrite HP, !size_cons; ring ].
  unfold dim at 1. cbn [shape nth]. rewrite slice_indices_reversed. cbn [bind].
  unfold take_axis, dim, outer, inner, set_at.
  cbn [shape data nth firstn skipn app]. rewrite length_rev, length_seq.
  replace (size [nc]) with nc by (cbn [size fold_right]; lia).
  change (Z.of_nat (nc * c) :: map Z.of_nat rest) with (map Z.of_nat (nc * c :: rest)).
  rewrite reshape_ok by (cbn [shape]; rewrite !size_cons; ring).
  cbn [bind data].
  set (X := flat_map (fun blk => flat_map (fun j => row (size rest) j blk) (rev (seq 0 c)))
              (chunks nc (c * size rest) P)).
  set (L := concat (map (@rev (list A)) (chunks nc c (chunks (nc * c) (size rest) P)))).
  assert (HX : X = concat L).
  { unfold X, L. rewrite flat_map_concat_map, chunks_nested, map_map.
    rewrite <- concat_concat_map. f_equal. apply map_ext.
    intros blk. apply flat_map_rows_rev. }
  assert (HLall : Forall (fun r => length r = size rest) L).
  { unfold L. apply Forall_concat. apply Forall_forall. intros ch Hch.
    apply in_map_iff in Hch. destruct Hch as [ch' [<- Hch']].
    apply Forall_rev. revert ch' Hch'. apply Forall_forall.
    apply Forall_chunks. apply chunks_length_each. rewrite HP. nia. }
  assert (HLlen : length L = nc * c).
  { unfold L. rewrite (length_concat_uniform c).
    - rewrite length_map, length_chunks. reflexivity.
    - apply Forall_forall. intros ch Hch.
      apply in_map_iff in Hch. destruct Hch as [ch' [<- Hch']].
      rewrite length_rev. revert ch' Hch'. apply Forall_forall.
      apply chunks_length_each. rewrite length_chunks. lia. }
  assert (HXlen : length X = nc * c * size rest).
  { rewrite HX, (length_concat_uniform (size rest)) by assumption. rewrite HLlen. reflexivity. }
  rewrite (getitem_upto _ (nc * c) rest None (Z.of_nat n));
    [ | reflexivity | unfold wf; cbn [shape data]; rewrite HXlen, size_cons; reflexivity
      | left; reflexivity | lia ].
  rewrite Nat2Z.id. cbn [data]. replace (Nat.min n (nc * c)) with n by lia.
  eexists. split; [reflexivity|]. cbn [shape]. split; [reflexivity|]. split.
  { unfold wf. cbn [shape data]. rewrite length_firstn, HXlen, size_cons. nia. }
  unfold time_rows, dim, inner. rewrite Hshape. cbn [shape data nth skipn].
  rewrite chunks_firstn by lia. rewrite HX.
  rewrite (chunks_prefix n (length L)) by lia.
  rewrite chunks_concat by assumption.
  unfold chunked_reverse_rows. rewrite length_chunks.
  rewrite next_multiple_div by assumption. fold nc. rewrite Hnm.
  rewrite <- (chunks_padded zero n (nc * c - n) (size rest)) by assumption.
  replace (n + (nc * c - n)) with (nc * c) by lia. reflexivity.
Qed.
End ChunkedReverse.

(** C3 (as amended). Chunked time reversal: for a chunk size C with
    0 < C < 2^31 whose padded time length (the next multiple of C) is below
    2^31, the result has the shape of the source and its time steps are
    those of the source padded with zero rows up to the next multiple of C,
    reversed within every chunk of C, and cut back to the original length.
    [0,1,2,3,4,5,6] with C = 3 gives [2,1,0,5,4,3,0]. *)
Theorem chunked_time_reverse_correct {A : Type} `{Dtype A}
  (source : ndarray A) (n : nat) (rest : list nat) (chunk_size : Z) :
  shape source = n :: rest -> wf source ->
  (0 < chunk_size < 2 ^ 31)%Z ->
  (Z.of_nat (next_multiple n (Z.to_nat chunk_size)) < 2 ^ 31)%Z ->
  (exists out, chunked_time_reverse source chunk_size = Ok out /\
     shape out = shape source /\ wf out /\
     time_rows out =
     chunked_reverse_rows (Z.to_nat chunk_size) (repeat zero (size rest))
       (time_rows source)) /\
  chunked_time_reverse {| shape := [7]; data := [0; 1; 2; 3; 4; 5; 6]%Z |} 3 =
  Ok {| shape := [7]; data := [2; 1; 0; 5; 4; 3; 0]%Z |}.
Proof.
  intros Hs Hwf Hc Hn. split.
  - apply (chunked_time_reverse_rows source n rest chunk_size); assumption.
  - vm_compute. reflexivity.
Qed.

Lemma chunked_time_reverse_correct_witness :
  exists out,
    chunked_time_reverse {| shape := [5; 2]; data := [1; 2; 3; 4; 5; 6; 7; 8; 9; 10]%Z |} 2
    = Ok out /\
    shape out = [5; 2] /\
    time_rows out = [[3; 4]; [1; 2]; [7; 8]; [5; 6]; [0; 0]]%Z.
Proof.
  destruct (chunked_time_reverse_correct
              {| shape := [5; 2]; data := [1; 2; 3; 4; 5; 6; 7; 8; 9; 10]%Z |}
              5 [2] 2 eq_refl eq_refl ltac:(lia) ltac:(vm_compute; reflexivity))
    as [(out & E & Hs & _ & Hrows) _].
  exists out. split; [exact E|]. split; [exact Hs|].
  rewrite Hrows. reflexivity.
Defined.

(** C3 as stated fails: the chunk size is cast to int32, so the positive
    chunk size 2^31 wraps to -2^31.  On a one-element array the padded
    length is then -2^31 as well, the padding step cuts everything away,
    and the result is an empty array of shape (0,) instead of an array of
    the source's shape (1,). *)
Lemma chunked_time_reverse_int32_counterexample :
  wf {| shape := [1]; data := [7%Z] |} /\ (0 < 2 ^ 31)%Z /\
  chunked_time_reverse {| shape := [1]; data := [7%Z] |} (2 ^ 31)
  = Ok {| shape := [0]; data := [] |} /\
  ~ (exists out, chunked_time_reverse {| shape := [1]; data := [7%Z] |} (2 ^ 31) = Ok out /\
                 shape out = shape {| shape := [1]; data := [7%Z] |}).
Proof.
  assert (E : chunked_time_reverse {| shape := [1]; data := [7%Z] |} (2 ^ 31)
              = Ok {| shape := [0]; data := [] |}) by (vm_compute; reflexivity).
  split; [reflexivity|]. split; [reflexivity|]. split; [exact E|].
  intros (out & Eo & Hs). rewrite E in Eo. injection Eo as <-.
  cbn [shape] in Hs. discriminate.
Qed.

(** C9. Chunked time reversal is not an involution: on an array whose time
    length is not a multiple of the chunk size, applying it twice can
    differ from the array. *)
Theorem chunked_time_reverse_not_involutive :
  exists (source once twice : ndarray Z) (chunk_size : Z),
    wf source /\ (0 < chunk_size)%Z /\
    dim source 0 mod Z.to_nat chunk_size <> 0 /\
    chunked_time_reverse source chunk_size = Ok once /\
    chunked_time_reverse once chunk_size = Ok twice /\
    twice <> source.
Proof.
  exists {| shape := [7]; data := [0; 1; 2; 3; 4; 5; 6]%Z |},
         {| shape := [7]; data := [2; 1; 0; 5; 4; 3; 0]%Z |},
         {| shape := [7]; data := [0; 1; 2; 3; 4; 5; 0]%Z |}, 3%Z.
  split; [reflexivity|]. split; [reflexivity|]. split; [vm_compute; discriminate|].
  split; [vm_compute; reflexivity|]. split; [vm_compute; reflexivity|].
  discriminate.
Qed.

(** ** Flattening the two leading dimensions *)

Lemma shape_from_of_nat {A : Type} (x : ndarray A) (a b : nat) (rest : list nat) :
  shape x = a :: b :: rest ->
  map (fun i => shp x i) (seq 2 (ndim x - 2)) = map Z.of_nat rest.
Proof.
  intros Hs. unfold shp, dim, ndim. rewrite Hs. cbn [length].
  replace (S (S (length rest)) - 2) with (length rest) by lia.
  transitivity (map Z.of_nat (map (fun j => nth j rest 0) (seq 0 (length rest)))).
  - rewrite <- seq_shift, <- seq_shift, !map_map. apply map_ext. reflexivity.
  - rewrite map_nth_seq. reflexivity.
Qed.

(** C6. Flattening the leading dimensions: an array of shape (T, B, ...)
    becomes one of shape (T*B, ...) with the same trailing dimensions, whose
    element at (i*B + j, ...) is the source's element at (i, j, ...);
    reshaping it back to (T, B, ...) gives the source; and the call fails
    on an array of fewer than two dimensions. *)
Theorem time_batch_make_flat_correct {A : Type} `{Dtype A} (val : ndarray A) :
  (forall n_time n_batch rest,
     shape val = n_time :: n_batch :: rest -> wf val ->
     exists flat,
       time_batch_make_flat val = Ok flat /\
       shape flat = n_time * n_batch :: rest /\ wf flat /\
       (forall i j idx, j < n_batch ->
          get flat ((i * n_batch + j) :: idx) = get val (i :: j :: idx)) /\
       T.reshape flat (map Z.of_nat (shape val)) = Ok val) /\
  (ndim val < 2 -> time_batch_make_flat val = Err (AssertionError "")).
Proof.
  split.
  - intros n_time n_batch rest Hs Hwf. unfold time_batch_make_flat.
    assert (Hnd : (1 <? ndim val) = true)
      by (apply Nat.ltb_lt; unfold ndim; rewrite Hs; cbn [length]; lia).
    rewrite Hnd. cbn [assert bind].
    rewrite (shape_from_of_nat val n_time n_batch rest Hs).
    unfold shp, dim. rewrite Hs. cbn [nth app].
    rewrite <- Nat2Z.inj_mul.
    change (Z.of_nat (n_time * n_batch) :: map Z.of_nat rest)
      with (map Z.of_nat (n_time * n_batch :: rest)).
    rewrite reshape_ok by (rewrite Hs, !size_cons; ring).
    eexists. split; [reflexivity|]. cbn [shape]. split; [reflexivity|]. split.
    { unfold wf in *. cbn [shape data]. rewrite Hwf, Hs, !size_cons. ring. }
    split.
    + intros i j idx Hj. unfold get. cbn [shape data]. rewrite Hs. f_equal.
      destruct idx; cbn [ravel]; rewrite ?size_cons; ring.
    + rewrite reshape_ok by (cbn [shape]; rewrite !size_cons; ring).
      destruct val as [s d]. cbn [shape data] in *. rewrite Hs. reflexivity.
  - intros Hnd. unfold time_batch_make_flat.
    assert (E : (1 <? ndim val) = false) by (apply Nat.ltb_ge; lia).
    rewrite E. reflexivity.
Qed.

Lemma time_batch_make_flat_correct_witness :
  (exists flat,
     time_batch_make_flat {| shape := [2; 3; 2];
                             data := [1; 2; 3; 4; 5; 6; 7; 8; 9; 10; 11; 12]%Z |} = Ok flat /\
     shape flat = [6; 2] /\
     get flat [1 * 3 + 2; 1] = 12%Z) /\
  time_batch_make_flat {| shape := [5]; data := [1; 2; 3; 4; 5]%Z |}
  = Err (AssertionError "").
Proof.
  destruct (time_batch_make_flat_correct
              {| shape := [2; 3; 2];
                 data := [1; 2; 3; 4; 5; 6; 7; 8; 9; 10; 11; 12]%Z |}) as [Hflat _].
  destruct (Hflat 2 3 [2] eq_refl eq_refl) as (flat & E & Hs & _ & Hget & _).
  split.
  - exists flat. split; [exact E|]. split; [exact Hs|].
    rewrite (Hget 1 2 [1]) by lia. reflexivity.
  - apply (time_batch_make_flat_correct {| shape := [5]; data := [1; 2; 3; 4; 5]%Z |}).
    cbn. lia.
Defined.

(** ** The gradient-discard operator *)

Lemma Qltb_lt (x y : Q) : Qltb x y = true <-> (x < y)%Q.
Proof. unfold Qltb, Qlt. apply Z.ltb_lt. Qed.

Lemma Qltb_ge (x y : Q) : Qltb x y = false <-> (y <= x)%Q.
Proof. unfold Qltb, Qle. apply Z.ltb_ge. Qed.

Lemma grad_data (self : GradDiscardOutOfBound) (g_out : ndarray Q) :
  data (T.switch (T.or_ (T.lt g_out (lower_bound self)) (T.gt g_out (upper_bound self)))
          zero g_out)
  = map (fun v => if Qltb v (lower_bound self) || Qltb (upper_bound self) v
                  then 0%Q else v) (data g_out).
Proof.
  unfold T.switch, T.or_, T.lt, T.gt, zip_with. cbn [data shape].
  induction (data g_out) as [|v l IH]; [reflexivity|].
  cbn [map combine fst snd]. rewrite IH. reflexivity.
Qed.

Lemma init_rejects_inverted_bounds (lower upper : Q) :
  (upper < lower)%Q -> GradDiscardOutOfBound_init lower upper = Err (AssertionError "").
Proof.
  intros Hlt.
  assert (E : Qle_bool lower upper = false).
  { destruct (Qle_bool lower upper) eqn:E; [|reflexivity].
    apply Qle_bool_iff in E. exfalso. apply (Qlt_not_le _ _ Hlt E). }
  unfold GradDiscardOutOfBound_init. cbn [lower_bound upper_bound]. rewrite E. reflexivity.
Qed.

Lemma init_accepts_ordered_bounds (lower upper : Q) :
  (lower <= upper)%Q ->
  GradDiscardOutOfBound_init lower upper = Ok (mk_GradDiscardOutOfBound lower upper).
Proof.
  intros Hle. unfold GradDiscardOutOfBound_init. cbn [lower_bound upper_bound].
  apply Qle_bool_iff in Hle. rewrite Hle. reflexivity.
Qed.

Lemma grad_filters (self : GradDiscardOutOfBound) (args g_outs : list (ndarray Q)) :
  Forall2 (fun g_out g =>
             shape g = shape g_out /\
             Forall2 (fun v v' =>
                        ((v < lower_bound self)%Q \/ (upper_bound self < v)%Q -> v' = 0%Q) /\
                        ((lower_bound self <= v)%Q /\ (v <= upper_bound self)%Q -> v' = v))
               (data g_out) (data g))
    g_outs (GradDiscardOutOfBound_grad self args g_outs).
Proof.
  unfold GradDiscardOutOfBound_grad.
  induction g_outs as [|g_out l IH]; [constructor|].
  cbn [map]. constructor; [|exact IH]. split; [reflexivity|].
  rewrite grad_data. induction (data g_out) as [|v d IHd]; [constructor|].
  cbn [map]. constructor; [|exact IHd]. split.
  - intros [Hlo | Hhi].
    + apply Qltb_lt in Hlo. rewrite Hlo. reflexivity.
    + apply Qltb_lt in Hhi. rewrite Hhi, orb_true_r. reflexivity.
  - intros [Hlo Hhi]. apply Qltb_ge in Hlo. apply Qltb_ge in Hhi.
    rewrite Hlo, Hhi. reflexivity.
Qed.

(** C4. Gradient discard: the forward pass returns its input (and the
    graph rewrite replaces the operator's output by that input).
    Constructing the operator with lower_bound <= upper_bound succeeds and
    the operator carries exactly these two bounds, so that its backward
    pass keeps the shape of the gradient and maps every value v to 0 when
    v < lower_bound or v > upper_bound, and to itself when
    lower_bound <= v <= upper_bound, for the bounds it was constructed
    with (and likewise for every operator and the bounds it holds).
    Constructing the operator with lower_bound > upper_bound fails. *)
Theorem grad_discard_correct :
  (forall self x,
     GradDiscardOutOfBound_perform self x = x /\
     _local_grad_discard (mk_apply_node (Some self) [x])
     = Some [GradDiscardOutOfBound_perform self x]) /\
  (forall lower upper x, (lower <= upper)%Q ->
     grad_discard_out_of_bound x lower upper = Ok x) /\
  (forall lower upper, (lower <= upper)%Q ->
     exists op,
       GradDiscardOutOfBound_init lower upper = Ok op /\
       lower_bound op = lower /\ upper_bound op = upper /\
       forall args g_outs,
         Forall2 (fun g_out g =>
                    shape g = shape g_out /\
                    Forall2 (fun v v' =>
                               ((v < lower)%Q \/ (upper < v)%Q -> v' = 0%Q) /\
                               ((lower <= v)%Q /\ (v <= upper)%Q -> v' = v))
                      (data g_out) (data g))
           g_outs (GradDiscardOutOfBound_grad op args g_outs)) /\
  (forall self args g_outs,
     Forall2 (fun g_out g =>
                shape g = shape g_out /\
                Forall2 (fun v v' =>
                           ((v < lower_bound self)%Q \/ (upper_bound self < v)%Q -> v' = 0%Q) /\
                           ((lower_bound self <= v)%Q /\ (v <= upper_bound self)%Q -> v' = v))
                  (data g_out) (data g))
       g_outs (GradDiscardOutOfBound_grad self args g_outs)) /\
  (forall lower upper, (upper < lower)%Q ->
     GradDiscardOutOfBound_init lower upper = Err (AssertionError "") /\
     forall x, grad_discard_out_of_bound x lower upper = Err (AssertionError "")).
Proof.
  split; [intros self x; split; reflexivity|]. split; [|split; [|split]].
  - intros lower upper x Hle. unfold grad_discard_out_of_bound.
    rewrite init_accepts_ordered_bounds by exact Hle. reflexivity.
  - intros lower upper Hle. exists (mk_GradDiscardOutOfBound lower upper).
    split; [apply init_accepts_ordered_bounds; exact Hle|].
    split; [reflexivity|]. split; [reflexivity|].
    intros args g_outs.
    apply (grad_filters (mk_GradDiscardOutOfBound lower upper)).
  - apply grad_filters.
  - intros lower upper Hlt. split; [apply init_rejects_inverted_bounds; exact Hlt|].
    intros x. unfold grad_discard_out_of_bound.
    rewrite init_rejects_inverted_bounds by exact Hlt. reflexivity.
Qed.

Lemma grad_discard_correct_witness :
  grad_discard_out_of_bound {| shape := [3]; data := [-5; 1 # 2; 7]%Q |} (-1) 1
  = Ok {| shape := [3]; data := [-5; 1 # 2; 7]%Q |} /\
  (exists op,
     GradDiscardOutOfBound_init (-1) 1 = Ok op /\
     lower_bound op = (-1)%Q /\ upper_bound op = 1%Q /\
     GradDiscardOutOfBound_grad op [] [{| shape := [3]; data := [-5; 1 # 2; 7]%Q |}]
     = [{| shape := [3]; data := [0; 1 # 2; 0]%Q |}]) /\
  GradDiscardOutOfBound_init 1 (-1) = Err (AssertionError "").
Proof.
  destruct grad_discard_correct as (_ & Hfwd & Hop & _ & Hinit).
  split; [apply Hfwd; vm_compute; discriminate|].
  split.
  - destruct (Hop (-1)%Q 1%Q ltac:(vm_compute; discriminate)) as (op & E & Hlo & Hhi & _).
    exists op. split; [exact E|]. split; [exact Hlo|]. split; [exact Hhi|].
    destruct op as [lo hi]. cbn [lower_bound upper_bound] in Hlo, Hhi. subst lo hi.
    reflexivity.
  - apply Hinit. reflexivity.
Defined.

(** ** Rejected arguments *)

Lemma not_integer_is_int (factor : Q) :
  (forall z : Z, ~ (factor == inject_Z z)%Q) -> is_int factor = false.
Proof.
  intros Hf. unfold is_int. destruct (Qeq_bool factor (inject_Z (int factor))) eqn:E.
  - apply Qeq_bool_iff in E. exfalso. exact (Hf _ E).
  - reflexivity.
Qed.

Lemma bind_err {A B : Type} (r : result A) (k : A -> result B) :
  (forall a, r = Ok a -> exists e, k a = Err e) -> exists e, bind r k = Err e.
Proof.
  intros Hk. destruct r as [a | e]; cbn [bind].
  - apply Hk. reflexivity.
  - exists e. reflexivity.
Qed.

(** C8. Invalid arguments are rejected by the call itself: downsample and
    upsample fail on a factor that is not an integer, downsample fails on a
    method other than average, max and min (with the unknown-method
    assertion whenever the same call with method average succeeds),
    upsample fails on a method other than nearest-neighbor, and
    constructing the gradient-discard operator fails when
    lower_bound > upper_bound.  The failure is the result of the call: no
    branch catches it or tries again. *)
Theorem invalid_arguments_rejected :
  (forall source axis factor method,
     (forall z : Z, ~ (factor == inject_Z z)%Q) ->
     downsample source axis factor method
     = Err (AssertionError "factor is expected to be an int")) /\
  (forall (source : ndarray Q) axis factor method target_axis_len,
     (forall z : Z, ~ (factor == inject_Z z)%Q) ->
     exists msg,
       upsample source axis factor method target_axis_len = Err (AssertionError msg)) /\
  (forall source axis factor method,
     method <> "average"%string -> method <> "max"%string -> method <> "min"%string ->
     (exists e, downsample source axis factor method = Err e) /\
     (forall r, downsample source axis factor "average" = Ok r ->
        downsample source axis factor method
        = Err (AssertionError "unknown downsample method"))) /\
  (forall (source : ndarray Q) axis factor method target_axis_len,
     method <> "nearest-neighbor"%string ->
     upsample source axis factor method target_axis_len
     = Err (AssertionError "unknown upsample method")) /\
  (forall lower upper x, (upper < lower)%Q ->
     GradDiscardOutOfBound_init lower upper = Err (AssertionError "") /\
     grad_discard_out_of_bound x lower upper = Err (AssertionError "")).
Proof.
  split; [|split; [|split; [|split]]].
  - intros source axis factor method Hf. unfold downsample.
    rewrite (not_integer_is_int factor Hf). reflexivity.
  - intros source axis factor method tl Hf. unfold upsample.
    destruct (String.eqb method "nearest-neighbor").
    + rewrite (not_integer_is_int factor Hf). eexists. reflexivity.
    + eexists. reflexivity.
  - intros source axis factor method Ha Hx Hn.
    apply String.eqb_neq in Ha, Hx, Hn. split.
    + unfold downsample. rewrite Ha, Hx, Hn.
      repeat (apply bind_err; intros ? _). eexists. reflexivity.
    + intros r. unfold downsample. rewrite Ha, Hx, Hn.
      repeat match goal with
             | |- bind ?c _ = Ok _ -> _ => destruct c; cbn [bind]; [|discriminate]
             end.
      reflexivity.
  - intros source axis factor method tl Hm. unfold upsample.
    apply String.eqb_neq in Hm. rewrite Hm. reflexivity.
  - intros lower upper x Hlt. split; [apply init_rejects_inverted_bounds; exact Hlt|].
    unfold grad_discard_out_of_bound.
    rewrite init_rejects_inverted_bounds by exact Hlt. reflexivity.
Qed.

Lemma invalid_arguments_rejected_witness :
  downsample {| shape := [4]; data := [1; 2; 3; 4]%Q |} 0 (3 # 2) "average"
  = Err (AssertionError "factor is expected to be an int") /\
  (exists msg, upsample {| shape := [4]; data := [1; 2; 3; 4]%Q |} 0 (3 # 2)
                 "nearest-neighbor" None = Err (AssertionError msg)) /\
  downsample {| shape := [4]; data := [1; 2; 3; 4]%Q |} 0 2 "median"
  = Err (AssertionError "unknown downsample method") /\
  upsample {| shape := [4]; data := [1; 2; 3; 4]%Q |} 0 2 "linear" None
  = Err (AssertionError "unknown upsample method") /\
  GradDiscardOutOfBound_init 1 (-1) = Err (AssertionError "").
Proof.
  destruct invalid_arguments_rejected as (Hdf & Huf & Hdm & Hum & Hinit).
  assert (Hfrac : forall z : Z, ~ (3 # 2 == inject_Z z)%Q).
  { intros z. unfold Qeq. cbn. lia. }
  split; [apply Hdf; exact Hfrac|].
  split; [apply Huf; exact Hfrac|].
  split.
  - destruct (Hdm {| shape := [4]; data := [1; 2; 3; 4]%Q |} 0 2%Q "median"%string
                ltac:(discriminate) ltac:(discriminate) ltac:(discriminate)) as [_ Hrun].
    apply (Hrun {| shape := [2]; data := [3 # 2; 7 # 2]%Q |}). reflexivity.
  - split; [apply Hum; discriminate|].
    apply (Hinit 1%Q (-1)%Q {| shape := []; data := [0%Q] |}). reflexivity.
Defined.

(** ** One-hot encoding *)

Lemma row_concat {B : Type} (sz i : nat) (L : list (list B)) :
  Forall (fun c => length c = sz) L -> i < length L ->
  row sz i (concat L) = nth i L [].
Proof.
  intros HL Hi. rewrite <- (nth_chunks (length L)) by assumption.
  rewrite chunks_concat by assumption. reflexivity.
Qed.

Lemma length_one_hot_row (k i : nat) : length (one_hot_row k i) = k.
Proof. unfold one_hot_row. rewrite length_map, length_seq. reflexivity. Qed.

Lemma eye_ok (num_classes : Z) :
  (0 <= num_classes)%Z ->
  T.eye num_classes =
  Ok {| shape := [Z.to_nat num_classes; Z.to_nat num_classes];
        data := concat (map (one_hot_row (Z.to_nat num_classes))
                          (seq 0 (Z.to_nat num_classes))) |}.
Proof.
  intros HK. unfold T.eye. rewrite dims_nonneg by (repeat constructor; assumption).
  cbn [bind]. rewrite flat_map_concat_map. reflexivity.
Qed.

Lemma eye_row (k i : nat) :
  i < k -> row k i (concat (map (one_hot_row k) (seq 0 k))) = one_hot_row k i.
Proof.
  intros Hi. rewrite row_concat.
  - apply nth_map_seq. assumption.
  - apply Forall_forall. intros c Hc. apply in_map_iff in Hc.
    destruct Hc as [j [<- _]]. apply length_one_hot_row.
  - rewrite length_map, length_seq. assumption.
Qed.

(** Sum and position of the greatest element of a one-hot row. *)

Lemma Qsum_zero_tail (i s n : nat) :
  i < s -> (Qsum (map (fun j => if i =? j then 1%Q else 0%Q) (seq s n)) == 0)%Q.
Proof.
  revert s. induction n as [|n IH]; intros s Hs; cbn [seq map Qsum fold_right].
  - reflexivity.
  - fold (Qsum (map (fun j => if i =? j then 1%Q else 0%Q) (seq (S s) n))).
    destruct (i =? s) eqn:E; [apply Nat.eqb_eq in E; lia|].
    rewrite IH by lia. reflexivity.
Qed.

Lemma Qsum_one_hot_from (i s n : nat) :
  s <= i < s + n ->
  (Qsum (map (fun j => if i =? j then 1%Q else 0%Q) (seq s n)) == 1)%Q.
Proof.
  revert s. induction n as [|n IH]; intros s Hs; [lia|].
  cbn [seq map Qsum fold_right].
  fold (Qsum (map (fun j => if i =? j then 1%Q else 0%Q) (seq (S s) n))).
  destruct (i =? s) eqn:E.
  - apply Nat.eqb_eq in E. rewrite Qsum_zero_tail by lia. reflexivity.
  - apply Nat.eqb_neq in E. rewrite IH by lia. reflexivity.
Qed.

Lemma Qsum_one_hot_row (k i : nat) : i < k -> (Qsum (one_hot_row k i) == 1)%Q.
Proof. intros Hi. apply Qsum_one_hot_from. lia. Qed.

Lemma Qargmax_from_seen (i b s n : nat) :
  Qargmax_from 1 b s (map (fun j => if i =? j then 1%Q else 0%Q) (seq s n)) = b.
Proof.
  revert s. induction n as [|n IH]; intros s; [reflexivity|].
  cbn [seq map Qargmax_from]. destruct (i =? s); cbn [Qltb]; apply IH.
Qed.

Lemma Qargmax_from_unseen (i b s n : nat) :
  s <= i < s + n ->
  Qargmax_from 0 b s (map (fun j => if i =? j then 1%Q else 0%Q) (seq s n)) = i.
Proof.
  revert s b. induction n as [|n IH]; intros s b Hs; [lia|].
  cbn [seq map Qargmax_from]. destruct (i =? s) eqn:E.
  - apply Nat.eqb_eq in E. subst s.
    change (Qltb 0 1) with true. cbv iota. apply Qargmax_from_seen.
  - apply Nat.eqb_neq in E. change (Qltb 0 0) with false. cbv iota.
    apply IH. lia.
Qed.

Lemma Qargmax_one_hot_row (k i : nat) :
  i < k -> Qargmax (one_hot_row k i) = Z.of_nat i.
Proof.
  intros Hi. unfold one_hot_row, Qargmax. destruct k as [|k]; [lia|].
  cbn [seq map]. f_equal. destruct (i =? 0) eqn:E.
  - apply Nat.eqb_eq in E. subst i. apply Qargmax_from_seen.
  - apply Nat.eqb_neq in E. apply Qargmax_from_unseen. lia.
Qed.

Lemma shape_all_of_nat {A : Type} (x : ndarray A) :
  map (fun i => shp x i) (seq 0 (ndim x)) = map Z.of_nat (shape x).
Proof.
  unfold shp, dim, ndim.
  transitivity (map Z.of_nat (map (fun j => nth j (shape x) 0) (seq 0 (length (shape x))))).
  - rewrite map_map. reflexivity.
  - rewrite map_nth_seq. reflexivity.
Qed.

Section OneHot.
Variables (seq : ndarray Z) (num_classes : Z).
Hypothesis Hwf : wf seq.
Hypothesis Hclasses : (0 <= num_classes)%Z.
(** Every index, once cast to int32, is a valid (possibly negative)
    index into the rows of the identity matrix. *)
Hypothesis Hrange :
  Forall (fun v => (- num_classes <= T.cast_int32 v < num_classes)%Z) (data seq).

Let k := Z.to_nat num_classes.

Lemma selected_row_range (v : Z) :
  (- num_classes <= T.cast_int32 v < num_classes)%Z ->
  Z.to_nat (selected_row num_classes v) < k.
Proof.
  intros Hv. unfold selected_row, k.
  destruct (T.cast_int32 v <? 0)%Z eqn:E; reflect_cmp; lia.
Qed.

Lemma class_idx_rows :
  exists m, class_idx_seq_to_1_of_k seq num_classes = Ok m /\
    shape m = shape seq ++ [k] /\ wf m /\
    forall p, p < size (shape seq) ->
      trailing_vector m p =
      one_hot_row k (Z.to_nat (selected_row num_classes (nth p (data seq) 0%Z))).
Proof.
  unfold class_idx_seq_to_1_of_k. rewrite eye_ok by assumption. cbn [bind].
  fold k. unfold T.getitem_int. cbn [shape data T.cast_int32_array].
  assert (Hk : Z.of_nat k = num_classes) by (unfold k; lia).
  rewrite Hk.
  assert (Hb : forallb (fun v => (- num_classes <=? v)%Z && (v <? num_classes)%Z)
                 (map T.cast_int32 (data seq)) = true).
  { apply forallb_forall. intros c Hc. apply in_map_iff in Hc.
    destruct Hc as [v [<- Hv]]. rewrite Forall_forall in Hrange.
    specialize (Hrange v Hv). apply andb_true_intro. split.
    - apply Z.leb_le. lia.
    - apply Z.ltb_lt. lia. }
  rewrite Hb. cbn [bind].
  rewrite shape_all_of_nat.
  replace (map Z.of_nat (shape seq) ++ [num_classes])
    with (map Z.of_nat (shape seq ++ [k]))
    by (rewrite map_app; cbn [map]; rewrite Hk; reflexivity).
  rewrite reshape_ok by reflexivity.
  eexists. split; [reflexivity|]. cbn [shape data]. split; [reflexivity|].
  set (L := map (fun v => one_hot_row k (Z.to_nat (selected_row num_classes v))) (data seq)).
  assert (HL : flat_map
                 (fun v => row (size [k])
                             (Z.to_nat (if (v <? 0)%Z then (v + num_classes)%Z else v))
                             (concat (map (one_hot_row k) (List.seq 0 k))))
                 (map T.cast_int32 (data seq)) = concat L).
  { unfold L. rewrite flat_map_concat_map, map_map. f_equal.
    apply map_ext_in. intros v Hv. rewrite Forall_forall in Hrange.
    replace (size [k]) with k by (cbn [size fold_right]; lia).
    apply eye_row. apply selected_row_range. apply Hrange. assumption. }
  rewrite HL.
  assert (HLall : Forall (fun c => length c = k) L).
  { unfold L. apply Forall_forall. intros c Hc. apply in_map_iff in Hc.
    destruct Hc as [v [<- _]]. apply length_one_hot_row. }
  assert (HLlen : length L = size (shape seq)).
  { unfold L. rewrite length_map. exact Hwf. }
  split.
  - unfold wf. cbn [shape data]. rewrite (length_concat_uniform k) by assumption.
    rewrite size_app, HLlen. cbn [size fold_right]. lia.
  - intros p Hp. unfold trailing_vector. cbn [shape data]. rewrite last_last.
    rewrite row_concat by (assumption || lia).
    unfold L. rewrite (nth_indep _ [] (one_hot_row k (Z.to_nat (selected_row num_classes 0%Z))))
      by (rewrite length_map; unfold wf in Hwf; lia).
    apply (map_nth (fun v => one_hot_row k (Z.to_nat (selected_row num_classes v)))).
Qed.
End OneHot.

(** C7. One-hot encoding: for a class count K and an index array whose
    values all lie in [0, K), the encoding has one extra trailing
    dimension of size K, every trailing vector sums to 1, and the position
    of its greatest element is the original index.  K ranges over the
    class counts up to 2^31: a K x K identity matrix beyond that has more
    than 2^62 entries and no engine can hold it, and up to there every
    index in [0, K) is an int32 value, which the cast leaves as it is. *)
Theorem class_idx_seq_to_1_of_k_correct (seq : ndarray Z) (num_classes : Z) :
  wf seq -> (0 <= num_classes <= 2 ^ 31)%Z ->
  Forall (fun v => (0 <= v < num_classes)%Z) (data seq) ->
  exists m, class_idx_seq_to_1_of_k seq num_classes = Ok m /\
    shape m = shape seq ++ [Z.to_nat num_classes] /\ wf m /\
    forall p, p < size (shape seq) ->
      (Qsum (trailing_vector m p) == 1)%Q /\
      Qargmax (trailing_vector m p) = nth p (data seq) 0%Z.
Proof.
  intros Hwf [HK Hmax] Hv.
  assert (Hrange : Forall (fun v => (- num_classes <= T.cast_int32 v < num_classes)%Z)
                     (data seq)).
  { eapply Forall_impl; [|exact Hv]. cbv beta. intros v Hv1.
    rewrite cast_int32_id by lia. lia. }
  destruct (class_idx_rows seq num_classes Hwf HK Hrange) as (m & E & Hs & Hwfm & Hrow).
  exists m. split; [exact E|]. split; [exact Hs|]. split; [exact Hwfm|].
  intros p Hp. rewrite Hrow by assumption.
  assert (Hin : In (nth p (data seq) 0%Z) (data seq))
    by (apply nth_In; unfold wf in Hwf; lia).
  rewrite Forall_forall in Hv. pose proof (Hv _ Hin) as Hv1.
  assert (Hsel : selected_row num_classes (nth p (data seq) 0%Z) = nth p (data seq) 0%Z).
  { unfold selected_row. rewrite cast_int32_id by lia.
    destruct (nth p (data seq) 0 <? 0)%Z eqn:E0; reflect_cmp; lia. }
  rewrite Hsel. split.
  - apply Qsum_one_hot_row. lia.
  - rewrite Qargmax_one_hot_row by lia. lia.
Qed.

Lemma class_idx_seq_to_1_of_k_correct_witness :
  exists m,
    class_idx_seq_to_1_of_k {| shape := [3]; data := [2; 0; 1]%Z |} 3 = Ok m /\
    shape m = [3; 3] /\
    (Qsum (trailing_vector m 0) == 1)%Q /\ Qargmax (trailing_vector m 0) = 2%Z.
Proof.
  destruct (class_idx_seq_to_1_of_k_correct {| shape := [3]; data := [2; 0; 1]%Z |} 3
              eq_refl ltac:(lia) ltac:(repeat constructor; lia))
    as (m & E & Hs & _ & Hp).
  exists m. split; [exact E|]. split; [exact Hs|].
  apply (Hp 0). cbn. lia.
Defined.

(** ** The slicing tuple of [slice_for_axis] *)

Lemma bind_ext {A B : Type} (r : result A) (k k' : A -> result B) :
  (forall a, r = Ok a -> k a = k' a) -> bind r k = bind r k'.
Proof. intros Hk. destruct r as [a | e]; cbn [bind]; [apply Hk|]; reflexivity. Qed.

Lemma list_eqb_eq (l l' : list nat) : list_eqb l l' = true -> l = l'.
Proof.
  unfold list_eqb. intros E. apply andb_prop in E. destruct E as [El Ef].
  apply Nat.eqb_eq in El. revert l' El Ef.
  induction l as [|x l IH]; intros [|y l'] El Ef; try discriminate; [reflexivity|].
  cbn [combine forallb fst snd] in Ef. apply andb_prop in Ef. destruct Ef as [Exy Ef].
  apply Nat.eqb_eq in Exy. subst y. f_equal. apply IH; [|assumption].
  cbn [length] in El. lia.
Qed.

Lemma app_inv_length {B : Type} (a a' b b' : list B) :
  length a = length a' -> a ++ b = a' ++ b' -> a = a' /\ b = b'.
Proof.
  revert a'. induction a as [|x a IH]; intros [|x' a'] Hl E; try discriminate.
  - split; [reflexivity | exact E].
  - cbn [app] in E. injection E as -> E. cbn [length] in Hl.
    destruct (IH a' ltac:(lia) E) as [-> ->]. split; reflexivity.
Qed.

Lemma remove_at_eq_parts (k : nat) (s s' : list nat) :
  k < length s -> length s = length s' -> remove_at k s = remove_at k s' ->
  firstn k s = firstn k s' /\ skipn (S k) s = skipn (S k) s'.
Proof.
  unfold remove_at. intros Hk Hl E.
  apply app_inv_length in E; [exact E|].
  rewrite !length_firstn. lia.
Qed.

Lemma length_concat_zip_app {B : Type} (x y : nat) (La Lb : list (list B)) :
  length La = length Lb ->
  Forall (fun c => length c = x) La -> Forall (fun c => length c = y) Lb ->
  length (concat (zip_with (@app B) La Lb)) = length La * (x + y).
Proof.
  unfold zip_with. revert Lb. induction La as [|a La IH]; intros [|b Lb] Hl Ha Hb;
    try discriminate; [reflexivity|].
  cbn [combine map concat fst snd length]. inversion Ha; inversion Hb; subst.
  rewrite !length_app, IH by (try assumption; cbn [length] in Hl; lia). lia.
Qed.

Section Slicing.
Context {A : Type} `{Dtype A}.

Lemma join_wf (axis : nat) (a b t : ndarray A) :
  T.join axis a b = Ok t -> wf a -> wf b -> wf t /\ ndim t = ndim a.
Proof.
  unfold T.join, wf, ndim. intros E Ha Hb.
  destruct ((axis <? length (shape a)) && (length (shape a) =? length (shape b))
            && list_eqb (remove_at axis (shape a)) (remove_at axis (shape b))) eqn:C;
    [|discriminate].
  apply andb_prop in C. destruct C as [C Ceq]. apply andb_prop in C.
  destruct C as [Cax Cnd]. reflect_cmp. apply list_eqb_eq in Ceq.
  destruct (remove_at_eq_parts axis _ _ Cax Cnd Ceq) as [Ef Es].
  injection E as <-. cbn [shape data]. split.
  - rewrite size_set_at.
    rewrite (size_split axis) in Ha by assumption.
    rewrite (size_split axis) in Hb by lia.
    unfold outer, inner in *. rewrite <- Ef, <- Es in Hb. fold (dim b axis) in Hb.
    fold (dim a axis) in Ha.
    rewrite (length_concat_zip_app (dim a axis * size (skipn (S axis) (shape a)))
               (dim b axis * size (skipn (S axis) (shape a)))).
    + rewrite length_chunks. ring.
    + rewrite !length_chunks. reflexivity.
    + apply chunks_length_each. lia.
    + apply chunks_length_each. lia.
  - apply length_set_at. assumption.
Qed.

Lemma concatenate2_wf (axis : nat) (a b t : ndarray A) :
  T.concatenate [a; b] axis = Ok t -> wf a -> wf b -> wf t /\ ndim t = ndim a.
Proof. cbn [T.concatenate fold_left bind]. apply join_wf. Qed.

Lemma repeat_wf (x t : ndarray A) (repeats : Z) (axis : nat) :
  T.repeat x repeats axis = Ok t -> wf x -> wf t /\ axis < ndim x.
Proof.
  unfold T.repeat. intros E Hx.
  destruct (repeats <? 0)%Z; [discriminate|].
  destruct (axis <? ndim x) eqn:Eax; cbn [negb] in E; [|discriminate].
  reflect_cmp. injection E as <-. split; [|assumption].
  apply take_axis_wf; [assumption | assumption |].
  apply Forall_flat_map. apply Forall_forall. intros j Hj. apply in_seq in Hj.
  apply Forall_forall. intros i Hi. apply repeat_spec in Hi. lia.
Qed.

Lemma zeros_wf (s : list Z) (t : ndarray A) : T.zeros s = Ok t -> wf t.
Proof.
  unfold T.zeros, dims. destruct (forallb _ s); cbn [bind]; [|discriminate].
  intros E. injection E as <-. unfold wf. cbn [shape data]. apply repeat_length.
Qed.

Lemma slice_indices_last_any (n : nat) :
  slice_indices (Slice (Some (-1)%Z) None None) n
  = Ok (if n =? 0 then [] else [n - 1]).
Proof.
  destruct n as [|n]; [reflexivity|].
  rewrite slice_indices_last by lia. reflexivity.
Qed.

(** The tuple built for axis [a] is [a - 1] full slices (none for
    [a = 0]) and then [s]: indexing with it slices dimension [a - 1]. *)
Lemma slice_for_axis_tuple (a : nat) (s : slice) :
  slice_for_axis a s = repeat slice_all (a - 1) ++ [s].
Proof.
  unfold slice_for_axis.
  replace (Z.to_nat (Z.of_nat a - 1)) with (a - 1) by lia. reflexivity.
Qed.

Lemma getitem_slice_for_axis (a : nat) (s : slice) (x : ndarray A) :
  a - 1 < ndim x -> wf x ->
  T.getitem x (slice_for_axis a s) = slice_dim (a - 1) s x.
Proof.
  intros Ha Hwf. rewrite slice_for_axis_tuple.
  apply getitem_axis; assumption.
Qed.

Lemma pad_slices_preceding (source : ndarray A) (axis : nat) (target_axis_len : Z)
  (pad_value : option (ndarray A)) :
  wf source -> (forall p, pad_value = Some p -> wf p) ->
  pad source axis target_axis_len pad_value =
  pad_sliced_by (slice_dim (axis - 1)) source axis target_axis_len pad_value.
Proof.
  intros Hwf Hpv. unfold pad, pad_sliced_by.
  apply bind_ext. intros pv Epv.
  assert (Hpvwf : wf pv).
  { destruct pad_value as [p|].
    - injection Epv as <-. apply Hpv. reflexivity.
    - apply (zeros_wf _ _ Epv). }
  apply bind_ext. intros len _. cbv zeta.
  apply bind_ext. intros padding Epad.
  destruct (repeat_wf _ _ _ _ Epad Hpvwf) as [Hpadwf _].
  apply bind_ext. intros target Etar.
  destruct (concatenate2_wf _ _ _ _ Etar Hwf Hpadwf) as [Htwf Htnd].
  assert (Hlt : axis < ndim target).
  { rewrite Htnd. cbn [T.concatenate fold_left bind] in Etar. unfold T.join in Etar.
    destruct (axis <? ndim source) eqn:E; [reflect_cmp; assumption|].
    cbn [andb] in Etar. discriminate. }
  apply getitem_slice_for_axis; [lia | assumption].
Qed.

Lemma slice_dim_last_wf (k : nat) (x last : ndarray A) :
  slice_dim k (Slice (Some (-1)%Z) None None) x = Ok last ->
  k < ndim x -> wf x -> wf last.
Proof.
  unfold slice_dim. rewrite slice_indices_last_any. cbn [bind].
  intros E Hk Hwf. injection E as <-. apply take_axis_wf; [assumption | assumption |].
  destruct (dim x k =? 0) eqn:E0; [constructor|]. reflect_cmp.
  repeat constructor. lia.
Qed.

Lemma upsample_slices_preceding (source : ndarray A) (axis : nat) (factor : Q)
  (method : string) (target_axis_len : option Z) :
  wf source ->
  upsample source axis factor method target_axis_len =
  upsample_sliced_by (slice_dim (axis - 1)) source axis factor method target_axis_len.
Proof.
  intros Hwf. unfold upsample, upsample_sliced_by.
  destruct (String.eqb method "nearest-neighbor"); [|reflexivity].
  apply bind_ext. intros _ _. cbv zeta.
  apply bind_ext. intros target Etar.
  destruct (repeat_wf _ _ _ _ Etar Hwf) as [Htwf Hlt].
  destruct target_axis_len as [tl|]; [|reflexivity].
  rewrite getitem_slice_for_axis by (assumption || lia).
  apply bind_ext. intros last Elast.
  apply pad_slices_preceding; [assumption | ].
  intros p Ep. injection Ep as <-.
  apply (slice_dim_last_wf (axis - 1) source); [assumption | lia | assumption].
Qed.
End Slicing.

Lemma downsample_slices_preceding (source : ndarray Q) (axis : nat) (factor : Q)
  (method : string) :
  wf source ->
  downsample source axis factor method =
  downsample_sliced_by (slice_dim (axis - 1)) source axis factor method.
Proof.
  intros Hwf. unfold downsample, downsample_sliced_by.
  apply bind_ext. intros _ _. cbv zeta.
  apply bind_ext. intros len Elen.
  assert (Hlt : axis < ndim source).
  { unfold shape_at in Elen. destruct (nth_error (shape source) axis) eqn:E; [|discriminate].
    apply nth_error_Some. congruence. }
  apply bind_ext. intros q _.
  rewrite getitem_slice_for_axis by (assumption || lia). reflexivity.
Qed.

Lemma slice_dim_shape {A : Type} (k : nat) (s : slice) (x y : ndarray A) :
  k < ndim x -> slice_dim k s x = Ok y ->
  (exists idxs, slice_indices s (dim x k) = Ok idxs /\ dim y k = length idxs) /\
  (forall j, j <> k -> dim y j = dim x j).
Proof.
  unfold slice_dim. intros Hk E.
  destruct (slice_indices s (dim x k)) as [idxs | e]; cbn [bind] in E; [|discriminate].
  injection E as <-. unfold dim, take_axis. cbn [shape]. split.
  - exists idxs. split; [reflexivity|]. apply nth_set_at. assumption.
  - intros j Hj. apply nth_set_at_other; assumption.
Qed.

(** C10. For an axis a >= 1 the tuple of [slice_for_axis] is a - 1 full
    slices followed by s, so indexing with it slices dimension a - 1 and
    leaves dimension a as it is; pad, downsample and upsample called with
    axis >= 1 therefore slice the dimension before the requested axis, and
    for axis = 0 they slice dimension 0, the axis the caller named. *)
Theorem slice_for_axis_slices_preceding_dimension :
  (forall a s, 1 <= a -> slice_for_axis a s = repeat slice_all (a - 1) ++ [s]) /\
  (forall (A : Type) (HA : Dtype A) (x : ndarray A) a s,
     1 <= a -> a < ndim x -> wf x ->
     T.getitem x (slice_for_axis a s) = slice_dim (a - 1) s x /\
     forall y, T.getitem x (slice_for_axis a s) = Ok y ->
       dim y a = dim x a /\
       exists idxs, slice_indices s (dim x (a - 1)) = Ok idxs /\
                    dim y (a - 1) = length idxs) /\
  (forall (source : ndarray Q) axis, wf source -> 2 <= ndim source -> 1 <= axis ->
     (forall target_axis_len pad_value,
        (forall p, pad_value = Some p -> wf p) ->
        pad source axis target_axis_len pad_value =
        pad_sliced_by (slice_dim (axis - 1)) source axis target_axis_len pad_value) /\
     (forall factor method,
        downsample source axis factor method =
        downsample_sliced_by (slice_dim (axis - 1)) source axis factor method) /\
     (forall factor method target_axis_len,
        upsample source axis factor method target_axis_len =
        upsample_sliced_by (slice_dim (axis - 1)) source axis factor method
          target_axis_len)) /\
  (forall (source : ndarray Q), wf source ->
     (forall target_axis_len pad_value,
        (forall p, pad_value = Some p -> wf p) ->
        pad source 0 target_axis_len pad_value =
        pad_sliced_by (slice_dim 0) source 0 target_axis_len pad_value) /\
     (forall factor method,
        downsample source 0 factor method =
        downsample_sliced_by (slice_dim 0) source 0 factor method) /\
     (forall factor method target_axis_len,
        upsample source 0 factor method target_axis_len =
        upsample_sliced_by (slice_dim 0) source 0 factor method target_axis_len)).
Proof.
  split; [|split; [|split]].
  - intros a s _. apply slice_for_axis_tuple.
  - intros A HA x a s Ha Hlt Hwf.
    assert (E : T.getitem x (slice_for_axis a s) = slice_dim (a - 1) s x)
      by (apply getitem_slice_for_axis; [lia | assumption]).
    split; [exact E|]. intros y Hy. rewrite E in Hy.
    destruct (slice_dim_shape (a - 1) s x y ltac:(lia) Hy) as [Hidx Hother].
    split; [apply Hother; lia | exact Hidx].
  - intros source axis Hwf _ Hax. split; [|split].
    + intros tl pv Hpv. apply pad_slices_preceding; assumption.
    + intros factor method. apply downsample_slices_preceding; assumption.
    + intros factor method tl. apply upsample_slices_preceding; assumption.
  - intros source Hwf. split; [|split].
    + intros tl pv Hpv. apply (pad_slices_preceding source 0); assumption.
    + intros factor method. apply (downsample_slices_preceding source 0); assumption.
    + intros factor method tl. apply (upsample_slices_preceding source 0); assumption.
Qed.

Lemma slice_for_axis_slices_preceding_dimension_witness :
  slice_for_axis 2 (Slice (Some 0%Z) (Some 1%Z) None)
  = [slice_all; Slice (Some 0%Z) (Some 1%Z) None] /\
  T.getitem {| shape := [2; 2; 3]; data := [1; 2; 3; 4; 5; 6; 7; 8; 9; 10; 11; 12]%Q |}
    (slice_for_axis 2 (Slice (Some 0%Z) (Some 1%Z) None))
  = Ok {| shape := [2; 1; 3]; data := [1; 2; 3; 7; 8; 9]%Q |} /\
  pad {| shape := [2; 3]; data := [1; 2; 3; 4; 5; 6]%Q |} 1 1 None
  = Ok {| shape := [1; 4]; data := [1; 2; 3; 0]%Q |} /\
  pad {| shape := [2; 3]; data := [1; 2; 3; 4; 5; 6]%Q |} 0 1 None
  = Ok {| shape := [1; 3]; data := [1; 2; 3]%Q |}.
Proof.
  destruct slice_for_axis_slices_preceding_dimension as (Htuple & Hget & Hfun & Hzero).
  split; [apply (Htuple 2); lia|]. split.
  - destruct (Hget Q _ {| shape := [2; 2; 3];
                      data := [1; 2; 3; 4; 5; 6; 7; 8; 9; 10; 11; 12]%Q |} 2
                (Slice (Some 0%Z) (Some 1%Z) None) ltac:(lia) ltac:(cbn; lia) eq_refl)
      as [E _].
    rewrite E. reflexivity.
  - split.
    + destruct (Hfun {| shape := [2; 3]; data := [1; 2; 3; 4; 5; 6]%Q |} 1
                  eq_refl ltac:(cbn; lia) ltac:(lia)) as (Hpad & _ & _).
      rewrite Hpad by discriminate. reflexivity.
    + destruct (Hzero {| shape := [2; 3]; data := [1; 2; 3; 4; 5; 6]%Q |} eq_refl)
        as (Hpad & _ & _).
      rewrite Hpad by discriminate. reflexivity.
Defined.

(** ** Where the slicing slip shows *)

(** C2 (the code departs from it). Padding a 2 x 3 array along axis 1 to
    length 1 should give a 2 x 1 array; the final trim slices dimension 0
    instead, so the result is 1 x 4: the requested axis keeps its padded
    length 4 and the other axis loses a row.  Padding a 6 x 1 array along
    axis 1 to length 3 should give 6 x 3 and gives 3 x 3. *)
Theorem pad_axis1_trims_leading_dimension :
  (exists out,
     pad {| shape := [2; 3]; data := [1; 2; 3; 4; 5; 6]%Z |} 1 1 None = Ok out /\
     out = {| shape := [1; 4]; data := [1; 2; 3; 0]%Z |} /\
     dim out 1 <> 1 /\ dim out 0 <> 2) /\
  (exists out,
     pad {| shape := [6; 1]; data := [1; 2; 3; 4; 5; 6]%Z |} 1 3 None = Ok out /\
     out = {| shape := [3; 3]; data := [1; 0; 0; 2; 0; 0; 3; 0; 0]%Z |} /\
     dim out 0 <> 6).
Proof.
  split; eexists; (split; [vm_compute; reflexivity|]); (split; [reflexivity|]).
  - split; discriminate.
  - discriminate.
Qed.

(** C5 (the code departs from it). Upsampling a 3 x 1 array along axis 1
    by 2 and downsampling the result along axis 1 by 2 with method average
    should give the array back; downsample's truncation slices dimension 0
    to the length 2 computed for axis 1, so a row is lost and the result
    is 2 x 1. *)
Theorem downsample_upsample_axis1_loses_rows :
  exists up down,
    upsample {| shape := [3; 1]; data := [1; 2; 3]%Q |} 1 2 "nearest-neighbor" None
    = Ok up /\
    shape up = [3; 2] /\
    downsample up 1 2 "average" = Ok down /\
    shape down = [2; 1] /\
    ~ array_Qeq down {| shape := [3; 1]; data := [1; 2; 3]%Q |}.
Proof.
  eexists. eexists. split; [vm_compute; reflexivity|].
  split; [reflexivity|]. split; [vm_compute; reflexivity|].
  split; [reflexivity|]. intros [Hs _]. discriminate Hs.
Qed.

(** ** Upsampling then downsampling along the leading axis *)

Lemma flat_map_flat_map {B C D : Type} (f : C -> list D) (g : B -> list C) (l : list B) :
  flat_map f (flat_map g l) = flat_map (fun x => flat_map f (g x)) l.
Proof.
  induction l as [|x l IH]; [reflexivity|].
  cbn [flat_map]. rewrite flat_map_app, IH. reflexivity.
Qed.

Lemma flat_map_repeat {B C : Type} (f : B -> list C) (x : B) (k : nat) :
  flat_map f (repeat x k) = concat (repeat (f x) k).
Proof. rewrite flat_map_concat_map, map_repeat. reflexivity. Qed.

Lemma Forall2_concat {B C : Type} (R : B -> C -> Prop) L L' :
  Forall2 (Forall2 R) L L' -> Forall2 R (concat L) (concat L').
Proof.
  induction 1 as [|l l' L L' Hl HL IH]; [constructor|].
  cbn [concat]. apply Forall2_app; assumption.
Qed.

Lemma Forall2_map_same {B C D : Type} (R : C -> D -> Prop) (f : B -> C) (g : B -> D) l :
  (forall x, In x l -> R (f x) (g x)) -> Forall2 R (map f l) (map g l).
Proof.
  induction l as [|x l IH]; intros HR; [constructor|].
  cbn [map]. constructor; [apply HR; left; reflexivity|].
  apply IH. intros y Hy. apply HR. right. assumption.
Qed.

Lemma Forall2_map_seq_nth {B C : Type} (R : B -> C -> Prop) (f : nat -> B)
  (r : list C) (d : C) (s : nat) :
  (forall c, c < length r -> R (f (s + c)) (nth c r d)) ->
  Forall2 R (map f (seq s (length r))) r.
Proof.
  revert s. induction r as [|x r IH]; intros s HR; [constructor|].
  cbn [length seq map]. constructor.
  - specialize (HR 0 ltac:(cbn [length]; lia)). rewrite Nat.add_0_r in HR. exact HR.
  - apply IH. intros c Hc. specialize (HR (S c) ltac:(cbn [length]; lia)).
    rewrite Nat.add_succ_r in HR. exact HR.
Qed.

Lemma Qsum_repeat (x : Q) (k : nat) :
  (Qsum (repeat x k) == inject_Z (Z.of_nat k) * x)%Q.
Proof.
  induction k as [|k IH].
  - cbn [repeat Qsum fold_right]. change (inject_Z (Z.of_nat 0)) with 0%Q. ring.
  - cbn [repeat Qsum fold_right]. fold (Qsum (repeat x k)). rewrite IH.
    rewrite Nat2Z.inj_succ. unfold Z.succ. rewrite inject_Z_plus. ring.
Qed.

Lemma Qmean_repeat (x : Q) (k : nat) : 0 < k -> (Qmean (repeat x k) == x)%Q.
Proof.
  intros Hk. unfold Qmean. rewrite Qsum_repeat, repeat_length.
  field. intros E. unfold Qeq in E. cbn [Qnum Qden inject_Z] in E. lia.
Qed.

Section RoundTrip.
Variables (source : ndarray Q) (n : nat) (rest : list nat) (factor : Q).
Hypothesis Hshape : shape source = n :: rest.
Hypothesis Hwf : wf source.
Hypothesis Hint : is_int factor = true.
Hypothesis Hpos : (0 < int factor)%Z.

Let F := Z.to_nat (int factor).
Let sz := size rest.
Let up_rows (j : nat) : list Q := concat (repeat (row sz j (data source)) F).

Lemma upsample_leading :
  upsample source 0 factor "nearest-neighbor" None =
  Ok {| shape := n * F :: rest; data := concat (map up_rows (seq 0 n)) |}.
Proof.
  unfold upsample. rewrite Hint. cbn [String.eqb Ascii.eqb Bool.eqb assert bind andb].
  unfold T.repeat. destruct (int factor <? 0)%Z eqn:E; [reflect_cmp; lia|].
  unfold ndim, dim. rewrite Hshape. cbn [length Nat.ltb Nat.leb negb nth bind].
  rewrite (take_axis0 source n rest) by assumption.
  f_equal. f_equal.
  - f_equal. fold F. clear. induction n as [|m IH]; [reflexivity|].
    rewrite seq_S, flat_map_app, length_app, IH. cbn [flat_map Nat.add].
    rewrite app_nil_r, repeat_length. lia.
  - rewrite flat_map_flat_map, flat_map_concat_map. f_equal.
    apply map_ext. intros j. unfold up_rows. rewrite flat_map_repeat. reflexivity.
Qed.

Lemma length_source_row (j : nat) : j < n -> length (row sz j (data source)) = sz.
Proof.
  intros Hj. apply length_row. unfold wf in Hwf.
  rewrite Hwf, Hshape, size_cons. fold sz. nia.
Qed.

Lemma length_up_rows (j : nat) : j < n -> length (up_rows j) = F * sz.
Proof.
  intros Hj. unfold up_rows. rewrite length_concat_repeat, length_source_row by assumption.
  reflexivity.
Qed.

Lemma downsample_upsample_leading :
  exists up down,
    upsample source 0 factor "nearest-neighbor" None = Ok up /\
    downsample up 0 factor "average" = Ok down /\
    array_Qeq down source.
Proof.
  assert (HF : 0 < F) by (unfold F; lia).
  assert (HFz : Z.of_nat F = int factor) by (unfold F; lia).
  exists {| shape := n * F :: rest; data := concat (map up_rows (seq 0 n)) |}.
  eexists. split; [apply upsample_leading|].
  set (U := concat (map up_rows (seq 0 n))).
  assert (HU : length U = n * (F * sz)).
  { unfold U. rewrite (length_concat_uniform (F * sz)).
    - rewrite length_map, length_seq. reflexivity.
    - apply Forall_forall. intros c Hc. apply in_map_iff in Hc.
      destruct Hc as [j [<- Hj]]. apply in_seq in Hj. apply length_up_rows. lia. }
  unfold downsample. rewrite Hint. cbn [assert bind].
  unfold shape_at. cbn [shape nth_error bind].
  unfold int_div. destruct (int factor =? 0)%Z eqn:E0; [reflect_cmp; lia|].
  cbn [bind]. rewrite <- HFz, Nat2Z.inj_mul, Z.div_mul by lia.
  change (slice_for_axis 0 ?s) with [s].
  rewrite (getitem_upto _ (n * F) rest (Some 0%Z));
    [ | reflexivity | unfold wf; cbn [shape data]; rewrite HU, size_cons; fold sz; ring
      | right; reflexivity | lia ].
  cbn [bind data]. rewrite <- Nat2Z.inj_mul, Nat2Z.id, Nat.min_id.
  replace (firstn (n * F * size rest) U) with U
    by (symmetry; apply firstn_all2; rewrite HU; fold sz; nia).
  cbn [shape nth_error bind]. rewrite Nat2Z.inj_mul, Z.div_mul by lia. cbn [bind].
  rewrite shape_all_of_nat. cbn [shape firstn skipn Nat.add map app].
  change (Z.of_nat n :: Z.of_nat F :: map Z.of_nat rest)
    with (map Z.of_nat (n :: F :: rest)).
  rewrite reshape_ok by (cbn [shape]; rewrite !size_cons; ring).
  cbn [bind String.eqb Ascii.eqb Bool.eqb andb].
  unfold T.mean, T.reduce, ndim, dim, outer, inner, remove_at.
  cbn [shape data length Nat.add Nat.ltb Nat.leb negb nth firstn skipn app].
  destruct (F =? 0) eqn:EF; [reflect_cmp; lia|].
  split; [reflexivity|]. unfold array_Qeq.
  split; [cbn [shape]; symmetry; exact Hshape|]. cbn [data].
  replace (size [n]) with n by (cbn [size fold_right]; lia). fold sz.
  assert (HUch : chunks n (F * sz) U = map up_rows (seq 0 n)).
  { unfold U. rewrite <- (chunks_concat (F * sz) (map up_rows (seq 0 n))) at 2.
    - rewrite length_map, length_seq. reflexivity.
    - apply Forall_forall. intros c Hc. apply in_map_iff in Hc.
      destruct Hc as [j [<- Hj]]. apply in_seq in Hj. apply length_up_rows. lia. }
  unfold U in HUch. rewrite HUch, flat_map_concat_map, map_map.
  assert (Hsrc : data source = concat (map (fun j => row sz j (data source)) (seq 0 n))).
  { rewrite <- chunks_as_rows. symmetry. apply concat_chunks_all.
    unfold wf in Hwf. rewrite Hwf, Hshape, size_cons. reflexivity. }
  rewrite Hsrc at 1. apply Forall2_concat. apply Forall2_map_same.
  intros j Hj. apply in_seq in Hj.
  assert (Hrow : length (row sz j (data source)) = sz) by (apply length_source_row; lia).
  unfold up_rows. set (r := row sz j (data source)) in *.
  assert (Hch : chunks F sz (concat (repeat r F)) = repeat r F).
  { pose proof (chunks_concat sz (repeat r F)) as Hc. rewrite repeat_length in Hc.
    apply Hc. apply Forall_forall. intros c Hc'. apply repeat_spec in Hc'.
    subst c. exact Hrow. }
  rewrite Hch, <- Hrow. apply (Forall2_map_seq_nth _ _ r 0%Q 0).
  intros c Hc. cbn [Nat.add]. rewrite map_repeat. apply Qmean_repeat. exact HF.
Qed.
End RoundTrip.

(** ** The tiled identity *)

Lemma nth_one_hot_row (k i j : nat) :
  j < k -> nth j (one_hot_row k i) 0%Q = if i =? j then 1%Q else 0%Q.
Proof.
  intros Hj. unfold one_hot_row.
  rewrite (nth_map_seq (fun j => if i =? j then 1%Q else 0%Q)) by assumption.
  reflexivity.
Qed.

Lemma get_eye (k i j : nat) :
  i < k -> j < k ->
  get {| shape := [k; k]; data := concat (map (one_hot_row k) (seq 0 k)) |} [i; j]
  = if i =? j then 1%Q else 0%Q.
Proof.
  intros Hi Hj. unfold get. cbn [shape data ravel size fold_right].
  rewrite !Nat.mul_1_r, Nat.add_0_r, <- flat_map_concat_map.
  change (@zero Q Q_dtype) with 0%Q.
  rewrite (nth_flat_map_uniform (one_hot_row k) k k i j)
    by (assumption || (intros; apply length_one_hot_row)).
  apply nth_one_hot_row. assumption.
Qed.

(** The leading [a] rows and [b] columns of a matrix. *)
Lemma getitem_corner {A : Type} `{Dtype A} (x : ndarray A) (r c : nat) (a b : Z) :
  shape x = [r; c] -> wf x -> (0 <= a)%Z -> (0 <= b)%Z ->
  Z.to_nat a <= r -> Z.to_nat b <= c ->
  exists y,
    T.getitem x [Slice None (Some a) None; Slice None (Some b) None] = Ok y /\
    shape y = [Z.to_nat a; Z.to_nat b] /\ wf y /\
    forall i j, i < Z.to_nat a -> j < Z.to_nat b -> get y [i; j] = get x [i; j].
Proof.
  intros Hs Hwf Ha Hb Har Hbc. unfold T.getitem, ndim. rewrite Hs.
  cbn [length Nat.leb T.getitem_from]. unfold dim at 1. rewrite Hs. cbn [nth].
  rewrite slice_indices_upto by (auto; lia). cbn [bind].
  rewrite (take_axis0 x r [c]) by assumption.
  rewrite length_seq, flat_map_rows_seq. unfold dim at 1. cbn [shape nth].
  rewrite slice_indices_upto by (auto; lia). cbn [bind].
  replace (Nat.min (Z.to_nat a) r) with (Z.to_nat a) by lia.
  replace (Nat.min (Z.to_nat b) c) with (Z.to_nat b) by lia.
  set (ra := Z.to_nat a) in *. set (cb := Z.to_nat b) in *.
  unfold take_axis, dim, outer, inner, set_at.
  cbn [shape data nth firstn skipn app size fold_right]. rewrite length_seq.
  rewrite !Nat.mul_1_r.
  assert (Hd : length (data x) = r * c).
  { unfold wf in Hwf. rewrite Hwf, Hs. cbn [size fold_right]. lia. }
  assert (Hdata :
            flat_map (fun blk => flat_map (fun j => row 1 j blk) (seq 0 cb))
              (chunks ra c (firstn (ra * c) (data x)))
            = flat_map (fun i => firstn cb (row c i (data x))) (seq 0 ra)).
  { rewrite chunks_firstn by lia. rewrite chunks_as_rows, flat_map_concat_map, map_map.
    rewrite <- flat_map_concat_map. apply flat_map_ext. intros i.
    rewrite flat_map_rows_seq, Nat.mul_1_r. reflexivity. }
  rewrite Hdata. eexists. split; [reflexivity|]. cbn [shape data].
  split; [reflexivity|].
  assert (Hlen : forall i, i < ra -> length (firstn cb (row c i (data x))) = cb).
  { intros i Hi. rewrite length_firstn, length_row by (rewrite Hd; nia). lia. }
  split.
  - unfold wf. cbn [shape data size fold_right].
    rewrite (length_flat_map_uniform _ ra cb) by exact Hlen. lia.
  - intros i j Hi Hj. unfold get. cbn [shape data ravel size fold_right]. rewrite Hs.
    cbn [ravel size fold_right]. rewrite !Nat.mul_1_r, !Nat.add_0_r.
    rewrite (nth_flat_map_uniform _ ra cb i j) by (assumption || exact Hlen).
    rewrite nth_firstn. destruct (j <? cb) eqn:E; [|reflect_cmp; lia].
    apply nth_row. lia.
Qed.

Section TiledEye.
Variables (n1 n2 : Z).
Hypothesis Hn1 : (0 < n1)%Z.
Hypothesis Hn2 : (0 < n2)%Z.

Lemma tiled_eye_entries_pos :
  exists out,
    tiled_eye n1 n2 = Ok out /\
    shape out = [Z.to_nat n1; Z.to_nat n2] /\ wf out /\
    forall i j, i < Z.to_nat n1 -> j < Z.to_nat n2 ->
      get out [i; j] =
      if i mod Z.to_nat (Z.min n1 n2) =? j mod Z.to_nat (Z.min n1 n2)
      then 1%Q else 0%Q.
Proof.
  set (m := Z.to_nat (Z.min n1 n2)).
  set (R1 := Z.to_nat ((n1 - 1) / n2 + 1)).
  set (R2 := Z.to_nat ((n2 - 1) / n1 + 1)).
  assert (Hq1 : (0 <= (n1 - 1) / n2)%Z) by (apply Z.div_pos; lia).
  assert (Hq2 : (0 <= (n2 - 1) / n1)%Z) by (apply Z.div_pos; lia).
  assert (Hm : 0 < m) by (unfold m; lia).
  assert (Hc1 : Z.to_nat n1 <= m * R1).
  { unfold m, R1. destruct (Z_le_gt_dec n1 n2) as [Hle | Hgt].
    - rewrite Z.div_small by lia. rewrite Z.min_l by lia.
      change (Z.to_nat (0 + 1)) with 1. lia.
    - pose proof (Z.mul_succ_div_gt (n1 - 1) n2 Hn2) as Hd.
      rewrite Z.min_r by lia. unfold Z.succ in Hd. nia. }
  assert (Hc2 : Z.to_nat n2 <= m * R2).
  { unfold m, R2. destruct (Z_le_gt_dec n2 n1) as [Hle | Hgt].
    - rewrite Z.div_small by lia. rewrite Z.min_r by lia.
      change (Z.to_nat (0 + 1)) with 1. lia.
    - pose proof (Z.mul_succ_div_gt (n2 - 1) n1 Hn1) as Hd.
      rewrite Z.min_l by lia. unfold Z.succ in Hd. nia. }
  unfold tiled_eye, int_div.
  destruct (n2 =? 0)%Z eqn:E2; [reflect_cmp; lia|].
  destruct (n1 =? 0)%Z eqn:E1; [reflect_cmp; lia|]. cbn [bind].
  unfold T.maximum, T.minimum. rewrite !Z.max_l by lia.
  rewrite eye_ok by lia. cbn [bind]. fold m.
  replace ((n1 - 1) / n2 + 1)%Z with (Z.of_nat R1) by (unfold R1; lia).
  replace ((n2 - 1) / n1 + 1)%Z with (Z.of_nat R2) by (unfold R2; lia).
  destruct (tile_ok {| shape := [m; m]; data := concat (map (one_hot_row m) (seq 0 m)) |}
              [R1; R2] eq_refl) as (tiled & Et & Hts & Htwf & Htget).
  cbn [map] in Et. rewrite Et. cbn [bind]. clear Et.
  unfold zip_with in Hts. cbn [shape combine map fst snd] in Hts.
  destruct (getitem_corner tiled (m * R1) (m * R2) n1 n2 Hts Htwf
              ltac:(lia) ltac:(lia) Hc1 Hc2) as (out & Eo & Hos & Howf & Hoget).
  exists out. split; [exact Eo|]. split; [exact Hos|]. split; [exact Howf|].
  intros i j Hi Hj. rewrite Hoget by assumption.
  rewrite Htget by (rewrite Hts; repeat constructor; lia).
  unfold zip_with. cbn [shape combine map fst snd].
  apply get_eye; apply Nat.mod_upper_bound; lia.
Qed.
End TiledEye.

(** Two well-formed matrices of the same shape with the same entries are
    the same array. *)
Lemma matrix_ext {A : Type} `{Dtype A} (x y : ndarray A) (r c : nat) :
  shape x = [r; c] -> shape y = [r; c] -> wf x -> wf y ->
  (forall i j, i < r -> j < c -> get x [i; j] = get y [i; j]) -> x = y.
Proof.
  intros Hx Hy Hwx Hwy Hget. destruct x as [sx dx], y as [sy dy].
  cbn [shape data] in *. subst sx sy. f_equal.
  unfold wf in *. cbn [shape data size fold_right] in *.
  apply (nth_ext _ _ zero zero); [lia|].
  intros f Hf. rewrite Hwx in Hf.
  assert (Hc : c <> 0) by (intros ->; lia).
  specialize (Hget (f / c) (f mod c)
                ltac:(apply Nat.Div0.div_lt_upper_bound; lia)
                ltac:(apply Nat.mod_upper_bound; exact Hc)).
  unfold get in Hget. cbn [shape data ravel size fold_right] in Hget.
  rewrite !Nat.mul_1_r, Nat.add_0_r in Hget.
  replace (f / c * c + f mod c) with f in Hget
    by (rewrite (Nat.div_mod_eq f c) at 1; lia).
  exact Hget.
Qed.

(** X1. The tiled identity: for positive n1 and n2, [tiled_eye(n1, n2)] is
    an n1 x n2 matrix whose entry (i, j) is 1 when i and j agree modulo
    min(n1, n2) and 0 otherwise. *)
Theorem tiled_eye_entries (n1 n2 : Z) :
  (0 < n1)%Z -> (0 < n2)%Z ->
  exists out,
    tiled_eye n1 n2 = Ok out /\
    shape out = [Z.to_nat n1; Z.to_nat n2] /\ wf out /\
    forall i j, i < Z.to_nat n1 -> j < Z.to_nat n2 ->
      get out [i; j] =
      if i mod Z.to_nat (Z.min n1 n2) =? j mod Z.to_nat (Z.min n1 n2)
      then 1%Q else 0%Q.
Proof. intros H1 H2. apply tiled_eye_entries_pos; assumption. Qed.

Lemma tiled_eye_entries_witness :
  exists out,
    tiled_eye 2 5 = Ok out /\ shape out = [2; 5] /\
    get out [1; 3] = 1%Q /\ get out [1; 2] = 0%Q.
Proof.
  destruct (tiled_eye_entries 2 5 ltac:(lia) ltac:(lia)) as (out & E & Hs & _ & Hget).
  exists out. split; [exact E|]. split; [exact Hs|]. split.
  - rewrite (Hget 1 3) by (cbn; lia). reflexivity.
  - rewrite (Hget 1 2) by (cbn; lia). reflexivity.
Defined.

(** X2. A square tiled identity is the identity matrix: for n > 0,
    [tiled_eye(n, n)] returns what [T.eye(n)] returns. *)
Theorem tiled_eye_square (n : Z) :
  (0 < n)%Z -> tiled_eye n n = T.eye n.
Proof.
  intros Hn.
  destruct (tiled_eye_entries_pos n n Hn Hn) as (out & E & Hs & Hwf & Hget).
  rewrite E, eye_ok by lia. f_equal.
  rewrite Z.min_id in Hget.
  apply (matrix_ext out _ (Z.to_nat n) (Z.to_nat n)); [assumption | reflexivity | assumption | |].
  - unfold wf. cbn [shape data size fold_right].
    rewrite <- flat_map_concat_map.
    rewrite (length_flat_map_uniform _ (Z.to_nat n) (Z.to_nat n))
      by (intros; apply length_one_hot_row). lia.
  - intros i j Hi Hj. rewrite Hget, get_eye by assumption.
    rewrite !Nat.mod_small by assumption. reflexivity.
Qed.

Lemma tiled_eye_square_witness :
  tiled_eye 3 3 = Ok {| shape := [3; 3]; data := [1; 0; 0; 0; 1; 0; 0; 0; 1]%Q |}.
Proof. rewrite (tiled_eye_square 3) by lia. reflexivity. Defined.

(** ** Windowed batch: further properties *)

(** Two well-formed arrays of the same shape with the same elements are
    the same array. *)
Lemma array_ext {A : Type} `{Dtype A} (x y : ndarray A) :
  shape x = shape y -> wf x -> wf y ->
  (forall idx, Forall2 lt idx (shape x) -> get x idx = get y idx) -> x = y.
Proof.
  intros Hs Hwx Hwy Hget. destruct x as [sx dx], y as [sy dy].
  cbn [shape data] in *. subst sy. f_equal.
  unfold wf in *. cbn [shape data] in *.
  apply (nth_ext _ _ zero zero); [lia|].
  intros f Hf. rewrite Hwx in Hf.
  specialize (Hget (unravel sx f) (unravel_lt sx f Hf)).
  unfold get in Hget. cbn [shape data] in Hget.
  rewrite ravel_unravel in Hget by assumption. exact Hget.
Qed.

(** X3. A window of one frame changes nothing: on a well-formed
    (time, batch, dim) array, [windowed_batch(source, 1)] returns the
    source. *)
Theorem windowed_batch_window_1 {A : Type} `{Dtype A}
  (source : ndarray A) (n_time n_batch n_dim : nat) :
  shape source = [n_time; n_batch; n_dim] -> wf source ->
  windowed_batch source 1 = Ok source.
Proof.
  intros Hs Hwf.
  destruct (windowed_batch_get source n_time n_batch n_dim 1 Hs Hwf ltac:(lia))
    as (out & E & Hos & Howf & Hget).
  rewrite E. f_equal.
  change (Z.to_nat 1) with 1 in Hos, Hget. rewrite Nat.mul_1_l in Hos.
  apply array_ext; [congruence | assumption | assumption |].
  intros idx Hidx. rewrite Hos in Hidx.
  inversion Hidx as [|t T0 idx1 s1 Ht H1]; subst.
  inversion H1 as [|b B0 idx2 s2 Hb H2]; subst.
  inversion H2 as [|d D0 idx3 s3 Hd H3]; subst.
  inversion H3; subst.
  specialize (Hget t b 0 d Ht Hb ltac:(lia) Hd).
  cbn [Nat.mul Nat.add] in Hget. rewrite Hget.
  change (Z.to_nat (1 - 1 / 2 - 1)) with 0.
  rewrite Nat.add_0_r, Nat.sub_0_r. cbn [Nat.leb Nat.add andb].
  destruct (t <? n_time) eqn:E0; [reflexivity | reflect_cmp; lia].
Qed.

Lemma windowed_batch_window_1_witness :
  windowed_batch {| shape := [2; 1; 2]; data := [1; 2; 3; 4]%Z |} 1
  = Ok {| shape := [2; 1; 2]; data := [1; 2; 3; 4]%Z |}.
Proof.
  apply (windowed_batch_window_1 _ 2 1 2); reflexivity.
Defined.

(** X4. The frame of a time step sits at block w_left of its own window:
    for a positive window, the output at (t, b, w_left*dim + d) is the
    source at (t, b, d). *)
Theorem windowed_batch_centre {A : Type} `{Dtype A}
  (source : ndarray A) (n_time n_batch n_dim : nat) (window : Z) :
  shape source = [n_time; n_batch; n_dim] -> wf source -> (0 < window)%Z ->
  exists out,
    windowed_batch source window = Ok out /\
    forall t b d, t < n_time -> b < n_batch -> d < n_dim ->
      get out [t; b; Z.to_nat (window - window / 2 - 1) * n_dim + d]
      = get source [t; b; d].
Proof.
  intros Hs Hwf Hw.
  destruct (windowed_batch_get source n_time n_batch n_dim window Hs Hwf Hw)
    as (out & E & _ & _ & Hget).
  exists out. split; [exact E|]. intros t b d Ht Hb Hd.
  pose proof (Z.div_pos window 2 ltac:(lia) ltac:(lia)).
  assert (window / 2 < window)%Z by (apply Z.div_lt; lia).
  rewrite Hget by (assumption || lia).
  set (wl := Z.to_nat (window - window / 2 - 1)).
  destruct (wl <=? t + wl) eqn:E1; [|reflect_cmp; lia].
  destruct (t + wl <? wl + n_time) eqn:E2; [|reflect_cmp; lia].
  cbn [andb]. do 3 f_equal. lia.
Qed.

Lemma windowed_batch_centre_witness :
  exists out,
    windowed_batch {| shape := [3; 1; 2]; data := [1; 2; 3; 4; 5; 6]%Z |} 4 = Ok out /\
    get out [2; 0; 1 * 2 + 1] = 6%Z.
Proof.
  destruct (windowed_batch_centre {| shape := [3; 1; 2]; data := [1; 2; 3; 4; 5; 6]%Z |}
              3 1 2 4 eq_refl eq_refl ltac:(lia)) as (out & E & Hget).
  exists out. split; [exact E|].
  change (get out [2; 0; 1 * 2 + 1])
    with (get out [2; 0; Z.to_nat (4 - 4 / 2 - 1) * 2 + 1]).
  rewrite Hget by lia. reflexivity.
Defined.

(** X5. What [windowed_batch] rejects: an input that is not 3-D fails the
    assertion, and on a 3-D input a window that is not positive fails
    because the left padding would have a negative length. *)
Theorem windowed_batch_rejects {A : Type} `{Dtype A} (source : ndarray A) (window : Z) :
  (ndim source <> 3 -> windowed_batch source window = Err (AssertionError "")) /\
  (ndim source = 3 -> (window <= 0)%Z -> windowed_batch source window = Err ValueError).
Proof.
  split.
  - intros Hnd. unfold windowed_batch.
    apply Nat.eqb_neq in Hnd. rewrite Hnd. reflexivity.
  - intros Hnd Hw. unfold windowed_batch. rewrite Hnd. cbn [Nat.eqb assert bind].
    assert (Hneg : (window - window / 2 - 1 < 0)%Z).
    { pose proof (Z.div_mod window 2 ltac:(lia)).
      pose proof (Z.mod_pos_bound window 2 ltac:(lia)). lia. }
    unfold T.zeros at 1, dims. cbn [forallb].
    apply Z.leb_gt in Hneg. rewrite Hneg. reflexivity.
Qed.

Lemma windowed_batch_rejects_witness :
  windowed_batch {| shape := [2; 2]; data := [1; 2; 3; 4]%Z |} 3 = Err (AssertionError "") /\
  windowed_batch {| shape := [2; 1; 2]; data := [1; 2; 3; 4]%Z |} 0 = Err ValueError.
Proof.
  split.
  - apply (windowed_batch_rejects {| shape := [2; 2]; data := [1; 2; 3; 4]%Z |} 3).
    cbn. lia.
  - apply (windowed_batch_rejects {| shape := [2; 1; 2]; data := [1; 2; 3; 4]%Z |} 0);
      [reflexivity | lia].
Defined.

(** ** Padding along the leading axis: rows *)

Lemma row_app_l {B : Type} (sz j : nat) (l l' : list B) :
  (j + 1) * sz <= length l -> row sz j (l ++ l') = row sz j l.
Proof.
  intros Hl. unfold row. rewrite skipn_app, firstn_app, length_skipn.
  replace (sz - (length l - j * sz)) with 0 by lia.
  rewrite firstn_O, app_nil_r. reflexivity.
Qed.

Lemma row_app_r {B : Type} (sz j k : nat) (l l' : list B) :
  length l = k * sz -> k <= j -> row sz j (l ++ l') = row sz (j - k) l'.
Proof.
  intros Hl Hk. unfold row. rewrite skipn_app.
  rewrite (skipn_all2 l) by nia. cbn [app]. rewrite Hl.
  replace (j * sz - k * sz) with ((j - k) * sz) by nia. reflexivity.
Qed.

Lemma row_firstn {B : Type} (sz j t : nat) (l : list B) :
  j < t -> row sz j (firstn (t * sz) l) = row sz j l.
Proof.
  intros Hj. unfold row. rewrite skipn_firstn_comm, firstn_firstn.
  f_equal. nia.
Qed.

Section PadRows.
Context {A : Type} `{Dtype A}.
Variables (source : ndarray A) (n : nat) (rest : list nat).
Hypothesis Hshape : shape source = n :: rest.
Hypothesis Hwf : wf source.

Lemma pad_leading_rows_value (pad_value : ndarray A) (target_axis_len : Z) :
  shape pad_value = 1 :: rest -> wf pad_value ->
  (0 <= target_axis_len < 2 ^ 31)%Z ->
  exists out,
    pad source 0 target_axis_len (Some pad_value) = Ok out /\
    shape out = Z.to_nat target_axis_len :: rest /\ wf out /\
    forall j, j < Z.to_nat target_axis_len ->
      leading_row out j = if j <? n then leading_row source j else data pad_value.
Proof.
  intros Hps Hpwf Ht.
  rewrite (pad_leading_value source n rest Hshape Hwf pad_value target_axis_len Hps Hpwf Ht).
  set (t := Z.to_nat target_axis_len). set (sz := size rest).
  assert (Hd : length (data source) = n * sz).
  { unfold wf in Hwf. rewrite Hwf, Hshape, size_cons. reflexivity. }
  assert (Hpd : length (data pad_value) = sz).
  { unfold wf in Hpwf. rewrite Hpwf, Hps, size_cons. unfold sz. lia. }
  eexists. split; [reflexivity|]. cbn [shape]. split; [reflexivity|]. split.
  - unfold wf. cbn [shape data]. rewrite length_app, length_firstn, length_concat_repeat.
    rewrite Hd, Hpd, size_cons. fold sz. nia.
  - intros j Hj. unfold leading_row, inner. rewrite Hshape. cbn [shape data skipn].
    fold sz. destruct (j <? n) eqn:E; reflect_cmp.
    + rewrite row_app_l by (rewrite length_firstn, Hd; nia).
      apply row_firstn. assumption.
    + rewrite (firstn_all2 (n := t * sz)) by (rewrite Hd; nia).
      rewrite (row_app_r sz j n) by assumption.
      rewrite row_concat.
      * apply nth_repeat_lt. lia.
      * apply Forall_forall. intros c Hc. apply repeat_spec in Hc. subst c. exact Hpd.
      * rewrite repeat_length. lia.
Qed.
End PadRows.

(** X6. Padding along axis 0: for a target length L with 0 <= L < 2^31,
    [pad(source, 0, L, pad_value)] has exactly L rows and the source's
    other dimensions; row j is row j of the source for j below the
    source's length and the padding row (zeros when no pad_value is given)
    from there on.  So a shorter target cuts the source and a longer one
    appends copies of the padding row. *)
Theorem pad_leading_rows {A : Type} `{Dtype A}
  (source : ndarray A) (n : nat) (rest : list nat)
  (pad_value : option (ndarray A)) (target_axis_len : Z) :
  shape source = n :: rest -> wf source ->
  (forall p, pad_value = Some p -> shape p = 1 :: rest /\ wf p) ->
  (0 <= target_axis_len < 2 ^ 31)%Z ->
  exists out,
    pad source 0 target_axis_len pad_value = Ok out /\
    shape out = Z.to_nat target_axis_len :: rest /\ wf out /\
    forall j, j < Z.to_nat target_axis_len ->
      leading_row out j =
      if j <? n then leading_row source j
      else match pad_value with
           | Some p => data p
           | None => repeat zero (size rest)
           end.
Proof.
  intros Hs Hwf Hpv Ht. destruct pad_value as [p|].
  - destruct (Hpv p eq_refl) as [Hps Hpwf].
    apply (pad_leading_rows_value source n rest Hs Hwf p); assumption.
  - assert (E : pad source 0 target_axis_len None =
                pad source 0 target_axis_len
                  (Some {| shape := 1 :: rest; data := repeat zero (size rest) |})).
    { unfold pad. rewrite (pad_value_default source n rest Hs). reflexivity. }
    rewrite E.
    apply (pad_leading_rows_value source n rest Hs Hwf
             {| shape := 1 :: rest; data := repeat zero (size rest) |});
      [reflexivity | | assumption].
    unfold wf. cbn [shape data]. rewrite repeat_length, size_cons. lia.
Qed.

Lemma pad_leading_rows_witness :
  exists out,
    pad {| shape := [2; 2]; data := [1; 2; 3; 4]%Z |} 0 4 None = Ok out /\
    shape out = [4; 2] /\
    leading_row out 1 = [3; 4]%Z /\ leading_row out 3 = [0; 0]%Z.
Proof.
  destruct (pad_leading_rows {| shape := [2; 2]; data := [1; 2; 3; 4]%Z |} 2 [2] None 4
              eq_refl eq_refl ltac:(discriminate) ltac:(lia))
    as (out & E & Hs & _ & Hrow).
  exists out. split; [exact E|]. split; [exact Hs|]. split.
  - rewrite (Hrow 1) by (cbn; lia). reflexivity.
  - rewrite (Hrow 3) by (cbn; lia). reflexivity.
Defined.

(** X7. Padding to the length the source already has returns the source:
    the one frame the code always appends (its workaround for a missing
    count of zero) is cut away again by the final slice. *)
Theorem pad_leading_same_length {A : Type} `{Dtype A}
  (source : ndarray A) (n : nat) (rest : list nat) (pad_value : option (ndarray A)) :
  shape source = n :: rest -> wf source ->
  (forall p, pad_value = Some p -> shape p = 1 :: rest /\ wf p) ->
  (Z.of_nat n < 2 ^ 31)%Z ->
  pad source 0 (Z.of_nat n) pad_value = Ok source.
Proof.
  intros Hs Hwf Hpv Hn.
  assert (Hd : length (data source) = n * size rest).
  { unfold wf in Hwf. rewrite Hwf, Hs, size_cons. reflexivity. }
  assert (Hres : forall p, shape p = 1 :: rest -> wf p ->
                   pad source 0 (Z.of_nat n) (Some p) = Ok source).
  { intros p Hps Hpwf.
    rewrite (pad_leading_value source n rest Hs Hwf p (Z.of_nat n) Hps Hpwf) by lia.
    rewrite Nat2Z.id, Nat.sub_diag. cbn [repeat concat].
    rewrite app_nil_r, firstn_all2 by lia.
    destruct source as [s d]. cbn [shape data] in *. rewrite Hs. reflexivity. }
  destruct pad_value as [p|].
  - destruct (Hpv p eq_refl). apply Hres; assumption.
  - assert (E : pad source 0 (Z.of_nat n) None =
                pad source 0 (Z.of_nat n)
                  (Some {| shape := 1 :: rest; data := repeat zero (size rest) |})).
    { unfold pad. rewrite (pad_value_default source n rest Hs). reflexivity. }
    rewrite E. apply Hres; [reflexivity|].
    unfold wf. cbn [shape data]. rewrite repeat_length, size_cons. lia.
Qed.

Lemma pad_leading_same_length_witness :
  pad {| shape := [3]; data := [5; 6; 7]%Z |} 0 3 None
  = Ok {| shape := [3]; data := [5; 6; 7]%Z |}.
Proof.
  apply (pad_leading_same_length {| shape := [3]; data := [5; 6; 7]%Z |} 3 [] None);
    [reflexivity | reflexivity | discriminate | lia].
Defined.

(** ** Upsampling along the leading axis *)

Lemma length_flat_map_repeat_seq (n F : nat) :
  length (flat_map (fun j => repeat j F) (seq 0 n)) = n * F.
Proof.
  apply length_flat_map_uniform. intros. apply repeat_length.
Qed.

Lemma nth_flat_map_repeat_seq (n F j : nat) :
  j < n * F -> nth j (flat_map (fun i => repeat i F) (seq 0 n)) 0 = j / F.
Proof.
  intros Hj. assert (HF : F <> 0) by (intros ->; lia).
  pose proof (Nat.div_mod_eq j F) as Hdm.
  pose proof (Nat.mod_upper_bound j F HF) as Hm.
  assert (Hq : j / F < n) by (apply Nat.Div0.div_lt_upper_bound; lia).
  rewrite Hdm at 1. rewrite (Nat.mul_comm F).
  rewrite (nth_flat_map_uniform (fun i => repeat i F) n F (j / F) (j mod F))
    by (assumption || (intros; apply repeat_length)).
  apply nth_repeat_lt. assumption.
Qed.

Section UpsampleRows.
Context {A : Type} `{Dtype A}.
Variables (source : ndarray A) (n : nat) (rest : list nat) (factor : Q).
Hypothesis Hshape : shape source = n :: rest.
Hypothesis Hwf : wf source.
Hypothesis Hint : is_int factor = true.
Hypothesis Hpos : (0 < int factor)%Z.

Lemma length_data_source : length (data source) = n * size rest.
Proof. unfold wf in Hwf. rewrite Hwf, Hshape, size_cons. reflexivity. Qed.

Lemma repeat_leading_rows :
  exists up,
    T.repeat source (int factor) 0 = Ok up /\
    shape up = n * Z.to_nat (int factor) :: rest /\ wf up /\
    forall j, j < n * Z.to_nat (int factor) ->
      leading_row up j = leading_row source (j / Z.to_nat (int factor)).
Proof.
  set (F := Z.to_nat (int factor)).
  assert (HF : 0 < F) by (unfold F; lia).
  pose proof length_data_source as Hd.
  unfold T.repeat. destruct (int factor <? 0)%Z eqn:E; [reflect_cmp; lia|].
  unfold ndim, dim. rewrite Hshape. cbn [length Nat.ltb Nat.leb negb nth].
  rewrite (take_axis0 source n rest) by assumption.
  fold F. rewrite length_flat_map_repeat_seq.
  eexists. split; [reflexivity|]. cbn [shape]. split; [reflexivity|].
  set (idxs := flat_map (fun j => repeat j F) (seq 0 n)).
  assert (Hidx : idxs = map (fun j => nth j idxs 0) (seq 0 (n * F))).
  { assert (Hl : length idxs = n * F) by apply length_flat_map_repeat_seq.
    rewrite <- Hl. symmetry. apply map_nth_seq. }
  assert (Hrows : forall j, j < n * F ->
                    length (row (size rest) (nth j idxs 0) (data source)) = size rest).
  { intros j Hj. apply length_row. unfold idxs.
    rewrite nth_flat_map_repeat_seq by assumption.
    assert (j / F < n) by (apply Nat.Div0.div_lt_upper_bound; lia).
    rewrite Hd. nia. }
  assert (Hdata : flat_map (fun j => row (size rest) j (data source)) idxs
                  = flat_map (fun j => row (size rest) (nth j idxs 0) (data source))
                      (seq 0 (n * F))).
  { rewrite Hidx at 1. rewrite !flat_map_concat_map, map_map. reflexivity. }
  split.
  - unfold wf. cbn [shape data]. rewrite Hdata.
    rewrite (length_flat_map_uniform _ (n * F) (size rest)) by exact Hrows.
    rewrite size_cons. reflexivity.
  - intros j Hj. unfold leading_row, inner. rewrite Hshape. cbn [shape data skipn].
    rewrite Hdata, flat_map_concat_map.
    rewrite row_concat.
    + rewrite (nth_map_seq (fun j => row (size rest) (nth j idxs 0) (data source)))
        by assumption.
      unfold idxs. rewrite nth_flat_map_repeat_seq by assumption. reflexivity.
    + apply Forall_forall. intros c Hc. apply in_map_iff in Hc.
      destruct Hc as [i [<- Hi]]. apply in_seq in Hi. apply Hrows. lia.
    + rewrite length_map, length_seq. assumption.
Qed.

Lemma last_frame :
  0 < n ->
  T.getitem source (slice_for_axis 0 (Slice (Some (-1)%Z) None None))
  = Ok {| shape := 1 :: rest; data := leading_row source (n - 1) |}.
Proof.
  intros Hn. change (slice_for_axis 0 ?s) with (repeat slice_all 0 ++ [s]).
  rewrite getitem_axis by (unfold ndim; rewrite ?Hshape; cbn [length]; (assumption || lia)).
  unfold dim. rewrite Hshape. cbn [nth]. rewrite slice_indices_last by assumption.
  cbn [bind]. rewrite (take_axis0 source n rest) by assumption.
  cbn [length flat_map]. rewrite app_nil_r.
  unfold leading_row, inner. rewrite Hshape. reflexivity.
Qed.
End UpsampleRows.

(** X8. Nearest-neighbour upsampling along axis 0 by a positive integer
    factor F turns n rows into n*F rows, row j of the result being row
    j / F of the source: every row is repeated F times in place. *)
Theorem upsample_leading_rows {A : Type} `{Dtype A}
  (source : ndarray A) (n : nat) (rest : list nat) (factor : Q) :
  shape source = n :: rest -> wf source ->
  is_int factor = true -> (0 < int factor)%Z ->
  exists up,
    upsample source 0 factor "nearest-neighbor" None = Ok up /\
    shape up = n * Z.to_nat (int factor) :: rest /\ wf up /\
    forall j, j < n * Z.to_nat (int factor) ->
      leading_row up j = leading_row source (j / Z.to_nat (int factor)).
Proof.
  intros Hs Hwf Hint Hpos.
  destruct (repeat_leading_rows source n rest factor Hs Hwf Hpos)
    as (up & E & Hus & Huwf & Hrow).
  exists up. split; [|auto].
  unfold upsample. rewrite Hint. cbn [String.eqb Ascii.eqb Bool.eqb andb assert bind].
  rewrite E. reflexivity.
Qed.

Lemma upsample_leading_rows_witness :
  exists up,
    upsample {| shape := [2; 2]; data := [1; 2; 3; 4]%Z |} 0 3 "nearest-neighbor" None
    = Ok up /\
    shape up = [6; 2] /\ leading_row up 4 = [3; 4]%Z.
Proof.
  destruct (upsample_leading_rows {| shape := [2; 2]; data := [1; 2; 3; 4]%Z |} 2 [2] 3
              eq_refl eq_refl eq_refl ltac:(reflexivity))
    as (up & E & Hs & _ & Hrow).
  exists up. split; [exact E|]. split; [exact Hs|].
  rewrite (Hrow 4) by (cbn; lia). reflexivity.
Defined.

(** X9. Upsampling along axis 0 to a given length: for a non-empty source,
    a positive integer factor F and a target length L with 0 <= L < 2^31,
    the result has exactly L rows and row j is row min(j / F, n - 1) of
    the source: the repeated rows, cut at L, or continued with the last
    source row up to L. *)
Theorem upsample_leading_target {A : Type} `{Dtype A}
  (source : ndarray A) (n : nat) (rest : list nat) (factor : Q) (target_axis_len : Z) :
  shape source = n :: rest -> wf source -> 0 < n ->
  is_int factor = true -> (0 < int factor)%Z ->
  (0 <= target_axis_len < 2 ^ 31)%Z ->
  exists up,
    upsample source 0 factor "nearest-neighbor" (Some target_axis_len) = Ok up /\
    shape up = Z.to_nat target_axis_len :: rest /\ wf up /\
    forall j, j < Z.to_nat target_axis_len ->
      leading_row up j
      = leading_row source (Nat.min (j / Z.to_nat (int factor)) (n - 1)).
Proof.
  intros Hs Hwf Hn Hint Hpos Ht.
  destruct (repeat_leading_rows source n rest factor Hs Hwf Hpos)
    as (rep & E & Hrs & Hrwf & Hrow).
  set (F := Z.to_nat (int factor)) in *.
  assert (HF : 0 < F) by (unfold F; lia).
  pose proof (length_data_source source n rest Hs Hwf) as Hd.
  assert (Hlast : wf {| shape := 1 :: rest; data := leading_row source (n - 1) |}).
  { unfold wf, leading_row, inner. rewrite Hs. cbn [shape data skipn].
    rewrite length_row by (rewrite Hd; nia). rewrite size_cons. lia. }
  destruct (pad_leading_rows_value rep (n * F) rest Hrs Hrwf
              {| shape := 1 :: rest; data := leading_row source (n - 1) |}
              target_axis_len eq_refl Hlast Ht) as (up & Eu & Hus & Huwf & Hurow).
  exists up. split; [|split; [exact Hus|split; [exact Huwf|]]].
  - unfold upsample. rewrite Hint.
    cbn [String.eqb Ascii.eqb Bool.eqb andb assert bind].
    rewrite E. cbn [bind]. rewrite (last_frame source n rest Hs Hwf Hn). cbn [bind].
    exact Eu.
  - intros j Hj. rewrite Hurow by assumption. cbn [data].
    destruct (j <? n * F) eqn:Ej; reflect_cmp.
    + rewrite Hrow by assumption.
      assert (j / F < n) by (apply Nat.Div0.div_lt_upper_bound; lia).
      rewrite Nat.min_l by lia. reflexivity.
    + assert (n <= j / F) by (apply Nat.div_le_lower_bound; lia).
      rewrite Nat.min_r by lia. reflexivity.
Qed.

Lemma upsample_leading_target_witness :
  exists up,
    upsample {| shape := [2; 2]; data := [1; 2; 3; 4]%Z |} 0 2 "nearest-neighbor" (Some 6%Z)
    = Ok up /\
    shape up = [6; 2] /\ leading_row up 1 = [1; 2]%Z /\ leading_row up 5 = [3; 4]%Z.
Proof.
  destruct (upsample_leading_target {| shape := [2; 2]; data := [1; 2; 3; 4]%Z |} 2 [2] 2 6
              eq_refl eq_refl ltac:(lia) eq_refl ltac:(reflexivity) ltac:(lia))
    as (up & E & Hs & _ & Hrow).
  exists up. split; [exact E|]. split; [exact Hs|]. split.
  - rewrite (Hrow 1) by (cbn; lia). reflexivity.
  - rewrite (Hrow 5) by (cbn; lia). reflexivity.
Defined.

(** ** Downsampling along the leading axis *)

Section DownsampleLeading.
Variables (source : ndarray Q) (n : nat) (rest : list nat) (factor : Q).
Variables (method : string) (f : list Q -> Q).
Hypothesis Hshape : shape source = n :: rest.
Hypothesis Hwf : wf source.
Hypothesis Hint : is_int factor = true.
Hypothesis Hpos : (0 < int factor)%Z.
Hypothesis Hmethod : method_reduction method = Some f.

Lemma downsample_leading_data :
  downsample source 0 factor method =
  Ok {| shape := n / Z.to_nat (int factor) :: rest;
        data := flat_map
                  (fun blk =>
                     map (fun c => f (map (fun r => nth c r 0%Q)
                                        (chunks (Z.to_nat (int factor)) (size rest) blk)))
                       (seq 0 (size rest)))
                  (chunks (n / Z.to_nat (int factor))
                     (Z.to_nat (int factor) * size rest) (data source)) |}.
Proof.
  set (F := Z.to_nat (int factor)). set (sz := size rest).
  assert (HF : 0 < F) by (unfold F; lia).
  assert (HFz : int factor = Z.of_nat F) by (unfold F; lia).
  assert (Hd : length (data source) = n * sz).
  { unfold wf in Hwf. rewrite Hwf, Hshape, size_cons. reflexivity. }
  assert (Hq : n / F * F <= n) by (pose proof (Nat.Div0.mul_div_le n F); lia).
  unfold downsample. rewrite Hint. cbn [assert bind].
  unfold shape_at. rewrite Hshape. cbn [nth_error bind].
  unfold int_div. destruct (int factor =? 0)%Z eqn:E0; [reflect_cmp; lia|].
  cbn [bind]. rewrite HFz, <- Nat2Z.inj_div, <- Nat2Z.inj_mul.
  change (slice_for_axis 0 ?s) with [s].
  rewrite (getitem_upto source n rest (Some 0%Z))
    by (auto; lia).
  cbn [bind shape nth_error]. rewrite Nat2Z.id.
  replace (Nat.min (n / F * F) n) with (n / F * F) by lia.
  rewrite <- Nat2Z.inj_div, Nat.div_mul by lia. cbn [bind].
  rewrite shape_all_of_nat. cbn [shape firstn skipn Nat.add map app].
  change (Z.of_nat (n / F) :: Z.of_nat F :: map Z.of_nat rest)
    with (map Z.of_nat (n / F :: F :: rest)).
  rewrite reshape_ok by (cbn [shape]; rewrite !size_cons; ring).
  cbn [bind].
  assert (Hred : forall g, T.reduce g
                   {| shape := n / F :: F :: rest;
                      data := firstn (n / F * F * size rest) (data source) |} (0 + 1)
                 = Ok {| shape := n / F :: rest;
                         data := flat_map
                                   (fun blk =>
                                      map (fun c => g (map (fun r => nth c r 0%Q)
                                                         (chunks F sz blk)))
                                        (seq 0 sz))
                                   (chunks (n / F) (F * sz) (data source)) |}).
  { intros g. unfold T.reduce, ndim, dim, outer, inner, remove_at.
    cbn [shape data length Nat.add Nat.ltb Nat.leb negb nth firstn skipn app].
    destruct (F =? 0) eqn:EF; [reflect_cmp; lia|].
    replace (size [n / F]) with (n / F) by (cbn [size fold_right]; lia).
    fold sz. rewrite chunks_firstn by nia. reflexivity. }
  unfold method_reduction in Hmethod. unfold T.mean, T.max, T.min.
  destruct (String.eqb method "average").
  - injection Hmethod as <-. apply Hred.
  - destruct (String.eqb method "max").
    + injection Hmethod as <-. apply Hred.
    + destruct (String.eqb method "min"); [|discriminate].
      injection Hmethod as <-. apply Hred.
Qed.

Lemma downsample_leading_entries :
  exists out,
    downsample source 0 factor method = Ok out /\
    shape out = n / Z.to_nat (int factor) :: rest /\ wf out /\
    forall q c, q < n / Z.to_nat (int factor) -> c < size rest ->
      nth c (leading_row out q) 0%Q =
      f (map (fun k => nth c (leading_row source (q * Z.to_nat (int factor) + k)) 0%Q)
           (seq 0 (Z.to_nat (int factor)))).
Proof.
  rewrite downsample_leading_data.
  set (F := Z.to_nat (int factor)). set (sz := size rest).
  assert (HF : 0 < F) by (unfold F; lia).
  assert (Hd : length (data source) = n * sz).
  { unfold wf in Hwf. rewrite Hwf, Hshape, size_cons. reflexivity. }
  assert (Hq : n / F * F <= n) by (pose proof (Nat.Div0.mul_div_le n F); lia).
  eexists. split; [reflexivity|]. cbn [shape]. split; [reflexivity|].
  set (g := fun blk : list Q =>
              map (fun c => f (map (fun r => nth c r 0%Q) (chunks F sz blk))) (seq 0 sz)).
  assert (Hdata : flat_map g (chunks (n / F) (F * sz) (data source))
                  = flat_map (fun q => g (row (F * sz) q (data source))) (seq 0 (n / F))).
  { rewrite chunks_as_rows, !flat_map_concat_map, map_map. reflexivity. }
  assert (Hlen : forall q, q < n / F -> length (g (row (F * sz) q (data source))) = sz).
  { intros q _. unfold g. rewrite length_map, length_seq. reflexivity. }
  split.
  - unfold wf. cbn [shape data]. rewrite Hdata.
    rewrite (length_flat_map_uniform _ (n / F) sz) by exact Hlen.
    rewrite size_cons. reflexivity.
  - intros q c Hqn Hc. unfold leading_row, inner. rewrite Hshape. cbn [shape data skipn].
    fold sz. rewrite Hdata. rewrite nth_row by assumption.
    rewrite (nth_flat_map_uniform _ (n / F) sz q c) by (assumption || exact Hlen).
    unfold g. rewrite (nth_map_seq (fun c => f _)) by assumption.
    f_equal. rewrite chunks_as_rows, map_map. apply map_ext_in.
    intros k Hk. apply in_seq in Hk.
    rewrite (nth_row sz k) by assumption.
    rewrite (nth_row (F * sz) q) by nia.
    rewrite (nth_row sz (q * F + k)) by assumption. f_equal. ring.
Qed.
End DownsampleLeading.

(** X10. Downsampling along axis 0 by a positive integer factor F with
    method average, max or min: n rows become n / F rows (the last n mod F
    rows are dropped), and entry c of row q is the mean, greatest or least
    of the entries c of the F source rows q*F .. q*F + F - 1. *)
Theorem downsample_leading_groups
  (source : ndarray Q) (n : nat) (rest : list nat) (factor : Q)
  (method : string) (f : list Q -> Q) :
  shape source = n :: rest -> wf source ->
  is_int factor = true -> (0 < int factor)%Z ->
  method_reduction method = Some f ->
  exists out,
    downsample source 0 factor method = Ok out /\
    shape out = n / Z.to_nat (int factor) :: rest /\ wf out /\
    forall q c, q < n / Z.to_nat (int factor) -> c < size rest ->
      nth c (leading_row out q) 0%Q =
      f (map (fun k => nth c (leading_row source (q * Z.to_nat (int factor) + k)) 0%Q)
           (seq 0 (Z.to_nat (int factor)))).
Proof. intros. apply downsample_leading_entries; assumption. Qed.

Lemma downsample_leading_groups_witness :
  exists out,
    downsample {| shape := [5; 1]; data := [4; 1; 7; 3; 9]%Q |} 0 2 "max" = Ok out /\
    shape out = [2; 1] /\
    nth 0 (leading_row out 1) 0%Q = 7%Q.
Proof.
  destruct (downsample_leading_groups {| shape := [5; 1]; data := [4; 1; 7; 3; 9]%Q |}
              5 [1] 2 "max" Qmaximum eq_refl eq_refl eq_refl ltac:(reflexivity) eq_refl)
    as (out & E & Hs & _ & Hent).
  exists out. split; [exact E|]. split; [exact Hs|].
  rewrite (Hent 1 0) by (vm_compute; lia). reflexivity.
Defined.

(** ** Round trips along the leading axis *)

Lemma Qltb_irrefl (x : Q) : Qltb x x = false.
Proof. unfold Qltb. apply Z.ltb_irrefl. Qed.

Lemma Qmaximum_repeat (x : Q) (k : nat) : 0 < k -> Qmaximum (repeat x k) = x.
Proof.
  intros Hk. destruct k as [|k]; [lia|]. cbn [repeat Qmaximum].
  induction k as [|k IH]; [reflexivity|].
  cbn [repeat fold_left]. unfold Qmax at 2. rewrite Qltb_irrefl. apply IH. lia.
Qed.

Lemma Qminimum_repeat (x : Q) (k : nat) : 0 < k -> Qminimum (repeat x k) = x.
Proof.
  intros Hk. destruct k as [|k]; [lia|]. cbn [repeat Qminimum].
  induction k as [|k IH]; [reflexivity|].
  cbn [repeat fold_left]. unfold Qmin at 2. rewrite Qltb_irrefl. apply IH. lia.
Qed.

Lemma map_const_seq {B : Type} (g : nat -> B) (x : B) (s k : nat) :
  (forall i, s <= i < s + k -> g i = x) -> map g (seq s k) = repeat x k.
Proof.
  revert s. induction k as [|k IH]; intros s Hg; [reflexivity|].
  cbn [seq map repeat]. rewrite Hg by lia. f_equal. apply IH.
  intros i Hi. apply Hg. lia.
Qed.

(** Two well-formed arrays with the same leading rows are the same array. *)
Lemma rows_ext {A : Type} (x y : ndarray A) (n : nat) (rest : list nat) (d : A) :
  shape x = n :: rest -> shape y = n :: rest -> wf x -> wf y ->
  (forall q c, q < n -> c < size rest ->
     nth c (leading_row x q) d = nth c (leading_row y q) d) ->
  x = y.
Proof.
  intros Hx Hy Hwx Hwy Hrows. destruct x as [sx dx], y as [sy dy].
  unfold leading_row, inner, wf in *. cbn [shape data] in *. subst sx sy.
  cbn [skipn] in Hrows. rewrite size_cons in Hwx, Hwy. f_equal.
  apply (nth_ext _ _ d d); [lia|]. intros i Hi. rewrite Hwx in Hi.
  assert (Hsz : size rest <> 0) by (intros E; rewrite E in Hi; lia).
  specialize (Hrows (i / size rest) (i mod size rest)
                ltac:(apply Nat.Div0.div_lt_upper_bound; lia)
                ltac:(apply Nat.mod_upper_bound; exact Hsz)).
  rewrite !nth_row in Hrows by (apply Nat.mod_upper_bound; exact Hsz).
  replace (i / size rest * size rest + i mod size rest) with i in Hrows
    by (rewrite (Nat.div_mod_eq i (size rest)) at 1; lia).
  exact Hrows.
Qed.

Section RoundTripExact.
Variables (source : ndarray Q) (n : nat) (rest : list nat) (factor : Q).
Variables (method : string) (f : list Q -> Q).
Hypothesis Hshape : shape source = n :: rest.
Hypothesis Hwf : wf source.
Hypothesis Hint : is_int factor = true.
Hypothesis Hpos : (0 < int factor)%Z.
Hypothesis Hmethod : method_reduction method = Some f.
Hypothesis Hf : forall x k, 0 < k -> f (repeat x k) = x.

Lemma downsample_upsample_leading_exact :
  exists up,
    upsample source 0 factor "nearest-neighbor" None = Ok up /\
    downsample up 0 factor method = Ok source.
Proof.
  set (F := Z.to_nat (int factor)).
  assert (HF : 0 < F) by (unfold F; lia).
  destruct (repeat_leading_rows source n rest factor Hshape Hwf Hpos)
    as (up & Eu & Hus & Huwf & Hurow).
  exists up. split.
  { unfold upsample. rewrite Hint.
    cbn [String.eqb Ascii.eqb Bool.eqb andb assert bind]. rewrite Eu. reflexivity. }
  destruct (downsample_leading_entries up (n * Z.to_nat (int factor)) rest factor
              method f Hus Huwf Hint Hpos Hmethod) as (down & Ed & Hds & Hdwf & Hent).
  fold F in Hus, Hurow, Hds, Hent. rewrite Nat.div_mul in Hds, Hent by lia.
  rewrite Ed. f_equal.
  apply (rows_ext down source n rest 0%Q); try assumption.
  intros q c Hq Hc. rewrite Hent by assumption.
  rewrite (map_const_seq _ (nth c (leading_row source q) 0%Q)).
  - apply Hf. exact HF.
  - intros k Hk. rewrite Hurow by nia. do 2 f_equal.
    apply div_block. lia.
Qed.
End RoundTripExact.

(** X11. Along axis 0, downsampling with method average undoes
    nearest-neighbour upsampling by the same positive integer factor, up
    to equality of fractions. *)
Theorem downsample_upsample_leading_average
  (source : ndarray Q) (n : nat) (rest : list nat) (factor : Q) :
  shape source = n :: rest -> wf source ->
  is_int factor = true -> (0 < int factor)%Z ->
  exists up down,
    upsample source 0 factor "nearest-neighbor" None = Ok up /\
    downsample up 0 factor "average" = Ok down /\
    array_Qeq down source.
Proof. intros. apply (downsample_upsample_leading source n rest factor); assumption. Qed.

Lemma downsample_upsample_leading_average_witness :
  exists up down,
    upsample {| shape := [2; 1]; data := [1 # 3; 5]%Q |} 0 3 "nearest-neighbor" None = Ok up /\
    downsample up 0 3 "average" = Ok down /\
    array_Qeq down {| shape := [2; 1]; data := [1 # 3; 5]%Q |}.
Proof.
  apply (downsample_upsample_leading_average
           {| shape := [2; 1]; data := [1 # 3; 5]%Q |} 2 [1] 3);
    reflexivity.
Defined.

(** X12. Along axis 0, downsampling with method max or min undoes
    nearest-neighbour upsampling by the same positive integer factor
    exactly: the result is the source. *)
Theorem downsample_upsample_leading_max_min
  (source : ndarray Q) (n : nat) (rest : list nat) (factor : Q) (method : string) :
  shape source = n :: rest -> wf source ->
  is_int factor = true -> (0 < int factor)%Z ->
  method = "max"%string \/ method = "min"%string ->
  exists up,
    upsample source 0 factor "nearest-neighbor" None = Ok up /\
    downsample up 0 factor method = Ok source.
Proof.
  intros Hs Hwf Hint Hpos [-> | ->].
  - apply (downsample_upsample_leading_exact source n rest factor "max" Qmaximum);
      try assumption; [reflexivity | apply Qmaximum_repeat].
  - apply (downsample_upsample_leading_exact source n rest factor "min" Qminimum);
      try assumption; [reflexivity | apply Qminimum_repeat].
Qed.

Lemma downsample_upsample_leading_max_min_witness :
  exists up,
    upsample {| shape := [2; 1]; data := [1 # 3; 5]%Q |} 0 3 "nearest-neighbor" None = Ok up /\
    downsample up 0 3 "min" = Ok {| shape := [2; 1]; data := [1 # 3; 5]%Q |}.
Proof.
  apply (downsample_upsample_leading_max_min
           {| shape := [2; 1]; data := [1 # 3; 5]%Q |} 2 [1] 3 "min");
    try reflexivity. right. reflexivity.
Defined.

(** ** Chunked time reversal: further properties *)

Lemma next_multiple_of_multiple (k c : nat) : 0 < c -> next_multiple (k * c) c = k * c.
Proof.
  intros Hc. unfold next_multiple.
  replace (k * c + c - 1) with (k * c + (c - 1)) by lia.
  rewrite div_block by lia. reflexivity.
Qed.

(** On a number of rows that is a multiple of the chunk size nothing is
    padded or cut: the chunks are reversed and joined. *)
Lemma chunked_reverse_rows_multiple {B : Type} (k c : nat) (zero_row : list B)
  (rows : list (list B)) :
  0 < c -> length rows = k * c ->
  chunked_reverse_rows c zero_row rows = concat (map (@rev (list B)) (chunks k c rows)).
Proof.
  intros Hc Hl. unfold chunked_reverse_rows. rewrite Hl.
  rewrite next_multiple_of_multiple by assumption.
  rewrite Nat.sub_diag, Nat.div_mul by lia. cbn [repeat]. rewrite app_nil_r.
  apply firstn_all2. rewrite (length_concat_uniform c).
  - rewrite length_map, length_chunks. lia.
  - apply Forall_forall. intros ch Hch. apply in_map_iff in Hch.
    destruct Hch as [ch' [<- Hch']]. rewrite length_rev.
    revert ch' Hch'. apply Forall_forall. apply chunks_length_each. lia.
Qed.

Lemma chunked_reverse_rows_twice {B : Type} (k c : nat) (zero_row : list B)
  (rows : list (list B)) :
  0 < c -> length rows = k * c ->
  chunked_reverse_rows c zero_row (chunked_reverse_rows c zero_row rows) = rows.
Proof.
  intros Hc Hl.
  assert (Hall : Forall (fun ch => length ch = c) (map (@rev (list B)) (chunks k c rows))).
  { apply Forall_forall. intros ch Hch. apply in_map_iff in Hch.
    destruct Hch as [ch' [<- Hch']]. rewrite length_rev.
    revert ch' Hch'. apply Forall_forall. apply chunks_length_each. lia. }
  rewrite (chunked_reverse_rows_multiple k c zero_row rows) by assumption.
  rewrite (chunked_reverse_rows_multiple k c)
    by (try assumption; rewrite (length_concat_uniform c) by assumption;
        rewrite length_map, length_chunks; reflexivity).
  pose proof (chunks_concat c _ Hall) as Hcc.
  rewrite length_map, length_chunks in Hcc. rewrite Hcc.
  rewrite map_map.
  rewrite (map_ext (fun x => rev (rev x)) (fun x => x)) by (intros; apply rev_involutive).
  rewrite map_id. apply concat_chunks_all. assumption.
Qed.

Lemma chunked_reverse_rows_whole {B : Type} (zero_row : list B) (rows : list (list B)) :
  0 < length rows ->
  chunked_reverse_rows (length rows) zero_row rows = rev rows.
Proof.
  intros Hn.
  rewrite (chunked_reverse_rows_multiple 1 (length rows)) by lia.
  cbn [chunks map concat]. rewrite firstn_all, app_nil_r. reflexivity.
Qed.

Lemma chunked_reverse_rows_single {B : Type} (zero_row : list B) (rows : list (list B)) :
  chunked_reverse_rows 1 zero_row rows = rows.
Proof.
  rewrite (chunked_reverse_rows_multiple (length rows) 1) by lia.
  induction rows as [|r rows IH]; [reflexivity|].
  cbn [length chunks map concat firstn skipn rev app]. f_equal. exact IH.
Qed.

(** A well-formed array is determined by its shape and its time steps. *)
Lemma time_rows_ext {A : Type} (x y : ndarray A) :
  shape x = shape y -> 1 <= ndim x -> wf x -> wf y ->
  time_rows x = time_rows y -> x = y.
Proof.
  intros Hs Hnd Hwx Hwy Hrows. destruct x as [sx dx], y as [sy dy].
  unfold time_rows, dim, inner, wf, ndim in *. cbn [shape data] in *. subst sy.
  destruct sx as [|n rest]; [cbn [length] in Hnd; lia|].
  cbn [nth skipn] in Hrows. rewrite size_cons in Hwx, Hwy. f_equal.
  rewrite <- (concat_chunks_all n (size rest) dx) by assumption.
  rewrite <- (concat_chunks_all n (size rest) dy) by assumption.
  rewrite Hrows. reflexivity.
Qed.

Lemma length_time_rows {A : Type} (x : ndarray A) (n : nat) (rest : list nat) :
  shape x = n :: rest -> length (time_rows x) = n.
Proof.
  intros Hs. unfold time_rows, dim. rewrite Hs. cbn [nth]. apply length_chunks.
Qed.

(** X13. When the time length is a multiple of the chunk size, chunked
    time reversal is an involution: applying it twice returns the
    source. *)
Theorem chunked_time_reverse_involutive_on_multiples {A : Type} `{Dtype A}
  (source : ndarray A) (n : nat) (rest : list nat) (chunk_size : Z) :
  shape source = n :: rest -> wf source ->
  (0 < chunk_size < 2 ^ 31)%Z -> (Z.of_nat n < 2 ^ 31)%Z ->
  n mod Z.to_nat chunk_size = 0 ->
  exists once,
    chunked_time_reverse source chunk_size = Ok once /\
    chunked_time_reverse once chunk_size = Ok source.
Proof.
  intros Hs Hwf Hc Hn Hmod.
  set (c := Z.to_nat chunk_size) in *.
  assert (Hcpos : 0 < c) by (unfold c; lia).
  assert (Hk : n = n / c * c).
  { pose proof (Nat.div_mod_eq n c). lia. }
  assert (Hnm : next_multiple n c = n).
  { rewrite Hk at 1. rewrite next_multiple_of_multiple by assumption. lia. }
  destruct (chunked_time_reverse_rows source n rest chunk_size Hs Hwf Hc
              ltac:(fold c; rewrite Hnm; exact Hn))
    as (once & E1 & Hs1 & Hwf1 & Hrows1).
  rewrite Hs in Hs1.
  destruct (chunked_time_reverse_rows once n rest chunk_size Hs1 Hwf1 Hc
              ltac:(fold c; rewrite Hnm; exact Hn))
    as (twice & E2 & Hs2 & Hwf2 & Hrows2).
  exists once. split; [exact E1|]. rewrite E2. f_equal.
  apply time_rows_ext; [congruence | unfold ndim; rewrite Hs2, Hs1; cbn [length]; lia
                       | assumption | assumption |].
  rewrite Hrows2, Hrows1. fold c.
  apply (chunked_reverse_rows_twice (n / c) c); [assumption|].
  rewrite (length_time_rows source n rest Hs). exact Hk.
Qed.

Lemma chunked_time_reverse_involutive_on_multiples_witness :
  exists once,
    chunked_time_reverse {| shape := [4]; data := [1; 2; 3; 4]%Z |} 2 = Ok once /\
    chunked_time_reverse once 2 = Ok {| shape := [4]; data := [1; 2; 3; 4]%Z |}.
Proof.
  apply (chunked_time_reverse_involutive_on_multiples
           {| shape := [4]; data := [1; 2; 3; 4]%Z |} 4 [] 2);
    [reflexivity | reflexivity | lia | lia | reflexivity].
Defined.

(** X14. With the chunk size equal to the time length n, for 0 < n < 2^31,
    the whole time axis is reversed: the result has the shape of the
    source and its time steps are those of the source in reverse order. *)
Theorem chunked_time_reverse_whole_axis {A : Type} `{Dtype A}
  (source : ndarray A) (n : nat) (rest : list nat) :
  shape source = n :: rest -> wf source -> 0 < n -> (Z.of_nat n < 2 ^ 31)%Z ->
  exists out,
    chunked_time_reverse source (Z.of_nat n) = Ok out /\
    shape out = shape source /\ wf out /\
    time_rows out = rev (time_rows source).
Proof.
  intros Hs Hwf Hn Hb.
  assert (Hnm : next_multiple n n = n).
  { pose proof (next_multiple_of_multiple 1 n Hn) as Hx.
    rewrite Nat.mul_1_l in Hx. exact Hx. }
  destruct (chunked_time_reverse_rows source n rest (Z.of_nat n) Hs Hwf ltac:(lia)
              ltac:(rewrite Nat2Z.id, Hnm; exact Hb))
    as (out & E & Hso & Hwfo & Hrows).
  exists out. split; [exact E|]. split; [exact Hso|]. split; [exact Hwfo|].
  rewrite Hrows, Nat2Z.id.
  rewrite <- (length_time_rows source n rest Hs) at 1.
  apply chunked_reverse_rows_whole. rewrite (length_time_rows source n rest Hs). exact Hn.
Qed.

Lemma chunked_time_reverse_whole_axis_witness :
  exists out,
    chunked_time_reverse {| shape := [3; 2]; data := [1; 2; 3; 4; 5; 6]%Z |} 3 = Ok out /\
    time_rows out = [[5; 6]; [3; 4]; [1; 2]]%Z.
Proof.
  destruct (chunked_time_reverse_whole_axis
              {| shape := [3; 2]; data := [1; 2; 3; 4; 5; 6]%Z |} 3 [2]
              eq_refl eq_refl ltac:(lia) ltac:(lia)) as (out & E & _ & _ & Hrows).
  exists out. split; [exact E|]. rewrite Hrows. reflexivity.
Defined.

(** X15. With chunk size 1 chunked time reversal returns the source, for
    every source whose time length is below 2^31. *)
Theorem chunked_time_reverse_chunk_1 {A : Type} `{Dtype A}
  (source : ndarray A) (n : nat) (rest : list nat) :
  shape source = n :: rest -> wf source -> (Z.of_nat n < 2 ^ 31)%Z ->
  chunked_time_reverse source 1 = Ok source.
Proof.
  intros Hs Hwf Hb.
  assert (Hnm : next_multiple n 1 = n).
  { pose proof (next_multiple_of_multiple n 1 ltac:(lia)) as Hx.
    rewrite Nat.mul_1_r in Hx. exact Hx. }
  destruct (chunked_time_reverse_rows source n rest 1 Hs Hwf ltac:(lia)
              ltac:(change (Z.to_nat 1) with 1; rewrite Hnm; exact Hb))
    as (out & E & Hso & Hwfo & Hrows).
  rewrite E. f_equal.
  apply time_rows_ext; [assumption | unfold ndim; rewrite Hso, Hs; cbn [length]; lia
                       | assumption | assumption |].
  rewrite Hrows. change (Z.to_nat 1) with 1. apply chunked_reverse_rows_single.
Qed.

Lemma chunked_time_reverse_chunk_1_witness :
  chunked_time_reverse {| shape := [3]; data := [1; 2; 3]%Z |} 1
  = Ok {| shape := [3]; data := [1; 2; 3]%Z |}.
Proof.
  apply (chunked_time_reverse_chunk_1 {| shape := [3]; data := [1; 2; 3]%Z |} 3 []);
    [reflexivity | reflexivity | lia].
Defined.

(** ** The gradient filter: further properties *)

Lemma grad_one (self : GradDiscardOutOfBound) (g_out : ndarray Q) :
  T.switch (T.or_ (T.lt g_out (lower_bound self)) (T.gt g_out (upper_bound self)))
    zero g_out
  = {| shape := shape g_out;
       data := map (fun v => if Qltb v (lower_bound self) || Qltb (upper_bound self) v
                             then 0%Q else v) (data g_out) |}.
Proof.
  rewrite <- grad_data. reflexivity.
Qed.

Lemma grad_map (self : GradDiscardOutOfBound) (args g_outs : list (ndarray Q)) :
  GradDiscardOutOfBound_grad self args g_outs =
  map (fun g_out =>
         {| shape := shape g_out;
            data := map (fun v => if Qltb v (lower_bound self)
                                     || Qltb (upper_bound self) v
                                  then 0%Q else v) (data g_out) |}) g_outs.
Proof.
  unfold GradDiscardOutOfBound_grad. apply map_ext. intros g. apply grad_one.
Qed.

(** X16. The backward pass lets no value through that compares below
    lower_bound or above upper_bound: it returns as many gradients as it
    receives, each of the shape of its input, and every value of an output
    is either 0 or the value at the same position of the input, and in the
    latter case that value is neither less than lower_bound nor greater
    than upper_bound. *)
Theorem grad_discard_outputs_bounded (self : GradDiscardOutOfBound)
  (args g_outs : list (ndarray Q)) :
  length (GradDiscardOutOfBound_grad self args g_outs) = length g_outs /\
  map (@shape Q) (GradDiscardOutOfBound_grad self args g_outs) = map (@shape Q) g_outs /\
  Forall2 (fun g_out g =>
             Forall2 (fun v v' =>
                        v' = 0%Q \/
                        (v' = v /\ ~ (v < lower_bound self)%Q /\ ~ (upper_bound self < v)%Q))
               (data g_out) (data g))
    g_outs (GradDiscardOutOfBound_grad self args g_outs).
Proof.
  rewrite grad_map. split; [apply length_map|]. split.
  - rewrite map_map. reflexivity.
  - induction g_outs as [|g_out l IH]; [constructor|].
    cbn [map]. constructor; [|exact IH]. cbn [data].
    induction (data g_out) as [|v d IHd]; [constructor|].
    cbn [map]. constructor; [|exact IHd].
    destruct (Qltb v (lower_bound self)) eqn:E1; [left; reflexivity|].
    destruct (Qltb (upper_bound self) v) eqn:E2; [left; reflexivity|].
    right. cbn [orb]. split; [reflexivity|]. split.
    + intros Hlt. apply Qltb_lt in Hlt. rewrite Hlt in E1. discriminate.
    + intros Hlt. apply Qltb_lt in Hlt. rewrite Hlt in E2. discriminate.
Qed.

(** X17. Filtering is idempotent: passing filtered gradients through the
    backward pass again leaves them as they are. *)
Theorem grad_discard_idempotent (self : GradDiscardOutOfBound)
  (args args' g_outs : list (ndarray Q)) :
  GradDiscardOutOfBound_grad self args'
    (GradDiscardOutOfBound_grad self args g_outs)
  = GradDiscardOutOfBound_grad self args g_outs.
Proof.
  rewrite !grad_map, map_map. apply map_ext. intros g. cbn [shape data].
  f_equal. rewrite map_map. apply map_ext. intros v.
  destruct (Qltb v (lower_bound self) || Qltb (upper_bound self) v) eqn:E.
  - destruct (Qltb 0 (lower_bound self) || Qltb (upper_bound self) 0); reflexivity.
  - rewrite E. reflexivity.
Qed.

(** ** One-hot encoding: entries *)

(** X18. The entries of the one-hot encoding: for indices in [0, K) and
    below 2^31, entry k of the trailing vector at any position is 1 when
    the index at that position is k and 0 otherwise. *)
Theorem class_idx_seq_to_1_of_k_entries (seq : ndarray Z) (num_classes : Z) :
  wf seq -> (0 <= num_classes)%Z ->
  Forall (fun v => (0 <= v < num_classes)%Z /\ (v < 2 ^ 31)%Z) (data seq) ->
  exists m, class_idx_seq_to_1_of_k seq num_classes = Ok m /\
    forall p k, p < size (shape seq) -> k < Z.to_nat num_classes ->
      nth k (trailing_vector m p) 0%Q =
      if (nth p (data seq) 0 =? Z.of_nat k)%Z then 1%Q else 0%Q.
Proof.
  intros Hwf HK Hv.
  assert (Hrange : Forall (fun v => (- num_classes <= T.cast_int32 v < num_classes)%Z)
                     (data seq)).
  { eapply Forall_impl; [|exact Hv]. cbv beta. intros v [Hv1 Hv2].
    rewrite cast_int32_id by lia. lia. }
  destruct (class_idx_rows seq num_classes Hwf HK Hrange) as (m & E & _ & _ & Hrow).
  exists m. split; [exact E|]. intros p k Hp Hk. rewrite Hrow by assumption.
  assert (Hin : In (nth p (data seq) 0%Z) (data seq))
    by (apply nth_In; unfold wf in Hwf; lia).
  rewrite Forall_forall in Hv. destruct (Hv _ Hin) as [Hv1 Hv2].
  assert (Hsel : selected_row num_classes (nth p (data seq) 0%Z) = nth p (data seq) 0%Z).
  { unfold selected_row. rewrite cast_int32_id by lia.
    destruct (nth p (data seq) 0 <? 0)%Z eqn:E0; reflect_cmp; lia. }
  rewrite Hsel, nth_one_hot_row by assumption.
  destruct (Z.to_nat (nth p (data seq) 0%Z) =? k) eqn:E1;
    destruct (nth p (data seq) 0 =? Z.of_nat k)%Z eqn:E2;
    reflect_cmp; try reflexivity; lia.
Qed.

Lemma class_idx_seq_to_1_of_k_entries_witness :
  exists m,
    class_idx_seq_to_1_of_k {| shape := [2]; data := [2; 0]%Z |} 3 = Ok m /\
    nth 2 (trailing_vector m 0) 0%Q = 1%Q /\ nth 1 (trailing_vector m 0) 0%Q = 0%Q.
Proof.
  destruct (class_idx_seq_to_1_of_k_entries {| shape := [2]; data := [2; 0]%Z |} 3
              eq_refl ltac:(lia) ltac:(repeat constructor; lia)) as (m & E & Hent).
  exists m. split; [exact E|]. split.
  - rewrite (Hent 0 2) by (cbn; lia). reflexivity.
  - rewrite (Hent 0 1) by (cbn; lia). reflexivity.
Defined.

(** X19. Negative indices are not rejected: an index v with -K <= v < 0
    (and v >= -2^31) is encoded as class K + v, the way the engine counts
    a negative index from the end of the identity matrix. *)
Theorem class_idx_seq_to_1_of_k_negative (seq : ndarray Z) (num_classes : Z) :
  wf seq -> (0 <= num_classes)%Z ->
  Forall (fun v => (- num_classes <= v < 0)%Z /\ (- 2 ^ 31 <= v)%Z) (data seq) ->
  exists m, class_idx_seq_to_1_of_k seq num_classes = Ok m /\
    shape m = shape seq ++ [Z.to_nat num_classes] /\
    forall p, p < size (shape seq) ->
      trailing_vector m p =
      one_hot_row (Z.to_nat num_classes)
        (Z.to_nat (num_classes + nth p (data seq) 0%Z)).
Proof.
  intros Hwf HK Hv.
  assert (Hrange : Forall (fun v => (- num_classes <= T.cast_int32 v < num_classes)%Z)
                     (data seq)).
  { eapply Forall_impl; [|exact Hv]. cbv beta. intros v [Hv1 Hv2].
    rewrite cast_int32_id by lia. lia. }
  destruct (class_idx_rows seq num_classes Hwf HK Hrange) as (m & E & Hs & _ & Hrow).
  exists m. split; [exact E|]. split; [exact Hs|].
  intros p Hp. rewrite Hrow by assumption.
  assert (Hin : In (nth p (data seq) 0%Z) (data seq))
    by (apply nth_In; unfold wf in Hwf; lia).
  rewrite Forall_forall in Hv. destruct (Hv _ Hin) as [Hv1 Hv2].
  unfold selected_row. rewrite cast_int32_id by lia.
  destruct (nth p (data seq) 0 <? 0)%Z eqn:E0; reflect_cmp; [|lia].
  do 2 f_equal. lia.
Qed.

Lemma class_idx_seq_to_1_of_k_negative_witness :
  exists m,
    class_idx_seq_to_1_of_k {| shape := [1]; data := [-1]%Z |} 3 = Ok m /\
    shape m = [1; 3] /\ trailing_vector m 0 = [0; 0; 1]%Q.
Proof.
  destruct (class_idx_seq_to_1_of_k_negative {| shape := [1]; data := [-1]%Z |} 3
              eq_refl ltac:(lia) ltac:(repeat constructor; lia)) as (m & E & Hs & Hrow).
  exists m. split; [exact E|]. split; [exact Hs|].
  rewrite (Hrow 0) by (cbn; lia). reflexivity.
Defined.

(** ** Upsampling to a target length along the second axis *)

Lemma last_slice_indices (r : nat) :
  0 < r -> slice_indices (Slice (Some (-1)%Z) None None) r = Ok [r - 1].
Proof.
  intros Hr. unfold slice_indices. cbn [step start stop].
  change (1 =? 0)%Z with false. change (1 <? 0)%Z with false.
  change (-1 <? 0)%Z with true. cbv iota.
  rewrite Z.max_l by lia.
  destruct (-1 + Z.of_nat r <? Z.of_nat r)%Z eqn:E; reflect_cmp; [|lia].
  replace (Z.of_nat r - (-1 + Z.of_nat r) + 1 - 1)%Z with 1%Z by lia.
  change (Z.to_nat (1 / 1)) with 1. cbn [seq map]. do 2 f_equal. lia.
Qed.

(** X20. Upsampling to a target length along axis 1 fails: for an array
    with at least two rows (leading dimension r >= 2) and an integer
    factor, [upsample] with [target_axis_len] given raises a [ValueError],
    whatever the target length.  The frame used for padding is cut from
    the leading dimension, so it does not fit beside the repeated array. *)
Theorem upsample_axis1_target_fails {A : Type} `{Dtype A}
  (source : ndarray A) (r c : nat) (rest : list nat) (factor : Q)
  (target_axis_len : Z) :
  shape source = r :: c :: rest -> 2 <= r -> is_int factor = true ->
  upsample source 1 factor "nearest-neighbor" (Some target_axis_len)
  = Err ValueError.
Proof.
  intros Hs Hr Hint. unfold upsample. rewrite Hint.
  cbn [String.eqb Ascii.eqb Bool.eqb andb assert bind].
  unfold T.repeat at 1.
  destruct (int factor <? 0)%Z; [reflexivity|].
  unfold ndim. rewrite Hs. cbn [length Nat.ltb Nat.leb negb bind].
  unfold T.getitem, slice_for_axis.
  change (Z.to_nat (Z.of_nat 1 - 1)) with 0. cbn [List.repeat app length].
  unfold ndim. rewrite Hs. cbn [length Nat.leb T.getitem_from].
  unfold dim. rewrite Hs. cbn [nth].
  rewrite last_slice_indices by lia. cbn [bind].
  unfold pad. cbn [bind].
  unfold shape_at. unfold take_axis at 1. cbn [shape]. rewrite Hs.
  unfold set_at at 1. cbn [firstn skipn app nth_error bind].
  set (num_missing := T.maximum _ 1).
  assert (Hnm : (0 <= num_missing)%Z) by (unfold num_missing, T.maximum; lia).
  unfold T.repeat.
  destruct (num_missing <? 0)%Z eqn:E; reflect_cmp; [lia|].
  unfold ndim. unfold take_axis at 1. cbn [shape]. rewrite Hs.
  unfold set_at at 1. cbn [firstn skipn app length Nat.ltb Nat.leb negb bind].
  unfold T.concatenate. cbn [fold_left bind].
  unfold T.join, ndim. unfold take_axis. cbn [shape]. rewrite Hs.
  unfold set_at, remove_at. cbn [firstn skipn app length Nat.ltb Nat.leb Nat.eqb andb].
  rewrite Nat.eqb_refl. cbn [andb].
  unfold list_eqb. cbn [length combine forallb fst snd].
  rewrite Nat.eqb_refl. cbn [andb].
  destruct (r =? 1) eqn:E1; reflect_cmp; [lia|]. reflexivity.
Qed.

Lemma upsample_axis1_target_fails_witness :
  upsample {| shape := [2; 2]; data := [1; 2; 3; 4]%Z |} 1 2
    "nearest-neighbor" (Some 5%Z) = Err ValueError.
Proof.
  apply (upsample_axis1_target_fails _ 2 2 []); [reflexivity | lia | reflexivity].
Defined.

(** ** Padding to a negative target length *)

Lemma slice_indices_upto_negative (k : Z) (n : nat) :
  (k < 0)%Z ->
  slice_indices (Slice (Some 0%Z) (Some k) None) n
  = Ok (seq 0 (Z.to_nat (k + Z.of_nat n))).
Proof.
  intros Hk. unfold slice_indices. cbn [step start stop].
  change (1 =? 0)%Z with false. change (1 <? 0)%Z with false.
  change (0 <? 0)%Z with false. cbv iota.
  destruct (k <? 0)%Z eqn:Ek; reflect_cmp; [|lia].
  rewrite Z.min_l by lia.
  destruct (0 <? Z.max (k + Z.of_nat n) 0)%Z eqn:E; reflect_cmp.
  - rewrite Z.add_simpl_r, Z.sub_0_r, Z.div_1_r.
    replace (Z.to_nat (Z.max (k + Z.of_nat n) 0)) with (Z.to_nat (k + Z.of_nat n)) by lia.
    rewrite map_to_nat_seq. reflexivity.
  - replace (Z.to_nat (k + Z.of_nat n)) with 0 by lia. reflexivity.
Qed.

Lemma pad_leading_negative_value {A : Type} `{Dtype A}
  (source : ndarray A) (n : nat) (rest : list nat)
  (pad_value : ndarray A) (target_axis_len : Z) :
  shape source = n :: rest -> wf source ->
  shape pad_value = 1 :: rest -> wf pad_value ->
  (- 2 ^ 31 <= target_axis_len < 0)%Z ->
  pad source 0 target_axis_len (Some pad_value) =
  Ok {| shape := Z.to_nat (Z.of_nat n + 1 + target_axis_len) :: rest;
        data := firstn (Z.to_nat (Z.of_nat n + 1 + target_axis_len) * size rest)
                  (data source) |}.
Proof.
  intros Hshape Hwf Hps Hpwf Ht. unfold pad. cbn [bind].
  unfold shape_at. rewrite Hshape. cbn [nth_error bind].
  rewrite cast_int32_id by lia. unfold T.maximum.
  rewrite Z.max_r by lia.
  unfold T.repeat. change (1 <? 0)%Z with false. cbv iota.
  unfold ndim, dim. rewrite Hps. cbn [length Nat.ltb Nat.leb negb nth seq flat_map].
  rewrite app_nil_r. rewrite (take_axis0 pad_value 1 rest) by assumption.
  change (Z.to_nat 1) with 1. cbn [repeat length flat_map]. rewrite app_nil_r.
  assert (Hpd : length (data pad_value) = size rest).
  { unfold wf in Hpwf. rewrite Hpwf, Hps, size_cons. lia. }
  assert (Hd : length (data source) = n * size rest).
  { unfold wf in Hwf. rewrite Hwf, Hshape, size_cons. reflexivity. }
  assert (Hrow : row (size rest) 0 (data pad_value) = data pad_value).
  { unfold row. cbn [Nat.mul skipn]. apply firstn_all2. lia. }
  rewrite Hrow. cbn [bind T.concatenate fold_left].
  rewrite (join0_ok source _ n 1 rest); [ | assumption | reflexivity | assumption | ].
  2:{ unfold wf. cbn [shape data]. rewrite size_cons, Hpd. lia. }
  cbn [bind]. change (slice_for_axis 0 ?s) with (repeat slice_all 0 ++ [s]).
  rewrite getitem_axis.
  2:{ unfold ndim. cbn [shape length]. lia. }
  2:{ unfold wf. cbn [shape data]. rewrite length_app, Hd, Hpd, size_cons. lia. }
  unfold dim. cbn [shape nth].
  rewrite slice_indices_upto_negative by lia. cbn [bind].
  rewrite (take_axis0 _ (n + 1) rest); [ | reflexivity | ].
  2:{ unfold wf. cbn [shape data]. rewrite length_app, Hd, Hpd, size_cons. lia. }
  rewrite length_seq, flat_map_rows_seq. cbn [data].
  replace (target_axis_len + Z.of_nat (n + 1))%Z
    with (Z.of_nat n + 1 + target_axis_len)%Z by lia.
  do 2 f_equal. rewrite firstn_app, Hd.
  replace (Z.to_nat (Z.of_nat n + 1 + target_axis_len) * size rest - n * size rest)
    with 0 by nia.
  cbn [firstn]. apply app_nil_r.
Qed.

(** X21. A negative target length is not rejected: for -2^31 <= L < 0,
    padding along axis 0 appends nothing and returns the first n + 1 + L
    rows of the source (none when that is not positive), n being the
    source's length; the final slice counts the negative stop from the end
    of the array with its one appended frame. *)
Theorem pad_leading_negative_target {A : Type} `{Dtype A}
  (source : ndarray A) (n : nat) (rest : list nat)
  (pad_value : option (ndarray A)) (target_axis_len : Z) :
  shape source = n :: rest -> wf source ->
  (forall p, pad_value = Some p -> shape p = 1 :: rest /\ wf p) ->
  (- 2 ^ 31 <= target_axis_len < 0)%Z ->
  exists out,
    pad source 0 target_axis_len pad_value = Ok out /\
    shape out = Z.to_nat (Z.of_nat n + 1 + target_axis_len) :: rest /\
    wf out /\
    forall j, j < Z.to_nat (Z.of_nat n + 1 + target_axis_len) ->
      leading_row out j = leading_row source j.
Proof.
  intros Hs Hwf Hpv Ht.
  set (k := Z.to_nat (Z.of_nat n + 1 + target_axis_len)).
  assert (Hd : length (data source) = n * size rest).
  { unfold wf in Hwf. rewrite Hwf, Hs, size_cons. reflexivity. }
  assert (E : pad source 0 target_axis_len pad_value =
              Ok {| shape := k :: rest;
                    data := firstn (k * size rest) (data source) |}).
  { destruct pad_value as [p|].
    - destruct (Hpv p eq_refl) as [Hps Hpwf].
      apply (pad_leading_negative_value source n rest p); assumption.
    - transitivity (pad source 0 target_axis_len
                      (Some {| shape := 1 :: rest; data := repeat zero (size rest) |})).
      + unfold pad. rewrite (pad_value_default source n rest Hs). reflexivity.
      + apply (pad_leading_negative_value source n rest); try assumption;
          [reflexivity|].
        unfold wf. cbn [shape data]. rewrite repeat_length, size_cons. lia. }
  eexists. split; [exact E|]. cbn [shape]. split; [reflexivity|]. split.
  - unfold wf. cbn [shape data]. rewrite length_firstn, Hd, size_cons.
    assert (k <= n) by (unfold k; lia). nia.
  - intros j Hj. unfold leading_row, inner. rewrite Hs. cbn [shape data skipn].
    apply row_firstn. assumption.
Qed.

Lemma pad_leading_negative_target_witness :
  exists out,
    pad {| shape := [3; 2]; data := [1; 2; 3; 4; 5; 6]%Z |} 0 (-2) None = Ok out /\
    shape out = [2; 2] /\ leading_row out 1 = [3; 4]%Z.
Proof.
  destruct (pad_leading_negative_target
              {| shape := [3; 2]; data := [1; 2; 3; 4; 5; 6]%Z |} 3 [2] None (-2)
              eq_refl eq_refl ltac:(discriminate) ltac:(lia))
    as (out & E & Hs & _ & Hrow).
  exists out. split; [exact E|]. split; [exact Hs|].
  rewrite (Hrow 1) by (vm_compute; lia). reflexivity.
Defined.
